(** * The command parser of AutoCad-MCP

    A shallow embedding of [src/autocad_mcp/nlp_processor.py]: the keyword
    tables, the extractors built on Python's [re] module, the per-shape
    parameter parsers and [parse_command], followed by the properties of
    the parser that the specification states.  The service layer of
    [src/autocad_mcp/server.py], which hands the parsed commands to the
    CAD controller, is modelled after the parser.

    Conventions of the embedding.
    - A Python [str] is the list of its code points ([text]); string
      literals of the source are written as Rocq strings and decoded from
      UTF-8 by [str].
    - The patterns given to [re] are terms of the type [Regex.re]; they are
      run by a backtracking matcher that tries alternatives left to right
      and repetitions longest first, as sre does.
    - An exception is a value: functions that can raise return [res A].
    - A Python [float] is the binary64 number it is in CPython: strings
      are converted and sums and quotients are rounded to the nearest
      double, and infinities and NaN are values.
    - Character data (white space, decimal digits, word characters, case
      mappings) are the tables of Unicode 14.0, the version of the
      [unicodedata] module of CPython 3.11. *)

From Stdlib Require Import QArith.
From stdpp Require Import gmap strings list fin_maps.

Local Open Scope N_scope.

(** ** Text *)

Abbreviation text := (list N).

Fixpoint bytes_of (s : string) : list N :=
  match s with
  | EmptyString => []
  | String a r => Ascii.N_of_ascii a :: bytes_of r
  end.

(** UTF-8 decoding of a well-formed byte sequence: [need] continuation
    bytes are still expected and [acc] holds the bits read so far. *)
Fixpoint utf8_go (bs : list N) (need : nat) (acc : N) : text :=
  match bs with
  | [] => []
  | b :: r =>
      match need with
      | O =>
          if b <? 128 then b :: utf8_go r 0 0
          else if b <? 224 then utf8_go r 1 (b - 192)
          else if b <? 240 then utf8_go r 2 (b - 224)
          else utf8_go r 3 (b - 240)
      | S O => (acc * 64 + (b - 128)) :: utf8_go r 0 0
      | S n => utf8_go r n (acc * 64 + (b - 128))
      end
  end.

Definition str (s : string) : text := utf8_go (bytes_of s) 0 0.

(** ** Unicode character data *)

Module Unicode.

(** Code points for which [str.isspace] holds; the class [\s] of a str pattern. *)
Definition space_points : list N :=
  [
  9; 10; 11; 12; 13; 28; 29; 30; 31; 32;
  133; 160; 5760; 8192; 8193; 8194; 8195; 8196; 8197; 8198;
  8199; 8200; 8201; 8202; 8232; 8233; 8239; 8287; 12288
  ]%N.

(** The digit zero of every block of ten decimal digits (general category Nd); [\d] matches the ten code points starting at each of them, and [float] reads them with the values 0 to 9. *)
Definition decimal_zeros : list N :=
  [
  48; 1632; 1776; 1984; 2406; 2534; 2662; 2790; 2918; 3046;
  3174; 3302; 3430; 3558; 3664; 3792; 3872; 4160; 4240; 6112;
  6160; 6470; 6608; 6784; 6800; 6992; 7088; 7232; 7248; 42528;
  43216; 43264; 43472; 43504; 43600; 44016; 65296; 66720; 68912; 69734;
  69872; 69942; 70096; 70384; 70736; 70864; 71248; 71360; 71472; 71904;
  72016; 72784; 73040; 73120; 92768; 92864; 93008; 120782; 120792; 120802;
  120812; 120822; 123200; 123632; 125264; 130032
  ]%N.

(** Inclusive ranges of the code points matched by [\w]: alphanumeric code points and the underscore. *)
Definition word_ranges : list (N * N) :=
  [
  (48, 57); (65, 90); (95, 95); (97, 122); (170, 170); (178, 179);
  (181, 181); (185, 186); (188, 190); (192, 214); (216, 246); (248, 705);
  (710, 721); (736, 740); (748, 748); (750, 750); (880, 884); (886, 887);
  (890, 893); (895, 895); (902, 902); (904, 906); (908, 908); (910, 929);
  (931, 1013); (1015, 1153); (1162, 1327); (1329, 1366); (1369, 1369); (1376, 1416);
  (1488, 1514); (1519, 1522); (1568, 1610); (1632, 1641); (1646, 1647); (1649, 1747);
  (1749, 1749); (1765, 1766); (1774, 1788); (1791, 1791); (1808, 1808); (1810, 1839);
  (1869, 1957); (1969, 1969); (1984, 2026); (2036, 2037); (2042, 2042); (2048, 2069);
  (2074, 2074); (2084, 2084); (2088, 2088); (2112, 2136); (2144, 2154); (2160, 2183);
  (2185, 2190); (2208, 2249); (2308, 2361); (2365, 2365); (2384, 2384); (2392, 2401);
  (2406, 2415); (2417, 2432); (2437, 2444); (2447, 2448); (2451, 2472); (2474, 2480);
  (2482, 2482); (2486, 2489); (2493, 2493); (2510, 2510); (2524, 2525); (2527, 2529);
  (2534, 2545); (2548, 2553); (2556, 2556); (2565, 2570); (2575, 2576); (2579, 2600);
  (2602, 2608); (2610, 2611); (2613, 2614); (2616, 2617); (2649, 2652); (2654, 2654);
  (2662, 2671); (2674, 2676); (2693, 2701); (2703, 2705); (2707, 2728); (2730, 2736);
  (2738, 2739); (2741, 2745); (2749, 2749); (2768, 2768); (2784, 2785); (2790, 2799);
  (2809, 2809); (2821, 2828); (2831, 2832); (2835, 2856); (2858, 2864); (2866, 2867);
  (2869, 2873); (2877, 2877); (2908, 2909); (2911, 2913); (2918, 2927); (2929, 2935);
  (2947, 2947); (2949, 2954); (2958, 2960); (2962, 2965); (2969, 2970); (2972, 2972);
  (2974, 2975); (2979, 2980); (2984, 2986); (2990, 3001); (3024, 3024); (3046, 3058);
  (3077, 3084); (3086, 3088); (3090, 3112); (3114, 3129); (3133, 3133); (3160, 3162);
  (3165, 3165); (3168, 3169); (3174, 3183); (3192, 3198); (3200, 3200); (3205, 3212);
  (3214, 3216); (3218, 3240); (3242, 3251); (3253, 3257); (3261, 3261); (3293, 3294);
  (3296, 3297); (3302, 3311); (3313, 3314); (3332, 3340); (3342, 3344); (3346, 3386);
  (3389, 3389); (3406, 3406); (3412, 3414); (3416, 3425); (3430, 3448); (3450, 3455);
  (3461, 3478); (3482, 3505); (3507, 3515); (3517, 3517); (3520, 3526); (3558, 3567);
  (3585, 3632); (3634, 3635); (3648, 3654); (3664, 3673); (3713, 3714); (3716, 3716);
  (3718, 3722); (3724, 3747); (3749, 3749); (3751, 3760); (3762, 3763); (3773, 3773);
  (3776, 3780); (3782, 3782); (3792, 3801); (3804, 3807); (3840, 3840); (3872, 3891);
  (3904, 3911); (3913, 3948); (3976, 3980); (4096, 4138); (4159, 4169); (4176, 4181);
  (4186, 4189); (4193, 4193); (4197, 4198); (4206, 4208); (4213, 4225); (4238, 4238);
  (4240, 4249); (4256, 4293); (4295, 4295); (4301, 4301); (4304, 4346); (4348, 4680);
  (4682, 4685); (4688, 4694); (4696, 4696); (4698, 4701); (4704, 4744); (4746, 4749);
  (4752, 4784); (4786, 4789); (4792, 4798); (4800, 4800); (4802, 4805); (4808, 4822);
  (4824, 4880); (4882, 4885); (4888, 4954); (4969, 4988); (4992, 5007); (5024, 5109);
  (5112, 5117); (5121, 5740); (5743, 5759); (5761, 5786); (5792, 5866); (5870, 5880);
  (5888, 5905); (5919, 5937); (5952, 5969); (5984, 5996); (5998, 6000); (6016, 6067);
  (6103, 6103); (6108, 6108); (6112, 6121); (6128, 6137); (6160, 6169); (6176, 6264);
  (6272, 6276); (6279, 6312); (6314, 6314); (6320, 6389); (6400, 6430); (6470, 6509);
  (6512, 6516); (6528, 6571); (6576, 6601); (6608, 6618); (6656, 6678); (6688, 6740);
  (6784, 6793); (6800, 6809); (6823, 6823); (6917, 6963); (6981, 6988); (6992, 7001);
  (7043, 7072); (7086, 7141); (7168, 7203); (7232, 7241); (7245, 7293); (7296, 7304);
  (7312, 7354); (7357, 7359); (7401, 7404); (7406, 7411); (7413, 7414); (7418, 7418);
  (7424, 7615); (7680, 7957); (7960, 7965); (7968, 8005); (8008, 8013); (8016, 8023);
  (8025, 8025); (8027, 8027); (8029, 8029); (8031, 8061); (8064, 8116); (8118, 8124);
  (8126, 8126); (8130, 8132); (8134, 8140); (8144, 8147); (8150, 8155); (8160, 8172);
  (8178, 8180); (8182, 8188); (8304, 8305); (8308, 8313); (8319, 8329); (8336, 8348);
  (8450, 8450); (8455, 8455); (8458, 8467); (8469, 8469); (8473, 8477); (8484, 8484);
  (8486, 8486); (8488, 8488); (8490, 8493); (8495, 8505); (8508, 8511); (8517, 8521);
  (8526, 8526); (8528, 8585); (9312, 9371); (9450, 9471); (10102, 10131); (11264, 11492);
  (11499, 11502); (11506, 11507); (11517, 11517); (11520, 11557); (11559, 11559); (11565, 11565);
  (11568, 11623); (11631, 11631); (11648, 11670); (11680, 11686); (11688, 11694); (11696, 11702);
  (11704, 11710); (11712, 11718); (11720, 11726); (11728, 11734); (11736, 11742); (11823, 11823);
  (12293, 12295); (12321, 12329); (12337, 12341); (12344, 12348); (12353, 12438); (12445, 12447);
  (12449, 12538); (12540, 12543); (12549, 12591); (12593, 12686); (12690, 12693); (12704, 12735);
  (12784, 12799); (12832, 12841); (12872, 12879); (12881, 12895); (12928, 12937); (12977, 12991);
  (13312, 19903); (19968, 42124); (42192, 42237); (42240, 42508); (42512, 42539); (42560, 42606);
  (42623, 42653); (42656, 42735); (42775, 42783); (42786, 42888); (42891, 42954); (42960, 42961);
  (42963, 42963); (42965, 42969); (42994, 43009); (43011, 43013); (43015, 43018); (43020, 43042);
  (43056, 43061); (43072, 43123); (43138, 43187); (43216, 43225); (43250, 43255); (43259, 43259);
  (43261, 43262); (43264, 43301); (43312, 43334); (43360, 43388); (43396, 43442); (43471, 43481);
  (43488, 43492); (43494, 43518); (43520, 43560); (43584, 43586); (43588, 43595); (43600, 43609);
  (43616, 43638); (43642, 43642); (43646, 43695); (43697, 43697); (43701, 43702); (43705, 43709);
  (43712, 43712); (43714, 43714); (43739, 43741); (43744, 43754); (43762, 43764); (43777, 43782);
  (43785, 43790); (43793, 43798); (43808, 43814); (43816, 43822); (43824, 43866); (43868, 43881);
  (43888, 44002); (44016, 44025); (44032, 55203); (55216, 55238); (55243, 55291); (63744, 64109);
  (64112, 64217); (64256, 64262); (64275, 64279); (64285, 64285); (64287, 64296); (64298, 64310);
  (64312, 64316); (64318, 64318); (64320, 64321); (64323, 64324); (64326, 64433); (64467, 64829);
  (64848, 64911); (64914, 64967); (65008, 65019); (65136, 65140); (65142, 65276); (65296, 65305);
  (65313, 65338); (65345, 65370); (65382, 65470); (65474, 65479); (65482, 65487); (65490, 65495);
  (65498, 65500); (65536, 65547); (65549, 65574); (65576, 65594); (65596, 65597); (65599, 65613);
  (65616, 65629); (65664, 65786); (65799, 65843); (65856, 65912); (65930, 65931); (66176, 66204);
  (66208, 66256); (66273, 66299); (66304, 66339); (66349, 66378); (66384, 66421); (66432, 66461);
  (66464, 66499); (66504, 66511); (66513, 66517); (66560, 66717); (66720, 66729); (66736, 66771);
  (66776, 66811); (66816, 66855); (66864, 66915); (66928, 66938); (66940, 66954); (66956, 66962);
  (66964, 66965); (66967, 66977); (66979, 66993); (66995, 67001); (67003, 67004); (67072, 67382);
  (67392, 67413); (67424, 67431); (67456, 67461); (67463, 67504); (67506, 67514); (67584, 67589);
  (67592, 67592); (67594, 67637); (67639, 67640); (67644, 67644); (67647, 67669); (67672, 67702);
  (67705, 67742); (67751, 67759); (67808, 67826); (67828, 67829); (67835, 67867); (67872, 67897);
  (67968, 68023); (68028, 68047); (68050, 68096); (68112, 68115); (68117, 68119); (68121, 68149);
  (68160, 68168); (68192, 68222); (68224, 68255); (68288, 68295); (68297, 68324); (68331, 68335);
  (68352, 68405); (68416, 68437); (68440, 68466); (68472, 68497); (68521, 68527); (68608, 68680);
  (68736, 68786); (68800, 68850); (68858, 68899); (68912, 68921); (69216, 69246); (69248, 69289);
  (69296, 69297); (69376, 69415); (69424, 69445); (69457, 69460); (69488, 69505); (69552, 69579);
  (69600, 69622); (69635, 69687); (69714, 69743); (69745, 69746); (69749, 69749); (69763, 69807);
  (69840, 69864); (69872, 69881); (69891, 69926); (69942, 69951); (69956, 69956); (69959, 69959);
  (69968, 70002); (70006, 70006); (70019, 70066); (70081, 70084); (70096, 70106); (70108, 70108);
  (70113, 70132); (70144, 70161); (70163, 70187); (70272, 70278); (70280, 70280); (70282, 70285);
  (70287, 70301); (70303, 70312); (70320, 70366); (70384, 70393); (70405, 70412); (70415, 70416);
  (70419, 70440); (70442, 70448); (70450, 70451); (70453, 70457); (70461, 70461); (70480, 70480);
  (70493, 70497); (70656, 70708); (70727, 70730); (70736, 70745); (70751, 70753); (70784, 70831);
  (70852, 70853); (70855, 70855); (70864, 70873); (71040, 71086); (71128, 71131); (71168, 71215);
  (71236, 71236); (71248, 71257); (71296, 71338); (71352, 71352); (71360, 71369); (71424, 71450);
  (71472, 71483); (71488, 71494); (71680, 71723); (71840, 71922); (71935, 71942); (71945, 71945);
  (71948, 71955); (71957, 71958); (71960, 71983); (71999, 71999); (72001, 72001); (72016, 72025);
  (72096, 72103); (72106, 72144); (72161, 72161); (72163, 72163); (72192, 72192); (72203, 72242);
  (72250, 72250); (72272, 72272); (72284, 72329); (72349, 72349); (72368, 72440); (72704, 72712);
  (72714, 72750); (72768, 72768); (72784, 72812); (72818, 72847); (72960, 72966); (72968, 72969);
  (72971, 73008); (73030, 73030); (73040, 73049); (73056, 73061); (73063, 73064); (73066, 73097);
  (73112, 73112); (73120, 73129); (73440, 73458); (73648, 73648); (73664, 73684); (73728, 74649);
  (74752, 74862); (74880, 75075); (77712, 77808); (77824, 78894); (82944, 83526); (92160, 92728);
  (92736, 92766); (92768, 92777); (92784, 92862); (92864, 92873); (92880, 92909); (92928, 92975);
  (92992, 92995); (93008, 93017); (93019, 93025); (93027, 93047); (93053, 93071); (93760, 93846);
  (93952, 94026); (94032, 94032); (94099, 94111); (94176, 94177); (94179, 94179); (94208, 100343);
  (100352, 101589); (101632, 101640); (110576, 110579); (110581, 110587); (110589, 110590); (110592, 110882);
  (110928, 110930); (110948, 110951); (110960, 111355); (113664, 113770); (113776, 113788); (113792, 113800);
  (113808, 113817); (119520, 119539); (119648, 119672); (119808, 119892); (119894, 119964); (119966, 119967);
  (119970, 119970); (119973, 119974); (119977, 119980); (119982, 119993); (119995, 119995); (119997, 120003);
  (120005, 120069); (120071, 120074); (120077, 120084); (120086, 120092); (120094, 120121); (120123, 120126);
  (120128, 120132); (120134, 120134); (120138, 120144); (120146, 120485); (120488, 120512); (120514, 120538);
  (120540, 120570); (120572, 120596); (120598, 120628); (120630, 120654); (120656, 120686); (120688, 120712);
  (120714, 120744); (120746, 120770); (120772, 120779); (120782, 120831); (122624, 122654); (123136, 123180);
  (123191, 123197); (123200, 123209); (123214, 123214); (123536, 123565); (123584, 123627); (123632, 123641);
  (124896, 124902); (124904, 124907); (124909, 124910); (124912, 124926); (124928, 125124); (125127, 125135);
  (125184, 125251); (125259, 125259); (125264, 125273); (126065, 126123); (126125, 126127); (126129, 126132);
  (126209, 126253); (126255, 126269); (126464, 126467); (126469, 126495); (126497, 126498); (126500, 126500);
  (126503, 126503); (126505, 126514); (126516, 126519); (126521, 126521); (126523, 126523); (126530, 126530);
  (126535, 126535); (126537, 126537); (126539, 126539); (126541, 126543); (126545, 126546); (126548, 126548);
  (126551, 126551); (126553, 126553); (126555, 126555); (126557, 126557); (126559, 126559); (126561, 126562);
  (126564, 126564); (126567, 126570); (126572, 126578); (126580, 126583); (126585, 126588); (126590, 126590);
  (126592, 126601); (126603, 126619); (126625, 126627); (126629, 126633); (126635, 126651); (127232, 127244);
  (130032, 130041); (131072, 173791); (173824, 177976); (177984, 178205); (178208, 183969); (183984, 191456);
  (194560, 195101); (196608, 201546)
  ]%N.

(** Inclusive ranges of the code points that sre treats as cased (they differ from their simple lower-case or upper-case image). *)
Definition cased_ranges : list (N * N) :=
  [
  (65, 90); (97, 122); (181, 181); (192, 214); (216, 246); (248, 311);
  (313, 396); (398, 410); (412, 425); (428, 441); (444, 445); (447, 447);
  (452, 544); (546, 563); (570, 596); (598, 599); (601, 601); (603, 604);
  (608, 609); (611, 611); (613, 614); (616, 620); (623, 623); (625, 626);
  (629, 629); (637, 637); (640, 640); (642, 643); (647, 652); (658, 658);
  (669, 670); (837, 837); (880, 883); (886, 887); (891, 893); (895, 895);
  (902, 902); (904, 906); (908, 908); (910, 929); (931, 977); (981, 1013);
  (1015, 1019); (1021, 1153); (1162, 1327); (1329, 1366); (1377, 1415); (4256, 4293);
  (4295, 4295); (4301, 4301); (4304, 4346); (4349, 4351); (5024, 5109); (5112, 5117);
  (7296, 7304); (7312, 7354); (7357, 7359); (7545, 7545); (7549, 7549); (7566, 7566);
  (7680, 7835); (7838, 7838); (7840, 7957); (7960, 7965); (7968, 8005); (8008, 8013);
  (8016, 8023); (8025, 8025); (8027, 8027); (8029, 8029); (8031, 8061); (8064, 8116);
  (8118, 8124); (8126, 8126); (8130, 8132); (8134, 8140); (8144, 8147); (8150, 8155);
  (8160, 8172); (8178, 8180); (8182, 8188); (8486, 8486); (8490, 8491); (8498, 8498);
  (8526, 8526); (8544, 8575); (8579, 8580); (9398, 9449); (11264, 11376); (11378, 11379);
  (11381, 11382); (11390, 11491); (11499, 11502); (11506, 11507); (11520, 11557); (11559, 11559);
  (11565, 11565); (42560, 42605); (42624, 42651); (42786, 42799); (42802, 42863); (42873, 42887);
  (42891, 42893); (42896, 42900); (42902, 42926); (42928, 42954); (42960, 42961); (42966, 42969);
  (42997, 42998); (43859, 43859); (43888, 43967); (64256, 64262); (64275, 64279); (65313, 65338);
  (65345, 65370); (66560, 66639); (66736, 66771); (66776, 66811); (66928, 66938); (66940, 66954);
  (66956, 66962); (66964, 66965); (66967, 66977); (66979, 66993); (66995, 67001); (67003, 67004);
  (68736, 68786); (68800, 68850); (71840, 71903); (93760, 93823); (125184, 125251)
  ]%N.

(** Simple lower-case mapping as arithmetic runs (first, last, step, offset): a code point in a run maps to itself plus the offset. *)
Definition lower_runs : list (N * N * N * Z) :=
  [
  (65, 90, 1, 32%Z); (192, 214, 1, 32%Z); (216, 222, 1, 32%Z); (256, 302, 2, 1%Z);
  (304, 304, 1, (-199)%Z); (306, 310, 2, 1%Z); (313, 327, 2, 1%Z); (330, 374, 2, 1%Z);
  (376, 376, 1, (-121)%Z); (377, 381, 2, 1%Z); (385, 385, 1, 210%Z); (386, 388, 2, 1%Z);
  (390, 390, 1, 206%Z); (391, 391, 1, 1%Z); (393, 394, 1, 205%Z); (395, 395, 1, 1%Z);
  (398, 398, 1, 79%Z); (399, 399, 1, 202%Z); (400, 400, 1, 203%Z); (401, 401, 1, 1%Z);
  (403, 403, 1, 205%Z); (404, 404, 1, 207%Z); (406, 406, 1, 211%Z); (407, 407, 1, 209%Z);
  (408, 408, 1, 1%Z); (412, 412, 1, 211%Z); (413, 413, 1, 213%Z); (415, 415, 1, 214%Z);
  (416, 420, 2, 1%Z); (422, 422, 1, 218%Z); (423, 423, 1, 1%Z); (425, 425, 1, 218%Z);
  (428, 428, 1, 1%Z); (430, 430, 1, 218%Z); (431, 431, 1, 1%Z); (433, 434, 1, 217%Z);
  (435, 437, 2, 1%Z); (439, 439, 1, 219%Z); (440, 440, 1, 1%Z); (444, 444, 1, 1%Z);
  (452, 452, 1, 2%Z); (453, 453, 1, 1%Z); (455, 455, 1, 2%Z); (456, 456, 1, 1%Z);
  (458, 458, 1, 2%Z); (459, 475, 2, 1%Z); (478, 494, 2, 1%Z); (497, 497, 1, 2%Z);
  (498, 500, 2, 1%Z); (502, 502, 1, (-97)%Z); (503, 503, 1, (-56)%Z); (504, 542, 2, 1%Z);
  (544, 544, 1, (-130)%Z); (546, 562, 2, 1%Z); (570, 570, 1, 10795%Z); (571, 571, 1, 1%Z);
  (573, 573, 1, (-163)%Z); (574, 574, 1, 10792%Z); (577, 577, 1, 1%Z); (579, 579, 1, (-195)%Z);
  (580, 580, 1, 69%Z); (581, 581, 1, 71%Z); (582, 590, 2, 1%Z); (880, 882, 2, 1%Z);
  (886, 886, 1, 1%Z); (895, 895, 1, 116%Z); (902, 902, 1, 38%Z); (904, 906, 1, 37%Z);
  (908, 908, 1, 64%Z); (910, 911, 1, 63%Z); (913, 929, 1, 32%Z); (931, 939, 1, 32%Z);
  (975, 975, 1, 8%Z); (984, 1006, 2, 1%Z); (1012, 1012, 1, (-60)%Z); (1015, 1015, 1, 1%Z);
  (1017, 1017, 1, (-7)%Z); (1018, 1018, 1, 1%Z); (1021, 1023, 1, (-130)%Z); (1024, 1039, 1, 80%Z);
  (1040, 1071, 1, 32%Z); (1120, 1152, 2, 1%Z); (1162, 1214, 2, 1%Z); (1216, 1216, 1, 15%Z);
  (1217, 1229, 2, 1%Z); (1232, 1326, 2, 1%Z); (1329, 1366, 1, 48%Z); (4256, 4293, 1, 7264%Z);
  (4295, 4295, 1, 7264%Z); (4301, 4301, 1, 7264%Z); (5024, 5103, 1, 38864%Z); (5104, 5109, 1, 8%Z);
  (7312, 7354, 1, (-3008)%Z); (7357, 7359, 1, (-3008)%Z); (7680, 7828, 2, 1%Z); (7838, 7838, 1, (-7615)%Z);
  (7840, 7934, 2, 1%Z); (7944, 7951, 1, (-8)%Z); (7960, 7965, 1, (-8)%Z); (7976, 7983, 1, (-8)%Z);
  (7992, 7999, 1, (-8)%Z); (8008, 8013, 1, (-8)%Z); (8025, 8031, 2, (-8)%Z); (8040, 8047, 1, (-8)%Z);
  (8072, 8079, 1, (-8)%Z); (8088, 8095, 1, (-8)%Z); (8104, 8111, 1, (-8)%Z); (8120, 8121, 1, (-8)%Z);
  (8122, 8123, 1, (-74)%Z); (8124, 8124, 1, (-9)%Z); (8136, 8139, 1, (-86)%Z); (8140, 8140, 1, (-9)%Z);
  (8152, 8153, 1, (-8)%Z); (8154, 8155, 1, (-100)%Z); (8168, 8169, 1, (-8)%Z); (8170, 8171, 1, (-112)%Z);
  (8172, 8172, 1, (-7)%Z); (8184, 8185, 1, (-128)%Z); (8186, 8187, 1, (-126)%Z); (8188, 8188, 1, (-9)%Z);
  (8486, 8486, 1, (-7517)%Z); (8490, 8490, 1, (-8383)%Z); (8491, 8491, 1, (-8262)%Z); (8498, 8498, 1, 28%Z);
  (8544, 8559, 1, 16%Z); (8579, 8579, 1, 1%Z); (9398, 9423, 1, 26%Z); (11264, 11311, 1, 48%Z);
  (11360, 11360, 1, 1%Z); (11362, 11362, 1, (-10743)%Z); (11363, 11363, 1, (-3814)%Z); (11364, 11364, 1, (-10727)%Z);
  (11367, 11371, 2, 1%Z); (11373, 11373, 1, (-10780)%Z); (11374, 11374, 1, (-10749)%Z); (11375, 11375, 1, (-10783)%Z);
  (11376, 11376, 1, (-10782)%Z); (11378, 11378, 1, 1%Z); (11381, 11381, 1, 1%Z); (11390, 11391, 1, (-10815)%Z);
  (11392, 11490, 2, 1%Z); (11499, 11501, 2, 1%Z); (11506, 11506, 1, 1%Z); (42560, 42604, 2, 1%Z);
  (42624, 42650, 2, 1%Z); (42786, 42798, 2, 1%Z); (42802, 42862, 2, 1%Z); (42873, 42875, 2, 1%Z);
  (42877, 42877, 1, (-35332)%Z); (42878, 42886, 2, 1%Z); (42891, 42891, 1, 1%Z); (42893, 42893, 1, (-42280)%Z);
  (42896, 42898, 2, 1%Z); (42902, 42920, 2, 1%Z); (42922, 42922, 1, (-42308)%Z); (42923, 42923, 1, (-42319)%Z);
  (42924, 42924, 1, (-42315)%Z); (42925, 42925, 1, (-42305)%Z); (42926, 42926, 1, (-42308)%Z); (42928, 42928, 1, (-42258)%Z);
  (42929, 42929, 1, (-42282)%Z); (42930, 42930, 1, (-42261)%Z); (42931, 42931, 1, 928%Z); (42932, 42946, 2, 1%Z);
  (42948, 42948, 1, (-48)%Z); (42949, 42949, 1, (-42307)%Z); (42950, 42950, 1, (-35384)%Z); (42951, 42953, 2, 1%Z);
  (42960, 42960, 1, 1%Z); (42966, 42968, 2, 1%Z); (42997, 42997, 1, 1%Z); (65313, 65338, 1, 32%Z);
  (66560, 66599, 1, 40%Z); (66736, 66771, 1, 40%Z); (66928, 66938, 1, 39%Z); (66940, 66954, 1, 39%Z);
  (66956, 66962, 1, 39%Z); (66964, 66965, 1, 39%Z); (68736, 68786, 1, 64%Z); (71840, 71871, 1, 32%Z);
  (93760, 93791, 1, 32%Z); (125184, 125217, 1, 34%Z)
  ]%N.

(** Upper-case mapping of the code points whose upper-case form is one code point, as runs (first, last, step, offset). *)
Definition upper_runs : list (N * N * N * Z) :=
  [
  (97, 122, 1, (-32)%Z); (181, 181, 1, 743%Z); (224, 246, 1, (-32)%Z); (248, 254, 1, (-32)%Z);
  (255, 255, 1, 121%Z); (257, 303, 2, (-1)%Z); (305, 305, 1, (-232)%Z); (307, 311, 2, (-1)%Z);
  (314, 328, 2, (-1)%Z); (331, 375, 2, (-1)%Z); (378, 382, 2, (-1)%Z); (383, 383, 1, (-300)%Z);
  (384, 384, 1, 195%Z); (387, 389, 2, (-1)%Z); (392, 392, 1, (-1)%Z); (396, 396, 1, (-1)%Z);
  (402, 402, 1, (-1)%Z); (405, 405, 1, 97%Z); (409, 409, 1, (-1)%Z); (410, 410, 1, 163%Z);
  (414, 414, 1, 130%Z); (417, 421, 2, (-1)%Z); (424, 424, 1, (-1)%Z); (429, 429, 1, (-1)%Z);
  (432, 432, 1, (-1)%Z); (436, 438, 2, (-1)%Z); (441, 441, 1, (-1)%Z); (445, 445, 1, (-1)%Z);
  (447, 447, 1, 56%Z); (453, 453, 1, (-1)%Z); (454, 454, 1, (-2)%Z); (456, 456, 1, (-1)%Z);
  (457, 457, 1, (-2)%Z); (459, 459, 1, (-1)%Z); (460, 460, 1, (-2)%Z); (462, 476, 2, (-1)%Z);
  (477, 477, 1, (-79)%Z); (479, 495, 2, (-1)%Z); (498, 498, 1, (-1)%Z); (499, 499, 1, (-2)%Z);
  (501, 501, 1, (-1)%Z); (505, 543, 2, (-1)%Z); (547, 563, 2, (-1)%Z); (572, 572, 1, (-1)%Z);
  (575, 576, 1, 10815%Z); (578, 578, 1, (-1)%Z); (583, 591, 2, (-1)%Z); (592, 592, 1, 10783%Z);
  (593, 593, 1, 10780%Z); (594, 594, 1, 10782%Z); (595, 595, 1, (-210)%Z); (596, 596, 1, (-206)%Z);
  (598, 599, 1, (-205)%Z); (601, 601, 1, (-202)%Z); (603, 603, 1, (-203)%Z); (604, 604, 1, 42319%Z);
  (608, 608, 1, (-205)%Z); (609, 609, 1, 42315%Z); (611, 611, 1, (-207)%Z); (613, 613, 1, 42280%Z);
  (614, 614, 1, 42308%Z); (616, 616, 1, (-209)%Z); (617, 617, 1, (-211)%Z); (618, 618, 1, 42308%Z);
  (619, 619, 1, 10743%Z); (620, 620, 1, 42305%Z); (623, 623, 1, (-211)%Z); (625, 625, 1, 10749%Z);
  (626, 626, 1, (-213)%Z); (629, 629, 1, (-214)%Z); (637, 637, 1, 10727%Z); (640, 640, 1, (-218)%Z);
  (642, 642, 1, 42307%Z); (643, 643, 1, (-218)%Z); (647, 647, 1, 42282%Z); (648, 648, 1, (-218)%Z);
  (649, 649, 1, (-69)%Z); (650, 651, 1, (-217)%Z); (652, 652, 1, (-71)%Z); (658, 658, 1, (-219)%Z);
  (669, 669, 1, 42261%Z); (670, 670, 1, 42258%Z); (837, 837, 1, 84%Z); (881, 883, 2, (-1)%Z);
  (887, 887, 1, (-1)%Z); (891, 893, 1, 130%Z); (940, 940, 1, (-38)%Z); (941, 943, 1, (-37)%Z);
  (945, 961, 1, (-32)%Z); (962, 962, 1, (-31)%Z); (963, 971, 1, (-32)%Z); (972, 972, 1, (-64)%Z);
  (973, 974, 1, (-63)%Z); (976, 976, 1, (-62)%Z); (977, 977, 1, (-57)%Z); (981, 981, 1, (-47)%Z);
  (982, 982, 1, (-54)%Z); (983, 983, 1, (-8)%Z); (985, 1007, 2, (-1)%Z); (1008, 1008, 1, (-86)%Z);
  (1009, 1009, 1, (-80)%Z); (1010, 1010, 1, 7%Z); (1011, 1011, 1, (-116)%Z); (1013, 1013, 1, (-96)%Z);
  (1016, 1016, 1, (-1)%Z); (1019, 1019, 1, (-1)%Z); (1072, 1103, 1, (-32)%Z); (1104, 1119, 1, (-80)%Z);
  (1121, 1153, 2, (-1)%Z); (1163, 1215, 2, (-1)%Z); (1218, 1230, 2, (-1)%Z); (1231, 1231, 1, (-15)%Z);
  (1233, 1327, 2, (-1)%Z); (1377, 1414, 1, (-48)%Z); (4304, 4346, 1, 3008%Z); (4349, 4351, 1, 3008%Z);
  (5112, 5117, 1, (-8)%Z); (7296, 7296, 1, (-6254)%Z); (7297, 7297, 1, (-6253)%Z); (7298, 7298, 1, (-6244)%Z);
  (7299, 7300, 1, (-6242)%Z); (7301, 7301, 1, (-6243)%Z); (7302, 7302, 1, (-6236)%Z); (7303, 7303, 1, (-6181)%Z);
  (7304, 7304, 1, 35266%Z); (7545, 7545, 1, 35332%Z); (7549, 7549, 1, 3814%Z); (7566, 7566, 1, 35384%Z);
  (7681, 7829, 2, (-1)%Z); (7835, 7835, 1, (-59)%Z); (7841, 7935, 2, (-1)%Z); (7936, 7943, 1, 8%Z);
  (7952, 7957, 1, 8%Z); (7968, 7975, 1, 8%Z); (7984, 7991, 1, 8%Z); (8000, 8005, 1, 8%Z);
  (8017, 8023, 2, 8%Z); (8032, 8039, 1, 8%Z); (8048, 8049, 1, 74%Z); (8050, 8053, 1, 86%Z);
  (8054, 8055, 1, 100%Z); (8056, 8057, 1, 128%Z); (8058, 8059, 1, 112%Z); (8060, 8061, 1, 126%Z);
  (8112, 8113, 1, 8%Z); (8126, 8126, 1, (-7205)%Z); (8144, 8145, 1, 8%Z); (8160, 8161, 1, 8%Z);
  (8165, 8165, 1, 7%Z); (8526, 8526, 1, (-28)%Z); (8560, 8575, 1, (-16)%Z); (8580, 8580, 1, (-1)%Z);
  (9424, 9449, 1, (-26)%Z); (11312, 11359, 1, (-48)%Z); (11361, 11361, 1, (-1)%Z); (11365, 11365, 1, (-10795)%Z);
  (11366, 11366, 1, (-10792)%Z); (11368, 11372, 2, (-1)%Z); (11379, 11379, 1, (-1)%Z); (11382, 11382, 1, (-1)%Z);
  (11393, 11491, 2, (-1)%Z); (11500, 11502, 2, (-1)%Z); (11507, 11507, 1, (-1)%Z); (11520, 11557, 1, (-7264)%Z);
  (11559, 11559, 1, (-7264)%Z); (11565, 11565, 1, (-7264)%Z); (42561, 42605, 2, (-1)%Z); (42625, 42651, 2, (-1)%Z);
  (42787, 42799, 2, (-1)%Z); (42803, 42863, 2, (-1)%Z); (42874, 42876, 2, (-1)%Z); (42879, 42887, 2, (-1)%Z);
  (42892, 42892, 1, (-1)%Z); (42897, 42899, 2, (-1)%Z); (42900, 42900, 1, 48%Z); (42903, 42921, 2, (-1)%Z);
  (42933, 42947, 2, (-1)%Z); (42952, 42954, 2, (-1)%Z); (42961, 42961, 1, (-1)%Z); (42967, 42969, 2, (-1)%Z);
  (42998, 42998, 1, (-1)%Z); (43859, 43859, 1, (-928)%Z); (43888, 43967, 1, (-38864)%Z); (65345, 65370, 1, (-32)%Z);
  (66600, 66639, 1, (-40)%Z); (66776, 66811, 1, (-40)%Z); (66967, 66977, 1, (-39)%Z); (66979, 66993, 1, (-39)%Z);
  (66995, 67001, 1, (-39)%Z); (67003, 67004, 1, (-39)%Z); (68800, 68850, 1, (-64)%Z); (71872, 71903, 1, (-32)%Z);
  (93792, 93823, 1, (-32)%Z); (125218, 125251, 1, (-34)%Z)
  ]%N.

(** Code points whose upper-case form is several code points. *)
Definition upper_special : list (N * list N) :=
  [
  (223, [83; 83]); (329, [700; 78]); (496, [74; 780]); (912, [921; 776; 769]);
  (944, [933; 776; 769]); (1415, [1333; 1362]); (7830, [72; 817]); (7831, [84; 776]);
  (7832, [87; 778]); (7833, [89; 778]); (7834, [65; 702]); (8016, [933; 787]);
  (8018, [933; 787; 768]); (8020, [933; 787; 769]); (8022, [933; 787; 834]); (8064, [7944; 921]);
  (8065, [7945; 921]); (8066, [7946; 921]); (8067, [7947; 921]); (8068, [7948; 921]);
  (8069, [7949; 921]); (8070, [7950; 921]); (8071, [7951; 921]); (8072, [7944; 921]);
  (8073, [7945; 921]); (8074, [7946; 921]); (8075, [7947; 921]); (8076, [7948; 921]);
  (8077, [7949; 921]); (8078, [7950; 921]); (8079, [7951; 921]); (8080, [7976; 921]);
  (8081, [7977; 921]); (8082, [7978; 921]); (8083, [7979; 921]); (8084, [7980; 921]);
  (8085, [7981; 921]); (8086, [7982; 921]); (8087, [7983; 921]); (8088, [7976; 921]);
  (8089, [7977; 921]); (8090, [7978; 921]); (8091, [7979; 921]); (8092, [7980; 921]);
  (8093, [7981; 921]); (8094, [7982; 921]); (8095, [7983; 921]); (8096, [8040; 921]);
  (8097, [8041; 921]); (8098, [8042; 921]); (8099, [8043; 921]); (8100, [8044; 921]);
  (8101, [8045; 921]); (8102, [8046; 921]); (8103, [8047; 921]); (8104, [8040; 921]);
  (8105, [8041; 921]); (8106, [8042; 921]); (8107, [8043; 921]); (8108, [8044; 921]);
  (8109, [8045; 921]); (8110, [8046; 921]); (8111, [8047; 921]); (8114, [8122; 921]);
  (8115, [913; 921]); (8116, [902; 921]); (8118, [913; 834]); (8119, [913; 834; 921]);
  (8124, [913; 921]); (8130, [8138; 921]); (8131, [919; 921]); (8132, [905; 921]);
  (8134, [919; 834]); (8135, [919; 834; 921]); (8140, [919; 921]); (8146, [921; 776; 768]);
  (8147, [921; 776; 769]); (8150, [921; 834]); (8151, [921; 776; 834]); (8162, [933; 776; 768]);
  (8163, [933; 776; 769]); (8164, [929; 787]); (8166, [933; 834]); (8167, [933; 776; 834]);
  (8178, [8186; 921]); (8179, [937; 921]); (8180, [911; 921]); (8182, [937; 834]);
  (8183, [937; 834; 921]); (8188, [937; 921]); (64256, [70; 70]); (64257, [70; 73]);
  (64258, [70; 76]); (64259, [70; 70; 73]); (64260, [70; 70; 76]); (64261, [83; 84]);
  (64262, [83; 84]); (64275, [1348; 1350]); (64276, [1348; 1333]); (64277, [1348; 1339]);
  (64278, [1358; 1350]); (64279, [1348; 1341])
  ]%N.

(** sre's table of lower-case code points that share an upper-case form with other lower-case code points. *)
Definition extra_cases : list (N * list N) :=
  [
  (105, [305]); (115, [383]); (181, [956]); (305, [105]); (383, [115]);
  (837, [953; 8126]); (912, [8147]); (944, [8163]); (946, [976]); (949, [1013]);
  (952, [977]); (953, [837; 8126]); (954, [1008]); (956, [181]); (960, [982]);
  (961, [1009]); (962, [963]); (963, [962]); (966, [981]); (976, [946]);
  (977, [952]); (981, [966]); (982, [960]); (1008, [954]); (1009, [961]);
  (1013, [949]); (1074, [7296]); (1076, [7297]); (1086, [7298]); (1089, [7299]);
  (1090, [7300; 7301]); (1098, [7302]); (1123, [7303]); (7296, [1074]); (7297, [1076]);
  (7298, [1086]); (7299, [1089]); (7300, [1090; 7301]); (7301, [1090; 7300]); (7302, [1098]);
  (7303, [1123]); (7304, [42571]); (7777, [7835]); (7835, [7777]); (8126, [837; 953]);
  (8147, [912]); (8163, [944]); (42571, [7304]); (64261, [64262]); (64262, [64261])
  ]%N.

Definition in_range (c : N) (r : N * N) : bool :=
  (r.1 <=? c) && (c <=? r.2).

Definition in_run (c : N) (r : N * N * N * Z) : bool :=
  let '(lo, hi, step, _) := r in
  (lo <=? c) && (c <=? hi) && ((c - lo) mod step =? 0).

Definition apply_runs (runs : list (N * N * N * Z)) (c : N) : N :=
  match find (in_run c) runs with
  | Some (_, _, _, d) => Z.to_N (Z.of_N c + d)
  | None => c
  end.

Definition is_space (c : N) : bool := existsb (N.eqb c) space_points.

Definition in_block (c z : N) : bool := (z <=? c) && (c <? z + 10).

Definition is_decimal (c : N) : bool := existsb (in_block c) decimal_zeros.

Definition decimal_value (c : N) : Z :=
  match find (in_block c) decimal_zeros with
  | Some z => Z.of_N (c - z)
  | None => 0%Z
  end.

Definition is_word (c : N) : bool := existsb (in_range c) word_ranges.

Definition iscased (c : N) : bool := existsb (in_range c) cased_ranges.

(** [_sre.unicode_tolower]: the simple (one to one) lower-case mapping. *)
Definition tolower (c : N) : N := apply_runs lower_runs c.

(** The lower-case code points that sre matches along with [lo]. *)
Definition fixes (lo : N) : list N :=
  match find (fun e => e.1 =? lo) extra_cases with
  | Some e => e.2
  | None => []
  end.

(** [str.lower] of one code point.  U+0130 is the only code point whose
    lower-case form is longer than one code point.  The rule that turns a
    word-final capital sigma into U+03C2 instead of U+03C3 depends on the
    neighbours of the letter and is left out: U+03A3 always maps to U+03C3
    here.  Neither image occurs in a keyword or a pattern of the program,
    and a text matched by one of its case-insensitive patterns holds no
    sigma, so no test of the program tells the two apart. *)
Definition lower_cp (c : N) : text :=
  if c =? 304 then [105; 775] else [tolower c].

Definition upper_cp (c : N) : text :=
  match find (fun e => e.1 =? c) upper_special with
  | Some e => e.2
  | None => [apply_runs upper_runs c]
  end.

End Unicode.

(** [str.lower] and [str.upper]. *)
Definition py_lower (s : text) : text := flat_map Unicode.lower_cp s.
Definition py_upper (s : text) : text := flat_map Unicode.upper_cp s.

(** ** Regular expressions

    The fragment of Python's pattern language that the program uses:
    single-character classes, concatenation, ordered alternation, the
    greedy [?], greedy [*] and [+] over a character class, and capturing
    groups.  The program uses no anchor, no look-around and no
    back-reference, so whether a pattern matches at a position depends on
    the text from that position on only. *)

Module Regex.

Inductive re : Type :=
| Eps
| Chr (p : N -> bool)
| Seq (a b : re)
| Alt (a b : re)
| Opt (a : re)
| Star (p : N -> bool)
| Grp (n : nat) (a : re).

Definition Plus (p : N -> bool) : re := Seq (Chr p) (Star p).

Definition seqs (l : list re) : re := foldr Seq Eps l.

(** ["|".join]: an alternation of the members of a non-empty list, in
    the order of the list. *)
Fixpoint alts (l : list re) : re :=
  match l with
  | [] => Eps
  | [a] => a
  | a :: r => Alt a (alts r)
  end.

(** *** Character classes *)

Definition lit (c : N) : N -> bool := N.eqb c.

Definition one_of (l : list N) : N -> bool := fun t => existsb (N.eqb t) l.

Definition none_of (l : list N) : N -> bool := fun t => negb (one_of l t).

(** A literal of a pattern compiled with [re.IGNORECASE].  sre keeps an
    uncased literal as it is; for a cased one it stores the simple lower
    case [lo] of the literal, and a code point of the text matches when its
    own simple lower case is [lo] or one of the [fixes] of [lo]. *)
Definition ilit (c : N) : N -> bool :=
  if Unicode.iscased c then
    let lo := Unicode.tolower c in
    fun t => let l := Unicode.tolower t in (l =? lo) || existsb (N.eqb l) (Unicode.fixes lo)
  else N.eqb c.

Definition lits (s : text) : re := seqs (map (fun c => Chr (lit c)) s).
Definition ilits (s : text) : re := seqs (map (fun c => Chr (ilit c)) s).

(** *** The matcher

    [run r k s c] matches [r] at the head of [s] with the groups [c]
    captured so far, and hands the rest of the text and the groups to the
    continuation [k]; when [k] fails the matcher backtracks into [r].  The
    first success in sre's order of preference is returned. *)

Definition caps : Type := list (nat * text).
Definition cont : Type := text -> caps -> option (text * caps).

Fixpoint star (p : N -> bool) (k : cont) (s : text) (c : caps) : option (text * caps) :=
  match s with
  | x :: s' =>
      if p x then
        match star p k s' c with
        | Some r => Some r
        | None => k s c
        end
      else k s c
  | [] => k s c
  end.

Fixpoint run (r : re) (k : cont) (s : text) (c : caps) : option (text * caps) :=
  match r with
  | Eps => k s c
  | Chr p =>
      match s with
      | x :: s' => if p x then k s' c else None
      | [] => None
      end
  | Seq a b => run a (run b k) s c
  | Alt a b =>
      match run a k s c with
      | Some r => Some r
      | None => run b k s c
      end
  | Opt a =>
      match run a k s c with
      | Some r => Some r
      | None => k s c
      end
  | Star p => star p k s c
  | Grp n a =>
      run a (fun s' c' => k s' ((n, take (length s - length s') s) :: c')) s c
  end.

Definition accept : cont := fun s c => Some (s, c).

(** *** Match objects, [search] and [finditer] *)

Record Match : Type := mkMatch {
  m_start : nat;
  m_whole : text;
  m_caps : caps
}.

Definition match_here (r : re) (s : text) (i : nat) : option Match :=
  match run r accept s [] with
  | Some (rest, c) => Some (mkMatch i (take (length s - length rest) s) c)
  | None => None
  end.

(** [pattern.search(text)]: the match at the leftmost position that
    has one; the position after the last code point is tried too. *)
Fixpoint search_from (r : re) (s : text) (i : nat) : option Match :=
  match match_here r s i with
  | Some m => Some m
  | None =>
      match s with
      | [] => None
      | _ :: s' => search_from r s' (S i)
      end
  end.

Definition search (r : re) (s : text) : option Match := search_from r s 0.

(** [pattern.finditer(text)]: the non-overlapping matches from left to
    right.  [skip] counts the code points of the previous match that are
    still to be passed over.  Both patterns that the program gives to
    [finditer] need at least one digit, so no match is empty and the
    special treatment that sre gives to empty matches plays no part. *)
Fixpoint finditer_from (r : re) (s : text) (skip i : nat) : list Match :=
  match s with
  | [] =>
      match skip with
      | O => match match_here r [] i with Some m => [m] | None => [] end
      | S _ => []
      end
  | x :: s' =>
      match skip with
      | S n => finditer_from r s' n (S i)
      | O =>
          match match_here r s i with
          | Some m => m :: finditer_from r s' (length (m_whole m) - 1) (S i)
          | None => finditer_from r s' 0 (S i)
          end
      end
  end.

Definition finditer (r : re) (s : text) : list Match := finditer_from r s 0 0.

(** [m.group(n)] for [n >= 1]: [None] when the group took no part. *)
Definition group (m : Match) (n : nat) : option text :=
  snd <$> find (fun e => Nat.eqb e.1 n) (m_caps m).

End Regex.

(** ** Python values, exceptions and built-ins *)

Inductive exn : Type := ValueError | IndexError | TypeError | AttributeError.

Inductive res (A : Type) : Type :=
| Ok (a : A)
| Raise (e : exn).
Arguments Ok {A} a.
Arguments Raise {A} e.

Definition bind {A B : Type} (m : res A) (f : A -> res B) : res B :=
  match m with
  | Ok a => f a
  | Raise e => Raise e
  end.

Notation "x <- m ;; k" := (bind m (fun x => k))
  (at level 20, m at level 99, k at level 200, only parsing).

(** *** Floats

    A Python [float] is an IEEE 754 binary64 number.  A finite one is
    given by its value, a rational number in lowest terms; the two zeros
    are one value here (Python's comparisons do not tell them apart
    either). *)
Inductive float : Type :=
| Fin (q : Q)
| Inf (negative : bool)
| NaN.
Bind Scope Q_scope with float.
Coercion Fin : Q >-> float.

(** [num / den] rounded to the nearest integer, a tie going to the even
    one. *)
Definition round_half_even (num den : Z) : Z :=
  let q := (num / den)%Z in
  let r := (num mod den)%Z in
  match (2 * r ?= den)%Z with
  | Lt => q
  | Gt => (q + 1)%Z
  | Eq => if Z.even q then q else (q + 1)%Z
  end.

(** The binary64 number nearest to a rational, ties to even: 53 bits of
    precision, the least exponent of a quantum [-1074], and infinity from
    [2 ^ 1024] on after rounding.  This is the rounding of [float] applied
    to a string and of the arithmetic on floats. *)
Definition nearest_double (x : Q) : float :=
  let n := Qnum x in
  let d := Zpos (Qden x) in
  if (n =? 0)%Z then Fin 0 else
  let a := Z.abs n in
  let e0 := (Z.log2 a - Z.log2 d)%Z in
  let reached := if (0 <=? e0)%Z then (d * 2 ^ e0 <=? a)%Z else (d <=? a * 2 ^ (- e0))%Z in
  let e := if reached then e0 else (e0 - 1)%Z in
  let p := Z.max (e - 52) (-1074) in
  let m := if (0 <=? p)%Z then round_half_even a (d * 2 ^ p)
           else round_half_even (a * 2 ^ (- p)) d in
  let s := if (n <? 0)%Z then (- m)%Z else m in
  if (0 <=? p)%Z then
    if (2 ^ 1024 <=? m * 2 ^ p)%Z then Inf (n <? 0)%Z else Fin (Qred (inject_Z (s * 2 ^ p)))
  else Fin (Qred (Qmake s (Z.to_pos (2 ^ (- p))))).

(** [a + b] and [a / 2] on floats. *)
Definition fadd (a b : float) : float :=
  match a, b with
  | Fin x, Fin y => nearest_double (x + y)
  | NaN, _ | _, NaN => NaN
  | Inf s, Inf s' => if Bool.eqb s s' then Inf s else NaN
  | Inf s, Fin _ | Fin _, Inf s => Inf s
  end.

Definition half (a : float) : float :=
  match a with
  | Fin x => nearest_double (x / 2)
  | Inf s => Inf s
  | NaN => NaN
  end.

(** Numbers keep the distinction between [int] and [float]: the defaults
    of the parsers are [int] literals, the extracted values are floats. *)
Inductive num : Type :=
| Int (z : Z)
| Float (f : float).

Definition point : Type := num * num.

Inductive value : Type :=
| VNum (n : num)
| VPoint (p : point)
| VPoints (l : list point)
| VStr (s : text)
| VBool (b : bool).

(** The parameter dictionary, [dict[str, Any]]. *)
Abbreviation Params := (gmap string value).

(** The float that an operand of a float operation stands for.  (An
    [int] beyond the range of the floats would raise [OverflowError]; the
    integers of the program are small constants.) *)
Definition as_float (n : num) : float :=
  match n with
  | Int z => nearest_double (inject_Z z)
  | Float f => f
  end.

(** How a number compares with zero; a NaN does not compare. *)
Definition sign (n : num) : option comparison :=
  match n with
  | Int z => Some (z ?= 0)%Z
  | Float (Fin q) => Some (q ?= 0)%Q
  | Float (Inf negative) => Some (if negative then Lt else Gt)
  | Float NaN => None
  end.

(** [x <= 0], [x < 0] and [0 <= x]. *)
Definition le0 (x : num) : bool :=
  match sign x with
  | Some Lt | Some Eq => true
  | _ => false
  end.

Definition lt0 (x : num) : bool :=
  match sign x with
  | Some Lt => true
  | _ => false
  end.

Definition ge0 (x : num) : bool :=
  match sign x with
  | Some Eq | Some Gt => true
  | _ => false
  end.

(** [l[i]] for a non-negative index. *)
Definition index {A : Type} (l : list A) (i : nat) : res A :=
  match l !! i with
  | Some x => Ok x
  | None => Raise IndexError
  end.

(** Truth value of a list, a string and an optional string. *)
Definition nonempty {A : Type} (l : list A) : bool :=
  match l with
  | [] => false
  | _ :: _ => true
  end.

Definition truthy (s : string) : bool := negb (String.eqb s "").

(** [needle in hay] for strings. *)
Fixpoint starts_with (needle hay : text) : bool :=
  match needle, hay with
  | [], _ => true
  | _ :: _, [] => false
  | a :: n', b :: h' => (a =? b) && starts_with n' h'
  end.

Fixpoint contains (needle hay : text) : bool :=
  starts_with needle hay ||
  match hay with
  | [] => false
  | _ :: h' => contains needle h'
  end.

(** *** [float] of a string

    The strings accepted here are an optional sign, then digits with an
    optional point and optional further digits, or a point followed by
    digits; the digits are decimal digits of any script.  CPython's
    [float] accepts more (surrounding white space, an exponent,
    underscores, [inf] and [nan]); these raise [ValueError] here, so a
    conversion that succeeds here succeeds in CPython.  The result is the
    double nearest to the number written, infinite when that number is
    too large. *)

Fixpoint digits_value (s : text) (acc : Z) : Z :=
  match s with
  | [] => acc
  | c :: r => digits_value r (acc * 10 + Unicode.decimal_value c)
  end.

Definition split_sign (s : text) : bool * text :=
  match s with
  | c :: r => if c =? 45 then (true, r) else if c =? 43 then (false, r) else (false, s)
  | [] => (false, [])
  end.

Fixpoint span_digits (s : text) : text * text :=
  match s with
  | c :: r =>
      if Unicode.is_decimal c then
        let '(a, b) := span_digits r in (c :: a, b)
      else ([], s)
  | [] => ([], [])
  end.

Definition decimal_Q (neg : bool) (ip fp : text) : Q :=
  let m := digits_value (ip ++ fp) 0 in
  Qred (Qmake (if neg then - m else m) (Z.to_pos (10 ^ Z.of_nat (length fp)))).

Definition py_float (s : text) : res float :=
  let '(neg, body) := split_sign s in
  let '(ip, rest) := span_digits body in
  match rest with
  | [] => if nonempty ip then Ok (nearest_double (decimal_Q neg ip [])) else Raise ValueError
  | d :: fp =>
      if (d =? 46) && forallb Unicode.is_decimal fp && (nonempty ip || nonempty fp)
      then Ok (nearest_double (decimal_Q neg ip fp))
      else Raise ValueError
  end.

(** [float(m.group(n))]: [float(None)] raises [TypeError]. *)
Definition float_group (m : Regex.Match) (n : nat) : res float :=
  match Regex.group m n with
  | Some s => py_float s
  | None => Raise TypeError
  end.

(** [sorted(l, key=len, reverse=True)]: Python's sort is stable, also
    with [reverse=True], so names of one length keep their order. *)
Fixpoint insert_by_len (x : string) (l : list string) : list string :=
  match l with
  | [] => [x]
  | y :: r =>
      if (length (str x) <? length (str y))%nat then y :: insert_by_len x r
      else x :: y :: r
  end.

Definition sorted_by_len_desc (l : list string) : list string :=
  foldr insert_by_len [] l.

(** ** Keyword tables *)

(** Color name to CAD color index.  A Python [dict] keeps its keys in insertion order; no key
    is repeated in the source. *)
Definition COLOR_MAP : list (string * Z) :=
  [
    ("red", 1%Z); ("yellow", 2%Z); ("green", 3%Z); ("cyan", 4%Z);
    ("blue", 5%Z); ("magenta", 6%Z); ("white", 7%Z); ("gray", 8%Z);
    ("grey", 8%Z); ("black", 250%Z); ("orange", 30%Z); ("brown", 33%Z);
    ("purple", 200%Z); ("pink", 221%Z); ("rosso", 1%Z); ("rossa", 1%Z);
    ("giallo", 2%Z); ("gialla", 2%Z); ("verde", 3%Z); ("ciano", 4%Z);
    ("blu", 5%Z); ("azzurro", 5%Z); ("azzurra", 5%Z); ("bianco", 7%Z);
    ("bianca", 7%Z); ("grigio", 8%Z); ("grigia", 8%Z); ("nero", 250%Z);
    ("nera", 250%Z); ("arancione", 30%Z); ("marrone", 33%Z); ("viola", 200%Z);
    ("rosa", 221%Z); ("红", 1%Z); ("红色", 1%Z); ("黄", 2%Z);
    ("黄色", 2%Z); ("绿", 3%Z); ("绿色", 3%Z); ("青", 4%Z);
    ("青色", 4%Z); ("蓝", 5%Z); ("蓝色", 5%Z); ("洋红", 6%Z);
    ("洋红色", 6%Z); ("紫红", 6%Z); ("白", 7%Z); ("白色", 7%Z);
    ("灰", 8%Z); ("灰色", 8%Z); ("黑", 250%Z); ("黑色", 250%Z);
    ("橙", 30%Z); ("橙色", 30%Z); ("棕", 33%Z); ("棕色", 33%Z);
    ("紫", 200%Z); ("紫色", 200%Z); ("粉", 221%Z); ("粉色", 221%Z);
    ("粉红", 221%Z)
  ].

(** Shape keywords (English, Italian and Chinese).  A Python [dict] keeps its keys in insertion order; no key
    is repeated in the source. *)
Definition SHAPE_KEYWORDS : list (string * string) :=
  [
    ("line", "line"); ("circle", "circle"); ("arc", "arc"); ("ellipse", "ellipse");
    ("rectangle", "rectangle"); ("rect", "rectangle"); ("square", "rectangle"); ("polyline", "polyline");
    ("polygon", "polyline"); ("text", "text"); ("dimension", "dimension"); ("hatch", "hatch");
    ("fill", "hatch"); ("linea", "line"); ("cerchio", "circle"); ("arco", "arc");
    ("ellisse", "ellipse"); ("rettangolo", "rectangle"); ("quadrato", "rectangle"); ("polilinea", "polyline");
    ("poligono", "polyline"); ("testo", "text"); ("quota", "dimension"); ("quotatura", "dimension");
    ("riempimento", "hatch"); ("tratteggio", "hatch"); ("线", "line"); ("直线", "line");
    ("圆", "circle"); ("圆形", "circle"); ("弧", "arc"); ("圆弧", "arc");
    ("椭圆", "ellipse"); ("椭圆形", "ellipse"); ("矩形", "rectangle"); ("方形", "rectangle");
    ("正方形", "rectangle"); ("多段线", "polyline"); ("折线", "polyline"); ("多边形", "polyline");
    ("文字", "text"); ("文本", "text"); ("标注", "dimension"); ("尺寸", "dimension");
    ("填充", "hatch"); ("图案填充", "hatch")
  ].

(** Action keywords (English, Italian and Chinese).  A Python [dict] keeps its keys in insertion order; no key
    is repeated in the source. *)
Definition ACTION_KEYWORDS : list (string * string) :=
  [
    ("draw", "draw"); ("create", "draw"); ("add", "draw"); ("make", "draw");
    ("place", "draw"); ("insert", "draw"); ("modify", "modify"); ("change", "modify");
    ("edit", "modify"); ("move", "move"); ("rotate", "rotate"); ("scale", "scale");
    ("resize", "scale"); ("delete", "erase"); ("remove", "erase"); ("erase", "erase");
    ("save", "save"); ("disegna", "draw"); ("crea", "draw"); ("aggiungi", "draw");
    ("inserisci", "draw"); ("traccia", "draw"); ("modifica", "modify"); ("cambia", "modify");
    ("sposta", "move"); ("ruota", "rotate"); ("scala", "scale"); ("ridimensiona", "scale");
    ("elimina", "erase"); ("cancella", "erase"); ("rimuovi", "erase"); ("salva", "save");
    ("画", "draw"); ("绘制", "draw"); ("创建", "draw"); ("添加", "draw");
    ("制作", "draw"); ("放置", "draw"); ("修改", "modify"); ("更改", "modify");
    ("调整", "modify"); ("移动", "move"); ("旋转", "rotate"); ("缩放", "scale");
    ("删除", "erase"); ("移除", "erase"); ("擦除", "erase"); ("保存", "save")
  ].

(** ** The processor: [class NLPProcessor] *)

Import Regex.

Record ParsedCommand : Type := mkParsedCommand {
  action : string;
  shape : option string;
  parameters : Params;
  raw_text : text;
  confidence : Q
}.

(** The code point of a one-character literal. *)
Definition cp (s : string) : N := hd 0 (str s).

Definition digit : N -> bool := Unicode.is_decimal.
Definition ws : N -> bool := Unicode.is_space.

(** [S = -?\d+\.?\d*], a signed decimal literal *)
Definition signed_number : re :=
  seqs [Opt (Chr (lit (cp "-"))); Plus digit; Opt (Chr (lit (cp "."))); Star digit].

(** [U = \d+\.?\d*], an unsigned decimal literal *)
Definition unsigned_number : re :=
  seqs [Plus digit; Opt (Chr (lit (cp "."))); Star digit].

(** [\s*[=:]?\s*(U)], the tail shared by the keyword patterns. *)
Definition value_tail : list re :=
  [Star ws; Opt (Chr (one_of [cp "="; cp ":"])); Star ws; Grp 1 unsigned_number].

(** [COORD_PATTERN = \(?\s*(S)\s*,\s*(S)\s*\)?] *)
Definition COORD_PATTERN : re :=
  seqs [Opt (Chr (lit (cp "("))); Star ws; Grp 1 signed_number; Star ws;
        Chr (lit (cp ",")); Star ws; Grp 2 signed_number; Star ws;
        Opt (Chr (lit (cp ")")))].

(** [NUMBER_PATTERN = (S)] *)
Definition NUMBER_PATTERN : re := Grp 1 signed_number.

(** The straight double quote (U+0022) and the apostrophe (U+0027). *)
Definition dquote : N := 34.
Definition squote : N := 39.

(** [QUOTED_TEXT_PATTERN]: either straight quote, one or more code points
    that are neither, either straight quote; or a double-quoted span; or a
    span in corner brackets. *)
Definition QUOTED_TEXT_PATTERN : re :=
  alts [seqs [Chr (one_of [dquote; squote]); Grp 1 (Plus (none_of [dquote; squote]));
              Chr (one_of [dquote; squote])];
        seqs [Chr (lit dquote); Grp 2 (Plus (none_of [dquote])); Chr (lit dquote)];
        seqs [Chr (lit (cp "「")); Grp 3 (Plus (none_of [cp "」"])); Chr (lit (cp "」"))]].

(** [_build_color_pattern]: the names sorted by length, longest first,
    joined into one alternation compiled with [re.IGNORECASE].
    [re.escape] leaves the names as they are: none holds a special
    character. *)
Definition _build_color_pattern : re :=
  let colors := sorted_by_len_desc (map fst COLOR_MAP) in
  alts (map (fun c => ilits (str c)) colors).

Definition _color_pattern : re := _build_color_pattern.

(** [COLOR_MAP.get(name)] *)
Definition COLOR_MAP_get (name : text) : option Z :=
  snd <$> find (fun e => bool_decide (str e.1 = name)) COLOR_MAP.

Definition extract_color (t : text) : option Z :=
  match search _color_pattern t with
  | Some m =>
      let color_name := py_lower (m_whole m) in
      COLOR_MAP_get color_name
  | None => None
  end.

Fixpoint coords_of_matches (ms : list Match) : res (list point) :=
  match ms with
  | [] => Ok []
  | m :: r =>
      x <- float_group m 1;;
      y <- float_group m 2;;
      coords <- coords_of_matches r;;
      Ok ((Float x, Float y) :: coords)
  end.

Definition extract_coordinates (t : text) : res (list point) :=
  coords_of_matches (finditer COORD_PATTERN t).

Fixpoint numbers_of_matches (ms : list Match) : res (list num) :=
  match ms with
  | [] => Ok []
  | m :: r =>
      x <- float_group m 1;;
      numbers <- numbers_of_matches r;;
      Ok (Float x :: numbers)
  end.

Definition extract_numbers (t : text) : res (list num) :=
  numbers_of_matches (finditer NUMBER_PATTERN t).

(** [next((g for g in match.groups() if g), None)] *)
Fixpoint first_nonempty (gs : list (option text)) : option text :=
  match gs with
  | [] => None
  | Some (c :: g) :: _ => Some (c :: g)
  | _ :: r => first_nonempty r
  end.

Definition extract_quoted_text (t : text) : option text :=
  match search QUOTED_TEXT_PATTERN t with
  | Some m => first_nonempty [group m 1; group m 2; group m 3]
  | None => None
  end.

(** The loop shared by [identify_action] and [identify_shape]:
    [for keyword, tag in table.items(): if keyword.lower() in text_lower: return tag]. *)
Fixpoint first_keyword (table : list (string * string)) (text_lower : text) : option string :=
  match table with
  | [] => None
  | (keyword, tag) :: rest =>
      if contains (py_lower (str keyword)) text_lower then Some tag
      else first_keyword rest text_lower
  end.

Definition identify_action (t : text) : option string :=
  first_keyword ACTION_KEYWORDS (py_lower t).

Definition identify_shape (t : text) : option string :=
  first_keyword SHAPE_KEYWORDS (py_lower t).

(** *** The parameter parsers *)

Definition origin : point := (Int 0, Int 0).

Definition _parse_generic (t : text) : res Params :=
  coords <- extract_coordinates t;;
  if nonempty coords then Ok (<["points" := VPoints coords]> ∅)
  else Ok ∅.

Definition _parse_line (t : text) : res Params :=
  coords <- extract_coordinates t;;
  if (2 <=? length coords)%nat then
    c0 <- index coords 0;;
    c1 <- index coords 1;;
    Ok (<["end" := VPoint c1]> (<["start" := VPoint c0]> ∅))
  else
    Ok (<["end" := VPoint (Int 100, Int 100)]> (<["start" := VPoint origin]> ∅)).

(** [radius\s*[=:]?\s*(U)] with [re.IGNORECASE] *)
Definition RADIUS_RE : re := seqs (ilits (str "radius") :: value_tail).
(** [半径\s*[=:]?\s*(U)] *)
Definition RADIUS_CN_RE : re := seqs (lits (str "半径") :: value_tail).

Definition _parse_circle (t : text) : res Params :=
  coords <- extract_coordinates t;;
  numbers <- extract_numbers t;;
  center <- (if nonempty coords then index coords 0 else Ok origin);;
  let params : Params := <["center" := VPoint center]> ∅ in
  let radius_match :=
    match search RADIUS_RE t with
    | Some m => Some m
    | None => search RADIUS_CN_RE t
    end in
  match radius_match with
  | Some m =>
      r <- float_group m 1;;
      Ok (<["radius" := VNum (Float r)]> params)
  | None =>
      if nonempty coords && (2 <? length numbers)%nat then
        let coord_numbers := (length coords * 2)%nat in
        let remaining_numbers := drop coord_numbers numbers in
        if nonempty remaining_numbers then
          r <- index remaining_numbers 0;;
          Ok (<["radius" := VNum r]> params)
        else Ok (<["radius" := VNum (Int 50)]> params)
      else if negb (nonempty coords) && nonempty numbers then
        r <- index numbers 0;;
        Ok (<["radius" := VNum r]> params)
      else Ok (<["radius" := VNum (Int 50)]> params)
  end.

(** [start\s*(?:angle)?\s*[=:]?\s*(U)] with [re.IGNORECASE] *)
Definition START_RE : re :=
  seqs (ilits (str "start") :: Star ws :: Opt (ilits (str "angle")) :: value_tail).
(** [end\s*(?:angle)?\s*[=:]?\s*(U)] with [re.IGNORECASE] *)
Definition END_RE : re :=
  seqs (ilits (str "end") :: Star ws :: Opt (ilits (str "angle")) :: value_tail).
(** [起始角\s*[=:]?\s*(U)] *)
Definition START_CN_RE : re := seqs (lits (str "起始角") :: value_tail).
(** [终止角\s*[=:]?\s*(U)] *)
Definition END_CN_RE : re := seqs (lits (str "终止角") :: value_tail).

(** [m = re.search(p, text); if m: params[key] = float(m.group(1))] *)
Definition set_float (p : re) (t : text) (key : string) (params : Params) : res Params :=
  match search p t with
  | Some m =>
      v <- float_group m 1;;
      Ok (<[key := VNum (Float v)]> params)
  | None => Ok params
  end.

Definition _parse_arc (t : text) : res Params :=
  coords <- extract_coordinates t;;
  numbers <- extract_numbers t;;
  center <- (if nonempty coords then index coords 0 else Ok origin);;
  let params : Params :=
    <["end_angle" := VNum (Int 90)]> (<["start_angle" := VNum (Int 0)]>
    (<["radius" := VNum (Int 50)]> (<["center" := VPoint center]> ∅))) in
  params <- set_float RADIUS_RE t "radius" params;;
  params <- set_float START_RE t "start_angle" params;;
  params <- set_float END_RE t "end_angle" params;;
  params <- set_float START_CN_RE t "start_angle" params;;
  params <- set_float END_CN_RE t "end_angle" params;;
  Ok params.

(** [major\s*(?:axis)?\s*[=:]?\s*(U)] with [re.IGNORECASE] *)
Definition MAJOR_RE : re :=
  seqs (ilits (str "major") :: Star ws :: Opt (ilits (str "axis")) :: value_tail).
(** [minor\s*(?:axis)?\s*[=:]?\s*(U)] with [re.IGNORECASE] *)
Definition MINOR_RE : re :=
  seqs (ilits (str "minor") :: Star ws :: Opt (ilits (str "axis")) :: value_tail).
(** [rotation\s*[=:]?\s*(U)] with [re.IGNORECASE] *)
Definition ROTATION_RE : re := seqs (ilits (str "rotation") :: value_tail).

Definition _parse_ellipse (t : text) : res Params :=
  coords <- extract_coordinates t;;
  numbers <- extract_numbers t;;
  center <- (if nonempty coords then index coords 0 else Ok origin);;
  let params : Params :=
    <["rotation" := VNum (Int 0)]> (<["minor_axis" := VNum (Int 50)]>
    (<["major_axis" := VNum (Int 100)]> (<["center" := VPoint center]> ∅))) in
  params <- set_float MAJOR_RE t "major_axis" params;;
  params <- set_float MINOR_RE t "minor_axis" params;;
  params <- set_float ROTATION_RE t "rotation" params;;
  Ok params.

(** [width\s*[=:]?\s*(U)] and [height\s*[=:]?\s*(U)]
    with [re.IGNORECASE]; [宽\s*[=:]?\s*(U)] and
    [高\s*[=:]?\s*(U)] *)
Definition WIDTH_RE : re := seqs (ilits (str "width") :: value_tail).
Definition HEIGHT_RE : re := seqs (ilits (str "height") :: value_tail).
Definition WIDTH_CN_RE : re := seqs (lits (str "宽") :: value_tail).
Definition HEIGHT_CN_RE : re := seqs (lits (str "高") :: value_tail).

(** [m = re.search(p, text); if m: x = float(m.group(1))] *)
Definition get_float (p : re) (t : text) (x : float) : res float :=
  match search p t with
  | Some m => float_group m 1
  | None => Ok x
  end.

Definition _parse_rectangle (t : text) : res Params :=
  coords <- extract_coordinates t;;
  numbers <- extract_numbers t;;
  if (2 <=? length coords)%nat then
    c0 <- index coords 0;;
    c1 <- index coords 1;;
    Ok (<["corner2" := VPoint c1]> (<["corner1" := VPoint c0]> ∅))
  else
    let width : float := 100%Q in
    let height : float := 50%Q in
    width <- get_float WIDTH_RE t width;;
    height <- get_float HEIGHT_RE t height;;
    width <- get_float WIDTH_CN_RE t width;;
    height <- get_float HEIGHT_CN_RE t height;;
    Ok (<["corner2" := VPoint (Float width, Float height)]> (<["corner1" := VPoint origin]> ∅)).

Definition closing_keywords : list string := ["closed"; "close"; "闭合"; "封闭"].

Definition _parse_polyline (t : text) : res Params :=
  coords <- extract_coordinates t;;
  let closed := existsb (fun kw => contains (str kw) (py_lower t)) closing_keywords in
  if (2 <=? length coords)%nat then
    Ok (<["closed" := VBool closed]> (<["points" := VPoints coords]> ∅))
  else
    Ok (<["closed" := VBool closed]>
        (<["points" := VPoints [origin; (Int 50, Int 50); (Int 100, Int 0)]]> ∅)).

(** [高度\s*[=:]?\s*(U)] *)
Definition HEIGHT2_CN_RE : re := seqs (lits (str "高度") :: value_tail).

Definition _parse_text (t : text) : res Params :=
  coords <- extract_coordinates t;;
  let content :=
    match extract_quoted_text t with
    | Some (c :: s) => c :: s
    | _ => str "Text"
    end in
  position <- (if nonempty coords then index coords 0 else Ok origin);;
  let params : Params :=
    <["rotation" := VNum (Int 0)]> (<["height" := VNum (Float (5 # 2))]>
    (<["text" := VStr content]> (<["position" := VPoint position]> ∅))) in
  params <- set_float HEIGHT_RE t "height" params;;
  params <- set_float HEIGHT2_CN_RE t "height" params;;
  params <- set_float ROTATION_RE t "rotation" params;;
  Ok params.

Definition _parse_dimension (t : text) : res Params :=
  coords <- extract_coordinates t;;
  if (2 <=? length coords)%nat then
    c0 <- index coords 0;;
    c1 <- index coords 1;;
    let mid_x := Float (half (fadd (as_float c0.1) (as_float c1.1))) in
    let mid_y := Float (fadd (half (fadd (as_float c0.2) (as_float c1.2))) 10) in
    text_position <-
      (if (length coords <? 3)%nat then Ok (mid_x, mid_y) else index coords 2);;
    Ok (<["text_position" := VPoint text_position]>
        (<["end" := VPoint c1]> (<["start" := VPoint c0]> ∅)))
  else
    Ok (<["text_position" := VPoint (Int 50, Int 10)]>
        (<["end" := VPoint (Int 100, Int 0)]> (<["start" := VPoint origin]> ∅))).

(** [pattern\s*[=:]?\s*(\w+)] and [scale\s*[=:]?\s*(U)], both
    with [re.IGNORECASE] *)
Definition PATTERN_RE : re :=
  seqs [ilits (str "pattern"); Star ws; Opt (Chr (one_of [cp "="; cp ":"])); Star ws;
        Grp 1 (Plus Unicode.is_word)].
Definition SCALE_RE : re := seqs (ilits (str "scale") :: value_tail).

Definition _parse_hatch (t : text) : res Params :=
  coords <- extract_coordinates t;;
  let boundary :=
    if (3 <=? length coords)%nat then coords
    else [origin; (Int 100, Int 0); (Int 100, Int 100); (Int 0, Int 100)] in
  let params : Params :=
    <["pattern_scale" := VNum (Float 1)]> (<["pattern_name" := VStr (str "SOLID")]>
    (<["boundary_points" := VPoints boundary]> ∅)) in
  params <-
    match search PATTERN_RE t with
    | Some m =>
        match group m 1 with
        | Some g => Ok (<["pattern_name" := VStr (py_upper g)]> params)
        | None => Raise AttributeError
        end
    | None => Ok params
    end;;
  params <- set_float SCALE_RE t "pattern_scale" params;;
  Ok params.

(** [(\S+\.dwg)] with [re.IGNORECASE] *)
Definition DWG_RE : re :=
  Grp 1 (seqs [Plus (fun c => negb (ws c)); Chr (lit (cp ".")); ilits (str "dwg")]).

Definition _parse_save (t : text) : res Params :=
  let path := extract_quoted_text t in
  path <-
    match path with
    | Some (c :: s) => Ok (Some (c :: s))
    | _ =>
        match search DWG_RE t with
        | Some m =>
            match group m 1 with
            | Some g => Ok (Some g)
            | None => Ok None
            end
        | None => Ok path
        end
    end;;
  let file_path :=
    match path with
    | Some (c :: s) => c :: s
    | _ => str "drawing.dwg"
    end in
  Ok (<["file_path" := VStr file_path]> ∅).

(** *** Dispatch

    The attributes of the class whose names start with [_parse_]; this is
    what [getattr(self, f"_parse_{shape}", None)] can find. *)
Definition methods : list (string * (text -> res Params)) :=
  [("_parse_generic", _parse_generic); ("_parse_line", _parse_line);
   ("_parse_circle", _parse_circle); ("_parse_arc", _parse_arc);
   ("_parse_ellipse", _parse_ellipse); ("_parse_rectangle", _parse_rectangle);
   ("_parse_polyline", _parse_polyline); ("_parse_text", _parse_text);
   ("_parse_dimension", _parse_dimension); ("_parse_hatch", _parse_hatch);
   ("_parse_save", _parse_save)].

Definition getattr (name : string) : option (text -> res Params) :=
  snd <$> find (fun e => String.eqb e.1 name) methods.

Definition degraded (action : string) (t : text) : ParsedCommand :=
  mkParsedCommand action None ∅ t 0.3.

Definition parse_command (t : text) : res ParsedCommand :=
  let action :=
    match identify_action t with
    | Some a => if truthy a then a else "draw"
    | None => "draw"
    end in
  match identify_shape t with
  | None => Ok (degraded action t)
  | Some shape =>
      if negb (truthy shape) then Ok (degraded action t)
      else
        params <-
          match getattr ("_parse_" +:+ shape) with
          | Some parser_method => parser_method t
          | None => _parse_generic t
          end;;
        let params : Params :=
          match extract_color t with
          | Some color => <["color" := VNum (Int color)]> params
          | None => params
          end in
        Ok (mkParsedCommand action (Some shape) params t
              (if bool_decide (params = ∅) then 0.5%Q else 0.8%Q))
  end.

(** ** Notions used in the statements and proofs

    *** Matcher *)

(** What a pattern does to the captured groups on every successful path:
    [post r R] says that the continuation of [r] is entered with groups
    related by [R] to the groups at the start. *)
Definition post (r : re) (R : caps -> caps -> Prop) : Prop :=
  forall k s c res, run r k s c = Some res ->
    exists s' c', R c c' /\ k s' c' = Some res.

(** A pattern that consumes a prefix [pre] of the text and leaves the
    groups alone, where [pre] satisfies [P]. *)
Definition consumes (r : re) (P : text -> Prop) : Prop :=
  forall k s c res, run r k s c = Some res ->
    exists pre s', s = pre ++ s' /\ P pre /\ k s' c = Some res.

(** A pattern without capturing groups. *)
Fixpoint groupless (r : re) : bool :=
  match r with
  | Eps | Chr _ | Star _ => true
  | Seq a b | Alt a b => groupless a && groupless b
  | Opt a => groupless a
  | Grp _ _ => false
  end.

(** *** Captured numbers *)

(** A string that [float] converts. *)
Definition numeric (v : text) : Prop := exists q, py_float v = Ok q.

(** Group 1 holds a number after a match of a keyword pattern. *)
Definition one_number (c c' : caps) : Prop :=
  exists v, numeric v /\ c' = (1%nat, v) :: c.

(** Groups 1 and 2 hold numbers after a match of [COORD_PATTERN]. *)
Definition two_numbers (c c' : caps) : Prop :=
  exists v1 v2, numeric v1 /\ numeric v2 /\ c' = (2%nat, v2) :: (1%nat, v1) :: c.

(** *** Keyword values and parameter dictionaries *)

(** The value that a keyword pattern finds in a text, if it matches. *)
Definition keyword_value (p : re) (t : text) : option float :=
  match search p t with
  | Some m =>
      match float_group m 1 with
      | Ok q => Some q
      | Raise _ => None
      end
  | None => None
  end.

(** A dictionary that is not empty and has no key [file_path]. *)
Definition good (p : Params) : Prop := p <> ∅ /\ p !! "file_path" = None.

(** *** Keyword lookup *)

(** A surface form occurs in a text: the test [keyword.lower() in text.lower()]. *)
Definition occurs (keyword : string) (t : text) : bool :=
  contains (py_lower (str keyword)) (py_lower t).

(** No surface form of a table occurs in the text. *)
Definition no_entry (table : list (string * string)) (t : text) : bool :=
  forallb (fun e => negb (occurs e.1 t)) table.

(** [tag] belongs to the first entry of the table, in the order of the
    table, whose surface form occurs in the text. *)
Definition first_entry (table : list (string * string)) (t : text) (tag : string) : Prop :=
  exists before keyword after,
    table = before ++ (keyword, tag) :: after /\
    occurs keyword t = true /\ no_entry before t = true.

(** The nine shape tags and the parser registered for each. *)
Definition shape_tags : list string :=
  ["line"; "circle"; "arc"; "ellipse"; "rectangle"; "polyline"; "text"; "dimension"; "hatch"].

(** The action that [parse_command] reports. *)
Definition action_of (t : text) : string :=
  match identify_action t with
  | Some a => if truthy a then a else "draw"
  | None => "draw"
  end.

(** The dictionary after the color has been merged in. *)
Definition with_color (t : text) (p : Params) : Params :=
  match extract_color t with
  | Some color => <["color" := VNum (Int color)]> p
  | None => p
  end.

(** *** Circle *)

(** The keyword patterns whose group 1 is given to [float]. *)
Definition number_patterns : list re :=
  [RADIUS_RE; RADIUS_CN_RE; START_RE; END_RE; START_CN_RE; END_CN_RE; MAJOR_RE; MINOR_RE;
   ROTATION_RE; WIDTH_RE; HEIGHT_RE; WIDTH_CN_RE; HEIGHT_CN_RE; HEIGHT2_CN_RE; SCALE_RE].

(** The fallback chain of the radius, as the specification words it. *)
Definition circle_radius (t : text) (coords : list point) (numbers : list num) : num :=
  match keyword_value RADIUS_RE t with
  | Some q => Float q
  | None =>
      match keyword_value RADIUS_CN_RE t with
      | Some q => Float q
      | None =>
          match coords, drop (2 * length coords) numbers, numbers with
          | _ :: _, leftover :: _, _ => leftover
          | [], _, first :: _ => first
          | _, _, _ => Int 50
          end
      end
  end.

(** *** Arc *)

(** An angle of the arc: the value of the Chinese keyword if it matches,
    else the value of the English keyword, else the default. *)
Definition arc_angle (en cn : re) (default : Z) (t : text) : num :=
  match keyword_value cn t with
  | Some q => Float q
  | None =>
      match keyword_value en t with
      | Some q => Float q
      | None => Int default
      end
  end.

(** The value that [parse_command] reports under a key. *)
Definition reported (t : text) (key : string) : option value :=
  match parse_command t with
  | Ok pc => parameters pc !! key
  | Raise _ => None
  end.

(** *** Quoted text *)

(** The code points that can start a match of [QUOTED_TEXT_PATTERN]. *)
Definition opener (x : N) : bool := one_of [dquote; squote; cp "「"] x.

(** The straight quotes. *)
Definition straight (x : N) : bool := one_of [dquote; squote] x.

(** The three styles read one by one, in the order the specification
    words them:
    the first span in double quotes, else the first in single quotes,
    else the first in corner brackets. *)
Definition span_of (o c : N) (t : text) : option text :=
  match search (seqs [Chr (lit o); Grp 1 (Plus (none_of [c])); Chr (lit c)]) t with
  | Some m => group m 1
  | None => None
  end.

Definition quoted_by_priority (t : text) : option text :=
  match span_of dquote dquote t with
  | Some s => Some s
  | None =>
      match span_of squote squote t with
      | Some s => Some s
      | None => span_of (cp "「") (cp "」") t
      end
  end.

(** *** Colors *)








(** The names before [x] in a list. *)
Fixpoint before (x : string) (l : list string) : list string :=
  match l with
  | [] => []
  | y :: r => if String.eqb y x then [] else y :: before x r
  end.



(** *** Keywords that can win the lookup *)

(** An earlier entry of the table is a substring of the keyword: wherever
    the keyword occurs, that entry occurs too and is found first. *)
Definition shadowed (earlier : list (string * string)) (keyword : string) : bool :=
  existsb (fun e => contains (py_lower (str e.1)) (py_lower (str keyword))) earlier.

(** The entries of a table that no earlier entry shadows. *)
Fixpoint live_from (earlier table : list (string * string)) : list (string * string) :=
  match table with
  | [] => []
  | e :: rest =>
      (if shadowed earlier e.1 then [] else [e]) ++ live_from (earlier ++ [e]) rest
  end.

Definition live (table : list (string * string)) : list (string * string) :=
  live_from [] table.

(** *** Keys of the parameter dictionaries *)

(** The keys that the parser of a shape writes. *)
Definition shape_keys (tag : string) : gset string :=
  if String.eqb tag "line" then {["start"; "end"]}
  else if String.eqb tag "circle" then {["center"; "radius"]}
  else if String.eqb tag "arc" then {["center"; "radius"; "start_angle"; "end_angle"]}
  else if String.eqb tag "ellipse" then {["center"; "major_axis"; "minor_axis"; "rotation"]}
  else if String.eqb tag "rectangle" then {["corner1"; "corner2"]}
  else if String.eqb tag "polyline" then {["points"; "closed"]}
  else if String.eqb tag "text" then {["position"; "text"; "height"; "rotation"]}
  else if String.eqb tag "dimension" then {["start"; "end"; "text_position"]}
  else if String.eqb tag "hatch" then {["boundary_points"; "pattern_name"; "pattern_scale"]}
  else ∅.

(** *** What a match consumes and captures *)

(** [full r R]: on every successful path of [r] the continuation is
    entered after a prefix [pre] of the text has been consumed, with groups
    [c'], where [R pre c c'] relates them to the groups [c] at the start. *)
Definition full (r : re) (R : text -> caps -> caps -> Prop) : Prop :=
  forall k s c res, run r k s c = Some res ->
    exists pre s' c', s = pre ++ s' /\ R pre c c' /\ k s' c' = Some res.

(** *** What the drawing methods expect of a parameter dictionary *)

(** The kinds of values that the parsers store. *)
Inductive kind : Type :=
| KPoint                     (* a pair of numbers *)
| KPoints (least : nat)      (* a list of at least [least] pairs *)
| KNum (nonnegative : bool)  (* a number, possibly required to be [>= 0] *)
| KStr                       (* a string that is not empty *)
| KBool.

Definition has_kind (k : kind) (v : value) : bool :=
  match k, v with
  | KPoint, VPoint _ => true
  | KPoints least, VPoints l => (least <=? length l)%nat
  | KNum nonnegative, VNum n => if nonnegative then ge0 n else true
  | KStr, VStr s => nonempty s
  | KBool, VBool _ => true
  | _, _ => false
  end.

(** For each shape, the keys that its drawing method reads and the kind
    of value it is written for. *)
Definition signature (tag : string) : list (string * kind) :=
  if String.eqb tag "line" then [("start", KPoint); ("end", KPoint)]
  else if String.eqb tag "circle" then [("center", KPoint); ("radius", KNum false)]
  else if String.eqb tag "arc" then
    [("center", KPoint); ("radius", KNum true);
     ("start_angle", KNum true); ("end_angle", KNum true)]
  else if String.eqb tag "ellipse" then
    [("center", KPoint); ("major_axis", KNum true);
     ("minor_axis", KNum true); ("rotation", KNum true)]
  else if String.eqb tag "rectangle" then [("corner1", KPoint); ("corner2", KPoint)]
  else if String.eqb tag "polyline" then [("points", KPoints 2); ("closed", KBool)]
  else if String.eqb tag "text" then
    [("position", KPoint); ("text", KStr); ("height", KNum true); ("rotation", KNum true)]
  else if String.eqb tag "dimension" then
    [("start", KPoint); ("end", KPoint); ("text_position", KPoint)]
  else if String.eqb tag "hatch" then
    [("boundary_points", KPoints 3); ("pattern_name", KStr); ("pattern_scale", KNum true)]
  else [].

Definition meets (p : Params) (e : string * kind) : bool :=
  match p !! e.1 with
  | Some v => has_kind e.2 v
  | None => false
  end.

Definition well_formed (tag : string) (p : Params) : bool :=
  forallb (meets p) (signature tag).

(** The color, when there is one, is an index of the color table. *)
Definition color_in_table (p : Params) : bool :=
  match p !! "color" with
  | Some (VNum (Int c)) => existsb (fun e => (e.2 =? c)%Z) COLOR_MAP
  | Some _ => false
  | None => true
  end.

(** A key of the signature that a keyword pattern may overwrite holds a
    non-negative number. *)
Definition float_slot (tag key : string) : bool :=
  forallb (fun e => negb (String.eqb e.1 key) ||
                    match e.2 with KNum _ => true | _ => false end) (signature tag).

(** A string that [float] converts to a number that is not negative. *)
Definition nonneg_numeric (v : text) : Prop := exists q, py_float v = Ok q /\ ge0 (Float q) = true.

(** Group 1 holds such a string after a match of a keyword pattern. *)
Definition one_nonneg (c c' : caps) : Prop :=
  exists v, nonneg_numeric v /\ c' = (1%nat, v) :: c.

(** ** The service layer

    [src/autocad_mcp/server.py]: the drawing methods of [CADService], which
    check their arguments, connect to the CAD application and record what
    was drawn, and [process_natural_language], which hands a parsed command
    to them.

    The CAD application is reached through COM by [CADController].  Here it
    is a state of some type [World] and the controller is any triple of
    state transformers: what the methods of the service do is fixed by the
    source, what the application answers is not.  The methods are modelled
    at the types of their annotations. *)

(** A value in a result dictionary. *)
#[local] Unset Elimination Schemes.
Inductive field : Type :=
| FStr (s : text)
| FNum (n : num)
| FDict (entries : list (string * field)).
#[local] Set Elimination Schemes.

(** A result dictionary: every one built by the service or the controller
    has the entry ["success"], a [bool]; [body] holds the other entries. *)
Record Reply : Type := mkReply {
  success : bool;
  body : list (string * field)
}.

(** The calls that the service makes to draw or save. *)
Inductive request : Type :=
| DrawLine (start_pt end_pt : list num) (layer : option text) (color lineweight : option Z)
| DrawCircle (center : list num) (radius : num) (layer : option text) (color lineweight : option Z)
| DrawArc (center : list num) (radius start_angle end_angle : num)
    (layer : option text) (color lineweight : option Z)
| DrawEllipse (center : list num) (major_axis minor_axis rotation : num)
    (layer : option text) (color lineweight : option Z)
| DrawPolyline (points : list (list num)) (closed : bool)
    (layer : option text) (color lineweight : option Z)
| DrawRectangle (corner1 corner2 : list num) (layer : option text) (color lineweight : option Z)
| DrawText (position : list num) (content : text) (height rotation : num)
    (layer : option text) (color : option Z)
| DrawHatch (boundary_points : list (list num)) (pattern_name : text) (pattern_scale : num)
    (layer : option text) (color : option Z)
| AddDimension (start_pt end_pt text_position : list num) (layer : option text) (color : option Z)
| SaveDrawing (file_path : text).

(** [CADController]: [is_running], [start], and the drawing and saving
    methods, each of which returns a result dictionary. *)
Record CADController (World : Type) : Type := mkController {
  is_running : World -> bool * World;
  start : World -> bool * World;
  perform : request -> World -> Reply * World
}.
Arguments is_running {World} _ _.
Arguments start {World} _ _.
Arguments perform {World} _ _ _.

Record DrawingState : Type := mkDrawingState {
  entities : list Reply;
  current_layer : text;
  last_command : text;
  last_result : text
}.

(** [{"success": False, "error": message}] *)
Definition refusal (message : text) : Reply := mkReply false [("error", FStr message)].

(** [color is not None and (color < 0 or color > 255)] *)
Definition bad_color (color : option Z) : bool :=
  match color with
  | Some c => (c <? 0)%Z || (255 <? c)%Z
  | None => false
  end.

(** The index of the first point with fewer than two coordinates. *)
Fixpoint short_point (points : list (list num)) (i : nat) : option nat :=
  match points with
  | [] => None
  | pt :: rest => if (length pt <? 2)%nat then Some i else short_point rest (S i)
  end.

(** [str.strip] with no argument. *)
Definition py_strip (s : text) : text :=
  let drop_space := fix go (s : text) : text :=
    match s with
    | c :: r => if Unicode.is_space c then go r else s
    | [] => []
    end in
  rev (drop_space (rev (drop_space s))).

Section Service.

Variable World : Type.
Variable controller : CADController World.

(** [repr] of a number, as an f-string writes it. *)
Variable repr : num -> text.

Record CADService : Type := mkCADService {
  state : DrawingState;
  _initialized : bool;
  cad : World
}.

Definition with_cad (s : CADService) (w : World) : CADService :=
  mkCADService (state s) (_initialized s) w.

(** [repr] of a list of numbers. *)
Definition repr_list (l : list num) : text :=
  str "[" ++
  (fix join (l : list num) : text :=
     match l with
     | [] => []
     | [x] => repr x
     | x :: r => repr x ++ str ", " ++ join r
     end) l ++
  str "]".

Definition repr_bool (b : bool) : text := if b then str "True" else str "False".

Definition ensure_initialized (s : CADService) : bool * CADService :=
  let '(running, s) :=
    if _initialized s then
      let '(r, w) := is_running controller (cad s) in (r, with_cad s w)
    else (false, s) in
  if running then (true, s)
  else
    let '(started, w) := start controller (cad s) in
    if started then (true, mkCADService (state s) true w)
    else (false, with_cad s w).

(** The common end of the drawing methods: the call to the controller
    and, when it succeeds, the update of the drawing state. *)
Definition record (keep : bool) (req : request) (command : text) (s : CADService) :
    Reply * CADService :=
  let '(result, w) := perform controller req (cad s) in
  if success result then
    (result,
     mkCADService
       (mkDrawingState
          (if keep then entities (state s) ++ [result] else entities (state s))
          (current_layer (state s)) command (str "success"))
       (_initialized s) w)
  else (result, with_cad s w).

(** The part of a drawing method after the checks of the geometry. *)
Definition connect_and_draw (color : option Z) (req : request) (command : text)
    (s : CADService) : Reply * CADService :=
  let '(ready, s) := ensure_initialized s in
  if negb ready then (refusal (str "CAD not initialized"), s)
  else if bad_color color then (refusal (str "Color must be between 0 and 255"), s)
  else record true req command s.

Definition draw_line (start_pt end_pt : list num) (layer : option text)
    (color lineweight : option Z) (s : CADService) : Reply * CADService :=
  if (length start_pt <? 2)%nat || (length end_pt <? 2)%nat then
    (refusal (str "Coordinates must have at least 2 values"), s)
  else
    connect_and_draw color (DrawLine start_pt end_pt layer color lineweight)
      (str "draw_line(" ++ repr_list start_pt ++ str ", " ++ repr_list end_pt ++ str ")") s.

Definition draw_circle (center : list num) (radius : num) (layer : option text)
    (color lineweight : option Z) (s : CADService) : Reply * CADService :=
  if (length center <? 2)%nat then
    (refusal (str "Center must have at least 2 coordinates"), s)
  else if le0 radius then (refusal (str "Radius must be positive"), s)
  else
    connect_and_draw color (DrawCircle center radius layer color lineweight)
      (str "draw_circle(" ++ repr_list center ++ str ", " ++ repr radius ++ str ")") s.

Definition draw_arc (center : list num) (radius start_angle end_angle : num)
    (layer : option text) (color lineweight : option Z) (s : CADService) :
    Reply * CADService :=
  if (length center <? 2)%nat then
    (refusal (str "Center must have at least 2 coordinates"), s)
  else if le0 radius then (refusal (str "Radius must be positive"), s)
  else
    connect_and_draw color
      (DrawArc center radius start_angle end_angle layer color lineweight)
      (str "draw_arc(" ++ repr_list center ++ str ", " ++ repr radius ++ str ", " ++
       repr start_angle ++ str ", " ++ repr end_angle ++ str ")") s.

Definition draw_ellipse (center : list num) (major_axis minor_axis rotation : num)
    (layer : option text) (color lineweight : option Z) (s : CADService) :
    Reply * CADService :=
  if (length center <? 2)%nat then
    (refusal (str "Center must have at least 2 coordinates"), s)
  else if le0 major_axis then (refusal (str "Major axis must be positive"), s)
  else if lt0 minor_axis then (refusal (str "Minor axis must be non-negative"), s)
  else
    connect_and_draw color
      (DrawEllipse center major_axis minor_axis rotation layer color lineweight)
      (str "draw_ellipse(" ++ repr_list center ++ str ", " ++ repr major_axis ++ str ", " ++
       repr minor_axis ++ str ")") s.

Definition point_message (i : nat) : text :=
  str "Point " ++ repr (Int (Z.of_nat i)) ++ str " must have at least 2 coordinates".

Definition draw_polyline (points : list (list num)) (closed : bool) (layer : option text)
    (color lineweight : option Z) (s : CADService) : Reply * CADService :=
  if (length points <? 2)%nat then
    (refusal (str "Polyline requires at least 2 points"), s)
  else
    match short_point points 0 with
    | Some i => (refusal (point_message i), s)
    | None =>
        connect_and_draw color (DrawPolyline points closed layer color lineweight)
          (str "draw_polyline(" ++ repr (Int (Z.of_nat (length points))) ++
           str " points, closed=" ++ repr_bool closed ++ str ")") s
    end.

Definition draw_rectangle (corner1 corner2 : list num) (layer : option text)
    (color lineweight : option Z) (s : CADService) : Reply * CADService :=
  if (length corner1 <? 2)%nat || (length corner2 <? 2)%nat then
    (refusal (str "Corners must have at least 2 coordinates"), s)
  else
    connect_and_draw color (DrawRectangle corner1 corner2 layer color lineweight)
      (str "draw_rectangle(" ++ repr_list corner1 ++ str ", " ++ repr_list corner2 ++ str ")") s.

Definition draw_text (position : list num) (content : text) (height rotation : num)
    (layer : option text) (color : option Z) (s : CADService) : Reply * CADService :=
  if (length position <? 2)%nat then
    (refusal (str "Position must have at least 2 coordinates"), s)
  else if negb (nonempty content) then (refusal (str "Text cannot be empty"), s)
  else if le0 height then (refusal (str "Height must be positive"), s)
  else
    connect_and_draw color (DrawText position content height rotation layer color)
      (str "draw_text('" ++ content ++ str "')") s.

Definition draw_hatch (boundary_points : list (list num)) (pattern_name : text)
    (pattern_scale : num) (layer : option text) (color : option Z) (s : CADService) :
    Reply * CADService :=
  if (length boundary_points <? 3)%nat then
    (refusal (str "Hatch requires at least 3 boundary points"), s)
  else
    match short_point boundary_points 0 with
    | Some i => (refusal (point_message i), s)
    | None =>
        if negb (nonempty pattern_name) then (refusal (str "Pattern name cannot be empty"), s)
        else if le0 pattern_scale then (refusal (str "Pattern scale must be positive"), s)
        else
          connect_and_draw color
            (DrawHatch boundary_points pattern_name pattern_scale layer color)
            (str "draw_hatch(pattern=" ++ pattern_name ++ str ")") s
    end.

Definition add_dimension (start_pt end_pt text_position : list num) (layer : option text)
    (color : option Z) (s : CADService) : Reply * CADService :=
  if (length start_pt <? 2)%nat || (length end_pt <? 2)%nat || (length text_position <? 2)%nat
  then (refusal (str "All points must have at least 2 coordinates"), s)
  else
    connect_and_draw color (AddDimension start_pt end_pt text_position layer color)
      (str "add_dimension(" ++ repr_list start_pt ++ str ", " ++ repr_list end_pt ++ str ")") s.

Definition save_drawing (file_path : text) (s : CADService) : Reply * CADService :=
  if negb (nonempty file_path) then (refusal (str "File path cannot be empty"), s)
  else if negb (nonempty (py_strip file_path)) then
    (refusal (str "File path cannot be whitespace"), s)
  else
    let '(ready, s) := ensure_initialized s in
    if negb ready then (refusal (str "CAD not initialized"), s)
    else record false (SaveDrawing file_path)
           (str "save_drawing('" ++ file_path ++ str "')") s.

(** *** From the parsed parameters to the arguments

    [params.get(key, default)] followed by the conversion that the handler
    applies.  A value of another kind than the annotation of the argument
    is reported as [TypeError]; the parsers store no such value. *)

Definition get_point (params : Params) (key : string) (default : list num) : res (list num) :=
  match params !! key with
  | None => Ok default
  | Some (VPoint p) => Ok [p.1; p.2]
  | Some _ => Raise TypeError
  end.

Definition get_points (params : Params) (key : string) (default : list (list num)) :
    res (list (list num)) :=
  match params !! key with
  | None => Ok default
  | Some (VPoints l) => Ok (map (fun p : point => [p.1; p.2]) l)
  | Some _ => Raise TypeError
  end.

Definition get_num (params : Params) (key : string) (default : num) : res num :=
  match params !! key with
  | None => Ok default
  | Some (VNum n) => Ok n
  | Some _ => Raise TypeError
  end.

Definition get_str (params : Params) (key : string) (default : text) : res text :=
  match params !! key with
  | None => Ok default
  | Some (VStr s) => Ok s
  | Some _ => Raise TypeError
  end.

Definition get_bool (params : Params) (key : string) (default : bool) : res bool :=
  match params !! key with
  | None => Ok default
  | Some (VBool b) => Ok b
  | Some _ => Raise TypeError
  end.

(** [params.get("color")] *)
Definition get_color (params : Params) : res (option Z) :=
  match params !! "color" with
  | None => Ok None
  | Some (VNum (Int c)) => Ok (Some c)
  | Some _ => Raise TypeError
  end.

Definition _execute_line (params : Params) (s : CADService) : res (Reply * CADService) :=
  start_pt <- get_point params "start" [Int 0; Int 0];;
  end_pt <- get_point params "end" [Int 100; Int 100];;
  color <- get_color params;;
  Ok (draw_line start_pt end_pt None color None s).

Definition _execute_circle (params : Params) (s : CADService) : res (Reply * CADService) :=
  center <- get_point params "center" [Int 0; Int 0];;
  radius <- get_num params "radius" (Int 50);;
  color <- get_color params;;
  Ok (draw_circle center radius None color None s).

Definition _execute_arc (params : Params) (s : CADService) : res (Reply * CADService) :=
  center <- get_point params "center" [Int 0; Int 0];;
  radius <- get_num params "radius" (Int 50);;
  start_angle <- get_num params "start_angle" (Int 0);;
  end_angle <- get_num params "end_angle" (Int 90);;
  color <- get_color params;;
  Ok (draw_arc center radius start_angle end_angle None color None s).

Definition _execute_ellipse (params : Params) (s : CADService) : res (Reply * CADService) :=
  center <- get_point params "center" [Int 0; Int 0];;
  major_axis <- get_num params "major_axis" (Int 100);;
  minor_axis <- get_num params "minor_axis" (Int 50);;
  rotation <- get_num params "rotation" (Int 0);;
  color <- get_color params;;
  Ok (draw_ellipse center major_axis minor_axis rotation None color None s).

Definition _execute_rectangle (params : Params) (s : CADService) : res (Reply * CADService) :=
  corner1 <- get_point params "corner1" [Int 0; Int 0];;
  corner2 <- get_point params "corner2" [Int 100; Int 100];;
  color <- get_color params;;
  Ok (draw_rectangle corner1 corner2 None color None s).

Definition _execute_polyline (params : Params) (s : CADService) : res (Reply * CADService) :=
  points <- get_points params "points" [[Int 0; Int 0]; [Int 50; Int 50]; [Int 100; Int 0]];;
  closed <- get_bool params "closed" false;;
  color <- get_color params;;
  Ok (draw_polyline points closed None color None s).

Definition _execute_text (params : Params) (s : CADService) : res (Reply * CADService) :=
  position <- get_point params "position" [Int 0; Int 0];;
  content <- get_str params "text" (str "Text");;
  height <- get_num params "height" (Float (5 # 2));;
  rotation <- get_num params "rotation" (Int 0);;
  color <- get_color params;;
  Ok (draw_text position content height rotation None color s).

Definition _execute_hatch (params : Params) (s : CADService) : res (Reply * CADService) :=
  points <- get_points params "boundary_points"
              [[Int 0; Int 0]; [Int 100; Int 0]; [Int 100; Int 100]; [Int 0; Int 100]];;
  pattern_name <- get_str params "pattern_name" (str "SOLID");;
  pattern_scale <- get_num params "pattern_scale" (Float 1);;
  color <- get_color params;;
  Ok (draw_hatch points pattern_name pattern_scale None color s).

Definition _execute_dimension (params : Params) (s : CADService) : res (Reply * CADService) :=
  start_pt <- get_point params "start" [Int 0; Int 0];;
  end_pt <- get_point params "end" [Int 100; Int 0];;
  text_position <- get_point params "text_position" [Int 50; Int 10];;
  color <- get_color params;;
  Ok (add_dimension start_pt end_pt text_position None color s).

Definition method_map : list (string * (Params -> CADService -> res (Reply * CADService))) :=
  [("line", _execute_line); ("circle", _execute_circle); ("arc", _execute_arc);
   ("ellipse", _execute_ellipse); ("rectangle", _execute_rectangle);
   ("polyline", _execute_polyline); ("text", _execute_text); ("hatch", _execute_hatch);
   ("dimension", _execute_dimension)].

Definition set_last_command (s : CADService) (command : text) : CADService :=
  mkCADService
    (mkDrawingState (entities (state s)) (current_layer (state s)) command
       (last_result (state s)))
    (_initialized s) (cad s).

(** The answer to a command in which no shape is recognised. *)
Definition not_understood (command : text) (parsed : ParsedCommand) : Reply :=
  mkReply false
    [("error", FStr (str "Could not understand command: " ++ command));
     ("parsed", FDict [("action", FStr (str (action parsed)));
                       ("confidence", FNum (Float (nearest_double (confidence parsed))))])].

Definition process_natural_language (command : text) (s : CADService) :
    res (Reply * CADService) :=
  parsed <- parse_command command;;
  let s := set_last_command s command in
  match shape parsed with
  | None => Ok (not_understood command parsed, s)
  | Some tag =>
      if negb (truthy tag) then Ok (not_understood command parsed, s)
      else
        match snd <$> find (fun e => String.eqb e.1 tag) method_map with
        | Some handler => handler (parameters parsed) s
        | None => Ok (refusal (str "Unsupported shape: " ++ str tag), s)
        end
  end.

End Service.

Arguments state {World} _.
Arguments _initialized {World} _.
Arguments cad {World} _.
Arguments mkCADService {World} _ _ _.

(** *** The tools

    The calls that [handle_tool_call] passes on to the service, with the
    defaults it fills in.  The JSON of the arguments and of the result is
    left out. *)

Inductive tool : Type :=
| ToolLine (start_pt end_pt : list num) (layer : option text) (color lineweight : option Z)
| ToolCircle (center : list num) (radius : num) (layer : option text) (color lineweight : option Z)
| ToolArc (center : list num) (radius start_angle end_angle : num)
    (layer : option text) (color lineweight : option Z)
| ToolEllipse (center : list num) (major_axis minor_axis : num) (rotation : option num)
    (layer : option text) (color lineweight : option Z)
| ToolPolyline (points : list (list num)) (closed : option bool)
    (layer : option text) (color lineweight : option Z)
| ToolRectangle (corner1 corner2 : list num) (layer : option text) (color lineweight : option Z)
| ToolText (position : list num) (content : text) (height rotation : option num)
    (layer : option text) (color : option Z)
| ToolHatch (boundary_points : list (list num)) (pattern_name : option text)
    (pattern_scale : option num) (layer : option text) (color : option Z)
| ToolDimension (start_pt end_pt text_position : list num) (layer : option text)
    (color : option Z)
| ToolSave (file_path : text)
| ToolCommand (command : text)
| ToolOther (name : text).

Section Tools.

Variable World : Type.
Variable controller : CADController World.
Variable repr : num -> text.

(** The body of the [try] of [handle_tool_call]. *)
Definition call_tool (c : tool) (s : CADService World) : res (Reply * CADService World) :=
  match c with
  | ToolLine start_pt end_pt layer color lineweight =>
      Ok (draw_line World controller repr start_pt end_pt layer color lineweight s)
  | ToolCircle center radius layer color lineweight =>
      Ok (draw_circle World controller repr center radius layer color lineweight s)
  | ToolArc center radius start_angle end_angle layer color lineweight =>
      Ok (draw_arc World controller repr center radius start_angle end_angle
            layer color lineweight s)
  | ToolEllipse center major_axis minor_axis rotation layer color lineweight =>
      Ok (draw_ellipse World controller repr center major_axis minor_axis
            (default (Int 0) rotation) layer color lineweight s)
  | ToolPolyline points closed layer color lineweight =>
      Ok (draw_polyline World controller repr points (default false closed)
            layer color lineweight s)
  | ToolRectangle corner1 corner2 layer color lineweight =>
      Ok (draw_rectangle World controller repr corner1 corner2 layer color lineweight s)
  | ToolText position content height rotation layer color =>
      Ok (draw_text World controller position content (default (Float (5 # 2)) height)
            (default (Int 0) rotation) layer color s)
  | ToolHatch boundary_points pattern_name pattern_scale layer color =>
      Ok (draw_hatch World controller repr boundary_points
            (default (str "SOLID") pattern_name) (default (Float 1) pattern_scale)
            layer color s)
  | ToolDimension start_pt end_pt text_position layer color =>
      Ok (add_dimension World controller repr start_pt end_pt text_position layer color s)
  | ToolSave file_path => Ok (save_drawing World controller file_path s)
  | ToolCommand command => process_natural_language World controller repr command s
  | ToolOther name => Ok (refusal (str "Unknown tool: " ++ name), s)
  end.

(** A session: the calls are served one after the other by the same
    service object. *)
Fixpoint serve (calls : list tool) (s : CADService World) :
    res (list Reply * CADService World) :=
  match calls with
  | [] => Ok ([], s)
  | c :: rest =>
      first <- call_tool c s;;
      others <- serve rest first.2;;
      Ok (first.1 :: others.1, others.2)
  end.

End Tools.

(** [CADService.__init__]: an empty drawing, no connection yet. *)
Definition fresh {World : Type} (w : World) : CADService World :=
  mkCADService (mkDrawingState [] (str "0") [] []) false w.

(** A tool that draws, as opposed to saving. *)
Definition draws (c : tool) : bool :=
  match c with
  | ToolSave _ | ToolOther _ => false
  | _ => true
  end.

(** The successful answers to the drawing calls of a session, in order. *)
Fixpoint drawn (calls : list tool) (replies : list Reply) : list Reply :=
  match calls, replies with
  | c :: calls, r :: replies =>
      (if draws c && success r then [r] else []) ++ drawn calls replies
  | _, _ => []
  end.

(** *** Requests in good order *)

Definition two_coordinates (pt : list num) : bool := (2 <=? length pt)%nat.

(** The request passes every check that the service makes before it
    calls the controller. *)
Definition well_posed (req : request) : bool :=
  match req with
  | DrawLine start_pt end_pt _ color _ =>
      two_coordinates start_pt && two_coordinates end_pt && negb (bad_color color)
  | DrawCircle center radius _ color _ =>
      two_coordinates center && negb (le0 radius) && negb (bad_color color)
  | DrawArc center radius _ _ _ color _ =>
      two_coordinates center && negb (le0 radius) && negb (bad_color color)
  | DrawEllipse center major_axis minor_axis _ _ color _ =>
      two_coordinates center && negb (le0 major_axis) && negb (lt0 minor_axis) &&
      negb (bad_color color)
  | DrawPolyline points _ _ color _ =>
      (2 <=? length points)%nat && forallb two_coordinates points && negb (bad_color color)
  | DrawRectangle corner1 corner2 _ color _ =>
      two_coordinates corner1 && two_coordinates corner2 && negb (bad_color color)
  | DrawText position content height _ _ color =>
      two_coordinates position && nonempty content && negb (le0 height) &&
      negb (bad_color color)
  | DrawHatch boundary_points pattern_name pattern_scale _ color =>
      (3 <=? length boundary_points)%nat && forallb two_coordinates boundary_points &&
      nonempty pattern_name && negb (le0 pattern_scale) && negb (bad_color color)
  | AddDimension start_pt end_pt text_position _ color =>
      two_coordinates start_pt && two_coordinates end_pt && two_coordinates text_position &&
      negb (bad_color color)
  | SaveDrawing file_path => nonempty (py_strip file_path)
  end.

(** *** The checks of the controller, [cad_controller.py] *)

Definition _ensure_3d_point (point : list num) : res (num * num * num) :=
  match point with
  | [x; y] => Ok (x, y, Float 0)
  | x :: y :: z :: _ => Ok (x, y, z)
  | _ => Raise ValueError
  end.

Definition converts (point : list num) : bool :=
  match _ensure_3d_point point with
  | Ok _ => true
  | Raise _ => false
  end.

(** [CADController.draw_polyline] gets past its checks: at least two
    points, each of which [_ensure_3d_point] converts. *)
Definition polyline_accepted (points : list (list num)) : bool :=
  negb (length points <? 2)%nat && forallb converts points.

(** The four corners that [CADController.draw_rectangle] hands to
    [draw_polyline]. *)
Definition rectangle_corners (c1 c2 : num * num * num) : list (list num) :=
  let '(x1, y1, z1) := c1 in
  let '(x2, y2, z2) := c2 in
  [[x1; y1; z1]; [x2; y1; z1]; [x2; y2; z2]; [x1; y2; z2]].

(** The method of the controller reaches its COM call: no argument is
    turned down and [_ensure_3d_point] raises nothing. *)
Definition controller_accepts (req : request) : bool :=
  match req with
  | DrawLine start_pt end_pt _ _ _ => converts start_pt && converts end_pt
  | DrawCircle center _ _ _ _ => converts center
  | DrawArc center _ _ _ _ _ _ => converts center
  | DrawEllipse center major_axis minor_axis _ _ _ _ =>
      converts center && negb (le0 major_axis) && negb (lt0 minor_axis)
  | DrawPolyline points _ _ _ _ => polyline_accepted points
  | DrawRectangle corner1 corner2 _ _ _ =>
      match _ensure_3d_point corner1, _ensure_3d_point corner2 with
      | Ok c1, Ok c2 => polyline_accepted (rectangle_corners c1 c2)
      | _, _ => false
      end
  | DrawText position _ _ _ _ _ => converts position
  | DrawHatch boundary_points _ _ _ _ =>
      negb (length boundary_points <? 3)%nat && polyline_accepted boundary_points
  | AddDimension start_pt end_pt text_position _ _ =>
      converts start_pt && converts end_pt && converts text_position
  | SaveDrawing _ => true
  end.

(** *** Commands in natural language *)

(** The shape that a request draws. *)
Definition request_shape (req : request) : string :=
  match req with
  | DrawLine _ _ _ _ _ => "line"
  | DrawCircle _ _ _ _ _ => "circle"
  | DrawArc _ _ _ _ _ _ _ => "arc"
  | DrawEllipse _ _ _ _ _ _ _ => "ellipse"
  | DrawPolyline _ _ _ _ _ => "polyline"
  | DrawRectangle _ _ _ _ _ => "rectangle"
  | DrawText _ _ _ _ _ _ => "text"
  | DrawHatch _ _ _ _ _ => "hatch"
  | AddDimension _ _ _ _ _ => "dimension"
  | SaveDrawing _ => "save"
  end.

Definition request_color (req : request) : option Z :=
  match req with
  | DrawLine _ _ _ color _ | DrawCircle _ _ _ color _ | DrawArc _ _ _ _ _ color _
  | DrawEllipse _ _ _ _ _ color _ | DrawPolyline _ _ _ color _
  | DrawRectangle _ _ _ color _ | DrawText _ _ _ _ _ color | DrawHatch _ _ _ _ color
  | AddDimension _ _ _ _ color => color
  | SaveDrawing _ => None
  end.

Definition request_layer (req : request) : option text :=
  match req with
  | DrawLine _ _ layer _ _ | DrawCircle _ _ layer _ _ | DrawArc _ _ _ _ layer _ _
  | DrawEllipse _ _ _ _ layer _ _ | DrawPolyline _ _ layer _ _
  | DrawRectangle _ _ layer _ _ | DrawText _ _ _ _ layer _ | DrawHatch _ _ _ layer _
  | AddDimension _ _ _ layer _ => layer
  | SaveDrawing _ => None
  end.

(** The message with which the size check of a shape turns a command
    down; a line, a rectangle, a polyline and a dimension have no such
    check. *)
Definition size_refusals (tag : string) : list string :=
  if String.eqb tag "circle" || String.eqb tag "arc" then ["Radius must be positive"]
  else if String.eqb tag "ellipse" then ["Major axis must be positive"]
  else if String.eqb tag "text" then ["Height must be positive"]
  else if String.eqb tag "hatch" then ["Pattern scale must be positive"]
  else [].

(** *** What a call does to the service *)

Section Outcomes.

Variable World : Type.
Variable controller : CADController World.

(** The call is turned down before the CAD application is contacted:
    the service object is left as it was. *)
Definition turned_down (message : text) (s : CADService World)
    (out : Reply * CADService World) : Prop :=
  out = (refusal message, s).

(** The connection fails: [ensure_initialized] returns [False], the
    answer is "CAD not initialized", and the service object is as
    [ensure_initialized] left it. *)
Definition not_connected (s : CADService World) (out : Reply * CADService World) : Prop :=
  (ensure_initialized World controller s).1 = false /\
  out = (refusal (str "CAD not initialized"), (ensure_initialized World controller s).2).

(** The call reaches the controller: [ensure_initialized] returns
    [True]; the request [req] is then performed once, on the application
    as [ensure_initialized] left it; the answer and the application that
    this one call returns are those of the result; a successful answer is
    recorded. *)
Definition answered (req : request) (command : text) (s : CADService World)
    (out : Reply * CADService World) : Prop :=
  let connected := ensure_initialized World controller s in
  let performed := perform controller req (cad connected.2) in
  connected.1 = true /\
  out.1 = performed.1 /\
  cad out.2 = performed.2 /\
  _initialized out.2 = true /\
  state out.2 =
    if success performed.1 then
      mkDrawingState (entities (state s) ++ [performed.1]) (current_layer (state s))
        command (str "success")
    else state s.

(** What becomes of a command in which the shape [tag] was recognised:
    it is turned down by the size check of the shape, or the connection
    fails, or it reaches the controller as one request for that shape, in
    good order, with the color [color] and no layer. *)
Definition nl_outcome (tag : string) (color : option Z) (s : CADService World)
    (out : Reply * CADService World) : Prop :=
  (exists message,
     In message (size_refusals tag) /\ turned_down (str message) s out) \/
  not_connected s out \/
  (exists req command,
     request_shape req = tag /\ request_color req = color /\ request_layer req = None /\
     well_posed req = true /\ answered req command s out).

End Outcomes.

(** The trace that a call leaves in the drawing state: a successful
    drawing is appended to the entities, a success is noted in
    [last_result], and nothing else of these changes. *)
Definition effect {World : Type} (keep : bool) (s : CADService World)
    (out : Reply * CADService World) : Prop :=
  entities (state out.2) =
    entities (state s) ++ (if keep && success out.1 then [out.1] else []) /\
  current_layer (state out.2) = current_layer (state s) /\
  last_result (state out.2) =
    (if success out.1 then str "success" else last_result (state s)) /\
  (_initialized s = true -> _initialized out.2 = true).

(** *** Two controllers for examples

    A CAD application that accepts whatever it is asked and counts the
    calls, and one that breaks down on a request that is not in good
    order. *)

Definition obliging : CADController nat :=
  mkController nat (fun w => (true, w)) (fun w => (true, S w))
    (fun _ w => (mkReply true [], S w)).

Definition fragile : CADController nat :=
  mkController nat (fun w => (true, w)) (fun w => (true, S w))
    (fun req w => if well_posed req then (mkReply true [], S w) else (mkReply false [], O)).

(** A stand-in for [repr]. *)
Definition plain_repr (n : num) : text :=
  match n with
  | Int _ => str "n"
  | Float _ => str "x"
  end.

(** *** [==] on parsed commands

    The comparison that Python makes between two results of separate
    calls.  Such results share no NaN object, so a NaN in one of them is
    unequal to the NaN at the same place of the other. *)

Definition float_eq (a b : float) : bool :=
  match a, b with
  | Fin x, Fin y => Qeq_bool x y
  | Inf s, Inf s' => Bool.eqb s s'
  | _, _ => false
  end.

(** An [int] and a [float] are compared by their exact values. *)
Definition num_eq (a b : num) : bool :=
  match a, b with
  | Int x, Int y => (x =? y)%Z
  | Float f, Float g => float_eq f g
  | Int x, Float f | Float f, Int x => float_eq (Fin (inject_Z x)) f
  end.

Definition point_eq (a b : point) : bool := num_eq a.1 b.1 && num_eq a.2 b.2.

Fixpoint points_eq (a b : list point) : bool :=
  match a, b with
  | [], [] => true
  | x :: a, y :: b => point_eq x y && points_eq a b
  | _, _ => false
  end.

(** A [bool] is the integer 0 or 1; a tuple, a list and a string are
    equal to nothing of another kind. *)
Definition value_eq (a b : value) : bool :=
  match a, b with
  | VNum x, VNum y => num_eq x y
  | VBool x, VBool y => Bool.eqb x y
  | VBool x, VNum y | VNum y, VBool x => num_eq (Int (if x then 1 else 0)) y
  | VPoint x, VPoint y => point_eq x y
  | VPoints x, VPoints y => points_eq x y
  | VStr x, VStr y => bool_decide (x = y)
  | _, _ => false
  end.

(** Two dictionaries are equal when they have the same number of keys
    and every key of the first has an equal value in the second. *)
Definition params_eq (a b : Params) : bool :=
  (size a =? size b)%nat &&
  forallb (fun kv : string * value =>
             match b !! kv.1 with
             | Some v => value_eq kv.2 v
             | None => false
             end) (map_to_list a).

(** The [__eq__] that [@dataclass] generates: the tuples of the fields
    are compared. *)
Definition command_eq (a b : ParsedCommand) : bool :=
  String.eqb (action a) (action b) && bool_decide (shape a = shape b) &&
  params_eq (parameters a) (parameters b) && bool_decide (raw_text a = raw_text b) &&
  Qeq_bool (confidence a) (confidence b).

(** No NaN in a number, a value, a dictionary. *)
Definition num_clean (n : num) : bool :=
  match n with
  | Float NaN => false
  | _ => true
  end.

Definition point_clean (p : point) : bool := num_clean p.1 && num_clean p.2.

Definition value_clean (v : value) : bool :=
  match v with
  | VNum n => num_clean n
  | VPoint p => point_clean p
  | VPoints l => forallb point_clean l
  | VStr _ | VBool _ => true
  end.

Definition params_clean (p : Params) : bool :=
  forallb (fun kv : string * value => value_clean kv.2) (map_to_list p).

(** Two numbers whose sum is NaN: infinities of opposite signs. *)
Definition cancel (a b : num) : bool :=
  match as_float a, as_float b with
  | Inf s, Inf s' => xorb s s'
  | _, _ => false
  end.

(** A dimension between two points whose abscissas are too large for a
    float, one positive and one negative: a one followed by 309 zeros. *)
Definition overflowing_dimension : text :=
  str "dimension (1" ++ repeat (cp "0") 309 ++ str ",0) (-1" ++ repeat (cp "0") 309 ++ str ",0)".

(** *** Texts without digits *)

(** The text holds no decimal digit. *)
Definition digit_free (t : text) : bool := forallb (fun c => negb (Unicode.is_decimal c)) t.

(** The geometry that each parser falls back to. *)
Definition default_geometry (tag : string) : list (string * value) :=
  if String.eqb tag "line" then
    [("start", VPoint origin); ("end", VPoint (Int 100, Int 100))]
  else if String.eqb tag "circle" then
    [("center", VPoint origin); ("radius", VNum (Int 50))]
  else if String.eqb tag "arc" then
    [("center", VPoint origin); ("radius", VNum (Int 50));
     ("start_angle", VNum (Int 0)); ("end_angle", VNum (Int 90))]
  else if String.eqb tag "ellipse" then
    [("center", VPoint origin); ("major_axis", VNum (Int 100));
     ("minor_axis", VNum (Int 50)); ("rotation", VNum (Int 0))]
  else if String.eqb tag "rectangle" then
    [("corner1", VPoint origin); ("corner2", VPoint (Float 100, Float 50))]
  else if String.eqb tag "polyline" then
    [("points", VPoints [origin; (Int 50, Int 50); (Int 100, Int 0)])]
  else if String.eqb tag "text" then
    [("position", VPoint origin); ("height", VNum (Float (5 # 2))); ("rotation", VNum (Int 0))]
  else if String.eqb tag "dimension" then
    [("start", VPoint origin); ("end", VPoint (Int 100, Int 0));
     ("text_position", VPoint (Int 50, Int 10))]
  else if String.eqb tag "hatch" then
    [("boundary_points", VPoints [origin; (Int 100, Int 0); (Int 100, Int 100); (Int 0, Int 100)]);
     ("pattern_scale", VNum (Float 1))]
  else [].

(** A stretch of text that holds a decimal digit. *)
Definition has_digit (pre : text) : Prop := existsb Unicode.is_decimal pre = true.

(** * Properties *)

(** ** The matcher *)

Lemma star_consumes p : consumes (Star p) (fun pre => forallb p pre = true).
Proof.
  intros k s. induction s as [|x s IH]; intros c res H; simpl in H.
  - exists [], []. auto.
  - destruct (p x) eqn:Hp.
    + destruct (star p k s c) eqn:Hs.
      * destruct (IH c p0 Hs) as (pre & s' & -> & Hall & Hk).
        exists (x :: pre), s'. simpl. rewrite Hp, Hall.
        inversion H; subst. auto.
      * exists [], (x :: s). auto.
    + exists [], (x :: s). auto.
Qed.

Lemma chr_consumes p : consumes (Chr p) (fun pre => exists x, pre = [x] /\ p x = true).
Proof.
  intros k [|x s] c res H; simpl in H; [discriminate|].
  destruct (p x) eqn:Hp; [|discriminate].
  exists [x], s. eauto.
Qed.

Lemma seq_consumes a b P Q :
  consumes a P -> consumes b Q ->
  consumes (Seq a b) (fun pre => exists u v, pre = u ++ v /\ P u /\ Q v).
Proof.
  intros Ha Hb k s c res H. simpl in H.
  destruct (Ha _ _ _ _ H) as (u & s1 & -> & Hu & H1).
  destruct (Hb _ _ _ _ H1) as (v & s2 & -> & Hv & H2).
  exists (u ++ v), s2. rewrite <- app_assoc. eauto 10.
Qed.

Lemma opt_consumes a P :
  consumes a P -> consumes (Opt a) (fun pre => pre = [] \/ P pre).
Proof.
  intros Ha k s c res H. simpl in H.
  destruct (run a k s c) eqn:E.
  - inversion H; subst. destruct (Ha _ _ _ _ E) as (u & s1 & -> & Hu & H1). eauto 10.
  - exists [], s. auto.
Qed.

Lemma eps_consumes : consumes Eps (fun pre => pre = []).
Proof. intros k s c res H. exists [], s. auto. Qed.

Lemma consumes_weaken r (P Q : text -> Prop) :
  (forall pre, P pre -> Q pre) -> consumes r P -> consumes r Q.
Proof.
  intros HPQ Hr k s c res H.
  destruct (Hr _ _ _ _ H) as (pre & s' & ? & ? & ?). eauto 10.
Qed.

Lemma groupless_post r : groupless r = true -> post r eq.
Proof.
  induction r as [|p|a IHa b IHb|a IHa b IHb|a IHa|p|n a IHa]; simpl; intros Hg k s c res H;
    simpl in H.
  - eauto.
  - destruct s as [|x s]; [discriminate|]. destruct (p x); [eauto|discriminate].
  - apply andb_prop in Hg as [Hga Hgb].
    destruct (IHa Hga _ _ _ _ H) as (s1 & c1 & <- & H1).
    destruct (IHb Hgb _ _ _ _ H1) as (s2 & c2 & <- & H2). eauto.
  - apply andb_prop in Hg as [Hga Hgb].
    destruct (run a k s c) eqn:E.
    + inversion H; subst. exact (IHa Hga _ _ _ _ E).
    + exact (IHb Hgb _ _ _ _ H).
  - destruct (run a k s c) eqn:E.
    + inversion H; subst. exact (IHa Hg _ _ _ _ E).
    + eauto.
  - destruct (star_consumes p _ _ _ _ H) as (pre & s' & _ & _ & Hk). eauto.
  - discriminate.
Qed.

Lemma seq_post a b R1 R2 :
  post a R1 -> post b R2 ->
  post (Seq a b) (fun c c'' => exists c', R1 c c' /\ R2 c' c'').
Proof.
  intros Ha Hb k s c res H. simpl in H.
  destruct (Ha _ _ _ _ H) as (s1 & c1 & HR1 & H1).
  destruct (Hb _ _ _ _ H1) as (s2 & c2 & HR2 & H2). eauto 10.
Qed.

Lemma grp_post n a P :
  consumes a P -> post (Grp n a) (fun c c' => exists v, P v /\ c' = (n, v) :: c).
Proof.
  intros Ha k s c res H. simpl in H.
  destruct (Ha _ _ _ _ H) as (pre & s' & -> & Hpre & Hk).
  rewrite length_app in Hk.
  replace (length pre + length s' - length s')%nat with (length pre) in Hk by lia.
  rewrite take_app_length in Hk. eauto 10.
Qed.

Lemma post_weaken r (R R' : caps -> caps -> Prop) :
  (forall c c', R c c' -> R' c c') -> post r R -> post r R'.
Proof.
  intros HR Hr k s c res H.
  destruct (Hr _ _ _ _ H) as (s' & c' & ? & ?). eauto.
Qed.

(** The groups of a match found by [search] or [finditer]. *)
Lemma match_here_post r R s i m :
  post r R -> match_here r s i = Some m -> R [] (m_caps m).
Proof.
  intros Hr. unfold match_here. destruct (run r accept s []) as [[rest c]|] eqn:E; [|discriminate].
  intros [= <-]. simpl.
  destruct (Hr _ _ _ _ E) as (s' & c' & HR & Hk). unfold accept in Hk.
  inversion Hk; subst. exact HR.
Qed.

Lemma search_from_post r R s i m :
  post r R -> search_from r s i = Some m -> R [] (m_caps m).
Proof.
  intros Hr. revert i. induction s as [|x s IH]; intros i; simpl.
  - destruct (match_here r [] i) eqn:E; [|discriminate].
    intros [= <-]. eapply match_here_post; eauto.
  - destruct (match_here r (x :: s) i) eqn:E.
    + intros [= <-]. eapply match_here_post; eauto.
    + apply IH.
Qed.

Lemma search_post r R s m :
  post r R -> search r s = Some m -> R [] (m_caps m).
Proof. apply search_from_post. Qed.

Lemma finditer_from_post r R s skip i :
  post r R -> Forall (fun m => R [] (m_caps m)) (finditer_from r s skip i).
Proof.
  intros Hr. revert skip i. induction s as [|x s IH]; intros skip i; simpl.
  - destruct skip; [|constructor].
    destruct (match_here r [] i) eqn:E; constructor; [|constructor].
    eapply match_here_post; eauto.
  - destruct skip; [|apply IH].
    destruct (match_here r (x :: s) i) eqn:E; [|apply IH].
    constructor; [eapply match_here_post; eauto | apply IH].
Qed.

Lemma finditer_post r R s :
  post r R -> Forall (fun m => R [] (m_caps m)) (finditer r s).
Proof. apply finditer_from_post. Qed.


(** ** Captured numbers convert *)

Lemma span_digits_app a b :
  forallb Unicode.is_decimal a = true ->
  match b with [] => True | x :: _ => Unicode.is_decimal x = false end ->
  span_digits (a ++ b) = (a, b).
Proof.
  induction a as [|x a IH]; simpl; intros Ha Hb.
  - destruct b as [|y b]; [reflexivity|]. simpl. now rewrite Hb.
  - apply andb_prop in Ha as [Hx Ha]. rewrite Hx, (IH Ha Hb). reflexivity.
Qed.

Lemma split_sign_digit d s :
  Unicode.is_decimal d = true -> split_sign (d :: s) = (false, d :: s).
Proof.
  intros Hd. unfold split_sign.
  destruct (N.eqb_spec d 45) as [->|_]; [vm_compute in Hd; discriminate|].
  destruct (N.eqb_spec d 43) as [->|_]; [vm_compute in Hd; discriminate|].
  reflexivity.
Qed.

Lemma py_float_body neg d ds dot fs :
  Unicode.is_decimal d = true -> forallb Unicode.is_decimal ds = true ->
  dot = [] \/ dot = [46] -> forallb Unicode.is_decimal fs = true ->
  exists q,
    (let '(ip, rest) := span_digits ((d :: ds) ++ dot ++ fs) in
     match rest with
     | [] => if nonempty ip then Ok (nearest_double (decimal_Q neg ip [])) else Raise ValueError
     | c :: fp =>
         if (c =? 46) && forallb Unicode.is_decimal fp && (nonempty ip || nonempty fp)
         then Ok (nearest_double (decimal_Q neg ip fp))
         else Raise ValueError
     end) = Ok q.
Proof.
  intros Hd Hds [-> | ->] Hfs.
  - replace ((d :: ds) ++ [] ++ fs) with ((d :: ds ++ fs) ++ []) by (simpl; now rewrite app_nil_r).
    rewrite span_digits_app; [simpl; eauto| |exact I].
    simpl. rewrite Hd. rewrite forallb_app, Hds, Hfs. reflexivity.
  - rewrite span_digits_app; [|simpl; now rewrite Hd, Hds|reflexivity].
    simpl. rewrite Hfs. simpl. eauto.
Qed.

Lemma numeric_unsigned d ds dot fs :
  Unicode.is_decimal d = true -> forallb Unicode.is_decimal ds = true ->
  dot = [] \/ dot = [46] -> forallb Unicode.is_decimal fs = true ->
  numeric ((d :: ds) ++ dot ++ fs).
Proof.
  intros Hd Hds Hdot Hfs. unfold numeric, py_float.
  change ((d :: ds) ++ dot ++ fs) with (d :: (ds ++ dot ++ fs)) at 1.
  rewrite (split_sign_digit _ _ Hd).
  exact (py_float_body false d ds dot fs Hd Hds Hdot Hfs).
Qed.

Lemma numeric_negative d ds dot fs :
  Unicode.is_decimal d = true -> forallb Unicode.is_decimal ds = true ->
  dot = [] \/ dot = [46] -> forallb Unicode.is_decimal fs = true ->
  numeric (45 :: (d :: ds) ++ dot ++ fs).
Proof.
  intros Hd Hds Hdot Hfs. unfold numeric, py_float. simpl split_sign. cbv iota beta.
  exact (py_float_body true d ds dot fs Hd Hds Hdot Hfs).
Qed.

Lemma unsigned_shape :
  consumes unsigned_number (fun pre => exists d ds dot fs,
    pre = (d :: ds) ++ dot ++ fs /\ Unicode.is_decimal d = true /\
    forallb Unicode.is_decimal ds = true /\ (dot = [] \/ dot = [46]) /\
    forallb Unicode.is_decimal fs = true).
Proof.
  unfold unsigned_number, seqs, Plus. simpl foldr.
  eapply consumes_weaken;
    [| exact (seq_consumes _ _ _ _
               (seq_consumes _ _ _ _ (chr_consumes digit) (star_consumes digit))
               (seq_consumes _ _ _ _ (opt_consumes _ _ (chr_consumes (lit (cp "."))))
                  (seq_consumes _ _ _ _ (star_consumes digit) eps_consumes)))].
  intros pre (u & v & -> & (u1 & u2 & -> & (d & -> & Hd) & Hds) & (w & z & -> & Hdot & (fs & e & -> & Hfs & ->))).
  exists d, u2, w, fs. rewrite app_nil_r. repeat split; auto.
  destruct Hdot as [-> | (x & -> & Hx)]; [now left|right].
  unfold lit in Hx. apply N.eqb_eq in Hx. subst x. reflexivity.
Qed.

Lemma unsigned_numeric : consumes unsigned_number numeric.
Proof.
  eapply consumes_weaken; [|exact unsigned_shape].
  intros pre (d & ds & dot & fs & -> & Hd & Hds & Hdot & Hfs).
  now apply numeric_unsigned.
Qed.

Lemma signed_numeric : consumes signed_number numeric.
Proof.
  change signed_number with (Seq (Opt (Chr (lit (cp "-")))) unsigned_number).
  eapply consumes_weaken;
    [| exact (seq_consumes _ _ _ _ (opt_consumes _ _ (chr_consumes (lit (cp "-")))) unsigned_shape)].
  intros pre (u & v & -> & Hsign & (d & ds & dot & fs & -> & Hd & Hds & Hdot & Hfs)).
  destruct Hsign as [-> | (x & -> & Hx)].
  - now apply numeric_unsigned.
  - unfold lit in Hx. apply N.eqb_eq in Hx. subst x.
    change ([cp "-"] ++ (d :: ds) ++ dot ++ fs) with (45 :: (d :: ds) ++ dot ++ fs).
    now apply numeric_negative.
Qed.

Lemma value_tail_post : post (seqs value_tail) one_number.
Proof.
  unfold value_tail, seqs. simpl foldr.
  eapply post_weaken;
    [| exact (seq_post _ _ _ _ (groupless_post (Star ws) eq_refl)
               (seq_post _ _ _ _ (groupless_post (Opt (Chr (one_of [cp "="; cp ":"]))) eq_refl)
                  (seq_post _ _ _ _ (groupless_post (Star ws) eq_refl)
                     (seq_post _ _ _ _ (grp_post 1 _ _ unsigned_numeric)
                        (groupless_post Eps eq_refl)))))].
  intros c c' (c1 & <- & c2 & <- & c3 & <- & c4 & (v & Hv & ->) & <-).
  exists v. auto.
Qed.

Lemma keyword_post pre :
  forallb groupless pre = true -> post (seqs (pre ++ value_tail)) one_number.
Proof.
  induction pre as [|a pre IH]; simpl; intros Hg.
  - exact value_tail_post.
  - apply andb_prop in Hg as [Ha Hpre].
    eapply post_weaken; [|exact (seq_post _ _ _ _ (groupless_post a Ha) (IH Hpre))].
    intros c c' (c1 & <- & H). exact H.
Qed.

Lemma number_post : post NUMBER_PATTERN one_number.
Proof. exact (grp_post 1 _ _ signed_numeric). Qed.

Lemma coord_post : post COORD_PATTERN two_numbers.
Proof.
  unfold COORD_PATTERN, seqs. simpl foldr.
  eapply post_weaken;
    [| exact (seq_post _ _ _ _ (groupless_post (Opt (Chr (lit (cp "(")))) eq_refl)
               (seq_post _ _ _ _ (groupless_post (Star ws) eq_refl)
                 (seq_post _ _ _ _ (grp_post 1 _ _ signed_numeric)
                   (seq_post _ _ _ _ (groupless_post (Star ws) eq_refl)
                     (seq_post _ _ _ _ (groupless_post (Chr (lit (cp ","))) eq_refl)
                       (seq_post _ _ _ _ (groupless_post (Star ws) eq_refl)
                         (seq_post _ _ _ _ (grp_post 2 _ _ signed_numeric)
                           (seq_post _ _ _ _ (groupless_post (Star ws) eq_refl)
                             (seq_post _ _ _ _ (groupless_post (Opt (Chr (lit (cp ")")))) eq_refl)
                               (groupless_post Eps eq_refl))))))))))].
  intros c c' (c1 & <- & c2 & <- & c3 & (v1 & Hv1 & ->) & c4 & <- & c5 & <- & c6 & <- &
               c7 & (v2 & Hv2 & ->) & c8 & <- & c9 & <- & <-).
  exists v1, v2. auto.
Qed.

Lemma float_group_one m v c :
  numeric v -> m_caps m = (1%nat, v) :: c -> exists q, float_group m 1 = Ok q.
Proof.
  intros [q Hq] Hm. exists q. unfold float_group, group. rewrite Hm. simpl. exact Hq.
Qed.

Lemma search_keyword_float p t m :
  post p one_number -> search p t = Some m -> exists q, float_group m 1 = Ok q.
Proof.
  intros Hp Hs. destruct (search_post _ _ _ _ Hp Hs) as (v & Hv & Hc).
  eapply float_group_one; eauto.
Qed.

Lemma coords_of_matches_ok ms :
  Forall (fun m => two_numbers [] (m_caps m)) ms ->
  exists coords, coords_of_matches ms = Ok coords /\ length coords = length ms.
Proof.
  induction 1 as [|m ms (v1 & v2 & [q1 H1] & [q2 H2] & Hc) _ (coords & IH & Hlen)]; simpl.
  - eauto.
  - unfold float_group, group. rewrite Hc. simpl. rewrite H1, H2. simpl. rewrite IH. simpl.
    eexists; split; [reflexivity|]. simpl. now rewrite Hlen.
Qed.

Lemma numbers_of_matches_ok ms :
  Forall (fun m => one_number [] (m_caps m)) ms ->
  exists numbers, numbers_of_matches ms = Ok numbers /\ length numbers = length ms.
Proof.
  induction 1 as [|m ms (v & [q Hq] & Hc) _ (numbers & IH & Hlen)]; simpl.
  - eauto.
  - unfold float_group, group. rewrite Hc. simpl. rewrite Hq. simpl. rewrite IH. simpl.
    eexists; split; [reflexivity|]. simpl. now rewrite Hlen.
Qed.

Lemma extract_coordinates_ok t : exists coords, extract_coordinates t = Ok coords.
Proof.
  destruct (coords_of_matches_ok _ (finditer_post _ _ t coord_post)) as (coords & H & _).
  now exists coords.
Qed.

Lemma extract_numbers_ok t : exists numbers, extract_numbers t = Ok numbers.
Proof.
  destruct (numbers_of_matches_ok _ (finditer_post _ _ t number_post)) as (numbers & H & _).
  now exists numbers.
Qed.

(** ** The keyword patterns *)

Create HintDb kwpat.

Lemma RADIUS_RE_post : post RADIUS_RE one_number.
Proof. exact (keyword_post [ilits (str "radius")] eq_refl). Qed.
Lemma RADIUS_CN_RE_post : post RADIUS_CN_RE one_number.
Proof. exact (keyword_post [lits (str "半径")] eq_refl). Qed.
Lemma START_RE_post : post START_RE one_number.
Proof. exact (keyword_post [ilits (str "start"); Star ws; Opt (ilits (str "angle"))] eq_refl). Qed.
Lemma END_RE_post : post END_RE one_number.
Proof. exact (keyword_post [ilits (str "end"); Star ws; Opt (ilits (str "angle"))] eq_refl). Qed.
Lemma START_CN_RE_post : post START_CN_RE one_number.
Proof. exact (keyword_post [lits (str "起始角")] eq_refl). Qed.
Lemma END_CN_RE_post : post END_CN_RE one_number.
Proof. exact (keyword_post [lits (str "终止角")] eq_refl). Qed.
Lemma MAJOR_RE_post : post MAJOR_RE one_number.
Proof. exact (keyword_post [ilits (str "major"); Star ws; Opt (ilits (str "axis"))] eq_refl). Qed.
Lemma MINOR_RE_post : post MINOR_RE one_number.
Proof. exact (keyword_post [ilits (str "minor"); Star ws; Opt (ilits (str "axis"))] eq_refl). Qed.
Lemma ROTATION_RE_post : post ROTATION_RE one_number.
Proof. exact (keyword_post [ilits (str "rotation")] eq_refl). Qed.
Lemma WIDTH_RE_post : post WIDTH_RE one_number.
Proof. exact (keyword_post [ilits (str "width")] eq_refl). Qed.
Lemma HEIGHT_RE_post : post HEIGHT_RE one_number.
Proof. exact (keyword_post [ilits (str "height")] eq_refl). Qed.
Lemma WIDTH_CN_RE_post : post WIDTH_CN_RE one_number.
Proof. exact (keyword_post [lits (str "宽")] eq_refl). Qed.
Lemma HEIGHT_CN_RE_post : post HEIGHT_CN_RE one_number.
Proof. exact (keyword_post [lits (str "高")] eq_refl). Qed.
Lemma HEIGHT2_CN_RE_post : post HEIGHT2_CN_RE one_number.
Proof. exact (keyword_post [lits (str "高度")] eq_refl). Qed.
Lemma SCALE_RE_post : post SCALE_RE one_number.
Proof. exact (keyword_post [ilits (str "scale")] eq_refl). Qed.

#[export] Hint Resolve RADIUS_RE_post RADIUS_CN_RE_post START_RE_post END_RE_post
  START_CN_RE_post END_CN_RE_post MAJOR_RE_post MINOR_RE_post ROTATION_RE_post
  WIDTH_RE_post HEIGHT_RE_post WIDTH_CN_RE_post HEIGHT_CN_RE_post HEIGHT2_CN_RE_post
  SCALE_RE_post : kwpat.

Lemma keyword_value_none p t :
  post p one_number -> keyword_value p t = None <-> search p t = None.
Proof.
  intros Hp. unfold keyword_value. destruct (search p t) as [m|] eqn:E; [|tauto].
  destruct (search_keyword_float _ _ _ Hp E) as [q ->]. split; discriminate.
Qed.

Lemma set_float_spec p t key (params : Params) :
  post p one_number ->
  set_float p t key params =
  Ok (match keyword_value p t with
      | Some q => <[key := VNum (Float q)]> params
      | None => params
      end).
Proof.
  intros Hp. unfold set_float, keyword_value. destruct (search p t) as [m|] eqn:E; [|reflexivity].
  destruct (search_keyword_float _ _ _ Hp E) as [q ->]. reflexivity.
Qed.

Lemma get_float_spec p t x :
  post p one_number ->
  get_float p t x = Ok (match keyword_value p t with Some q => q | None => x end).
Proof.
  intros Hp. unfold get_float, keyword_value. destruct (search p t) as [m|] eqn:E; [|reflexivity].
  destruct (search_keyword_float _ _ _ Hp E) as [q ->]. reflexivity.
Qed.

(** ** Every parameter parser returns a good dictionary *)

Lemma good_insert key v (p : Params) :
  key <> "file_path" -> p !! "file_path" = None -> good (<[key := v]> p).
Proof.
  intros Hk Hp. split; [apply insert_non_empty|]. now rewrite lookup_insert_ne.
Qed.

Lemma good_insert_good key v (p : Params) :
  key <> "file_path" -> good p -> good (<[key := v]> p).
Proof. intros Hk [_ Hp]. now apply good_insert. Qed.

Lemma set_float_good p t key (params : Params) :
  post p one_number -> key <> "file_path" -> good params ->
  exists params', set_float p t key params = Ok params' /\ good params'.
Proof.
  intros Hp Hk Hg. rewrite set_float_spec by assumption.
  eexists; split; [reflexivity|]. destruct (keyword_value p t); [now apply good_insert_good|assumption].
Qed.

Ltac solve_good :=
  lazymatch goal with
  | H : good ?p |- good ?p => exact H
  | |- good (<[_ := _]> _) =>
      first [ apply good_insert; [discriminate | reflexivity]
            | apply good_insert_good; [discriminate | solve_good] ]
  end.

Ltac step_set_float :=
  match goal with
  | |- context [set_float ?p ?t ?key ?params] =>
      let H := fresh "H" in let G := fresh "G" in let p' := fresh "params" in
      assert (G : good params) by solve_good;
      destruct (set_float_good p t key params ltac:(auto with kwpat) ltac:(discriminate) G)
        as (p' & H & ?);
      rewrite H; clear H G; cbn [bind]
  end.

Ltac pysimpl :=
  cbn [bind index nonempty length Nat.leb Nat.ltb lookup list_lookup andb negb orb drop].

Ltac use_coords t :=
  let coords := fresh "coords" in let H := fresh "Hcoords" in
  destruct (extract_coordinates_ok t) as [coords H]; rewrite H; cbn [bind].

Ltac use_numbers t :=
  let numbers := fresh "numbers" in let H := fresh "Hnumbers" in
  destruct (extract_numbers_ok t) as [numbers H]; rewrite H; cbn [bind].

Ltac finish_good := eexists; split; [reflexivity | solve_good].

Lemma _parse_line_ok t : exists p, _parse_line t = Ok p /\ good p.
Proof.
  unfold _parse_line. use_coords t.
  destruct coords as [|c0 [|c1 r]]; pysimpl; finish_good.
Qed.

Lemma _parse_circle_ok t : exists p, _parse_circle t = Ok p /\ good p.
Proof.
  unfold _parse_circle. use_coords t. use_numbers t.
  assert (Hc : exists center, (if nonempty coords then index coords 0 else Ok origin) = Ok center)
    by (destruct coords; pysimpl; eauto).
  destruct Hc as [center ->]. cbn [bind].
  destruct (search RADIUS_RE t) as [m|] eqn:E1.
  { destruct (search_keyword_float _ _ _ RADIUS_RE_post E1) as [q ->]. cbn [bind]. finish_good. }
  destruct (search RADIUS_CN_RE t) as [m|] eqn:E2.
  { destruct (search_keyword_float _ _ _ RADIUS_CN_RE_post E2) as [q ->]. cbn [bind]. finish_good. }
  destruct (nonempty coords && (2 <? length numbers)%nat).
  - destruct (drop (length coords * 2) numbers) as [|r0 rest]; pysimpl; finish_good.
  - destruct (negb (nonempty coords) && nonempty numbers) eqn:E3.
    + destruct numbers as [|n0 ns]; [now rewrite andb_false_r in E3|]. pysimpl. finish_good.
    + finish_good.
Qed.

Lemma _parse_arc_ok t : exists p, _parse_arc t = Ok p /\ good p.
Proof.
  unfold _parse_arc. use_coords t. use_numbers t.
  assert (Hc : exists center, (if nonempty coords then index coords 0 else Ok origin) = Ok center)
    by (destruct coords; pysimpl; eauto).
  destruct Hc as [center ->]. cbn [bind].
  repeat step_set_float. finish_good.
Qed.

Lemma _parse_ellipse_ok t : exists p, _parse_ellipse t = Ok p /\ good p.
Proof.
  unfold _parse_ellipse. use_coords t. use_numbers t.
  assert (Hc : exists center, (if nonempty coords then index coords 0 else Ok origin) = Ok center)
    by (destruct coords; pysimpl; eauto).
  destruct Hc as [center ->]. cbn [bind].
  repeat step_set_float. finish_good.
Qed.

Lemma _parse_rectangle_ok t : exists p, _parse_rectangle t = Ok p /\ good p.
Proof.
  unfold _parse_rectangle. use_coords t. use_numbers t.
  destruct coords as [|c0 [|c1 r]]; pysimpl;
    rewrite ?get_float_spec by auto with kwpat; cbn [bind];
    rewrite ?get_float_spec by auto with kwpat; cbn [bind];
    rewrite ?get_float_spec by auto with kwpat; cbn [bind];
    rewrite ?get_float_spec by auto with kwpat; cbn [bind];
    finish_good.
Qed.

Lemma _parse_polyline_ok t : exists p, _parse_polyline t = Ok p /\ good p.
Proof.
  unfold _parse_polyline. use_coords t.
  destruct (2 <=? length coords)%nat; finish_good.
Qed.

Lemma _parse_text_ok t : exists p, _parse_text t = Ok p /\ good p.
Proof.
  unfold _parse_text. use_coords t.
  assert (Hc : exists pos, (if nonempty coords then index coords 0 else Ok origin) = Ok pos)
    by (destruct coords; pysimpl; eauto).
  destruct Hc as [pos ->]. cbn [bind].
  repeat step_set_float. finish_good.
Qed.

Lemma _parse_dimension_ok t : exists p, _parse_dimension t = Ok p /\ good p.
Proof.
  unfold _parse_dimension. use_coords t.
  destruct coords as [|c0 [|c1 [|c2 r]]]; pysimpl; finish_good.
Qed.

Lemma _parse_hatch_ok t : exists p, _parse_hatch t = Ok p /\ good p.
Proof.
  unfold _parse_hatch. use_coords t.
  set (boundary := if (3 <=? length coords)%nat then _ else _).
  assert (Hp : exists params,
    match search PATTERN_RE t with
    | Some m =>
        match group m 1 with
        | Some g =>
            Ok (<["pattern_name" := VStr (py_upper g)]>
                (<["pattern_scale" := VNum (Float 1)]> (<["pattern_name" := VStr (str "SOLID")]>
                 (<["boundary_points" := VPoints boundary]> (∅ : Params)))))
        | None => Raise AttributeError
        end
    | None => Ok (<["pattern_scale" := VNum (Float 1)]> (<["pattern_name" := VStr (str "SOLID")]>
                 (<["boundary_points" := VPoints boundary]> (∅ : Params))))
    end = Ok params /\ good params).
  { destruct (search PATTERN_RE t) as [m|] eqn:E; [|finish_good].
    assert (Hpost : post PATTERN_RE (fun c c' => exists v, c' = (1%nat, v) :: c)).
    { unfold PATTERN_RE, seqs. simpl foldr.
      eapply post_weaken;
        [| exact (seq_post _ _ _ _ (groupless_post (ilits (str "pattern")) eq_refl)
                   (seq_post _ _ _ _ (groupless_post (Star ws) eq_refl)
                     (seq_post _ _ _ _ (groupless_post (Opt (Chr (one_of [cp "="; cp ":"]))) eq_refl)
                       (seq_post _ _ _ _ (groupless_post (Star ws) eq_refl)
                         (seq_post _ _ _ _
                            (grp_post 1 _ (fun _ => True)
                               (consumes_weaken _ _ _ (fun _ _ => I)
                                  (seq_consumes _ _ _ _ (chr_consumes Unicode.is_word)
                                     (star_consumes Unicode.is_word))))
                            (groupless_post Eps eq_refl))))))].
      intros c c' (c1 & <- & c2 & <- & c3 & <- & c4 & <- & c5 & (v & _ & ->) & <-). eauto. }
    destruct (search_post _ _ _ _ Hpost E) as (v & Hv).
    unfold group. rewrite Hv. simpl. finish_good. }
  destruct Hp as (params & -> & Hg). cbn [bind].
  repeat step_set_float. finish_good.
Qed.

Lemma _parse_generic_ok t : exists p, _parse_generic t = Ok p.
Proof.
  unfold _parse_generic. use_coords t. destruct (nonempty coords); eauto.
Qed.

Lemma _parse_save_ok t : exists p, _parse_save t = Ok p.
Proof.
  unfold _parse_save.
  destruct (extract_quoted_text t) as [[|c s]|]; cbn [bind];
    try (destruct (search DWG_RE t) as [m|]; [destruct (group m 1)|]); cbn [bind]; eauto.
Qed.

(** ** Keyword lookup *)

Lemma first_keyword_none table t :
  first_keyword table (py_lower t) = None <-> no_entry table t = true.
Proof.
  induction table as [|[kw tag] rest IH]; simpl; [tauto|].
  unfold occurs at 1. simpl. destruct (contains (py_lower (str kw)) (py_lower t)); simpl.
  - split; discriminate.
  - exact IH.
Qed.

Lemma first_keyword_some table t tag :
  first_keyword table (py_lower t) = Some tag <-> first_entry table t tag.
Proof.
  induction table as [|[kw tg] rest IH]; simpl.
  - split; [discriminate|]. intros (b & k & a & H & _). destruct b; discriminate.
  - destruct (contains (py_lower (str kw)) (py_lower t)) eqn:E.
    + split.
      * intros [= ->]. exists [], kw, rest. auto.
      * intros (b & k & a & H & Hk & Hb). destruct b as [|[k0 t0] b]; simpl in H.
        -- now inversion H.
        -- inversion H; subst. simpl in Hb. unfold occurs in Hb at 1. simpl in Hb.
           rewrite E in Hb. discriminate.
    + rewrite IH. split.
      * intros (b & k & a & -> & Hk & Hb). exists ((kw, tg) :: b), k, a.
        repeat split; auto. simpl. unfold occurs at 1. simpl. now rewrite E.
      * intros (b & k & a & H & Hk & Hb). destruct b as [|[k0 t0] b]; simpl in H.
        -- inversion H; subst. unfold occurs in Hk. rewrite E in Hk. discriminate.
        -- inversion H; subst. simpl in Hb. apply andb_prop in Hb as [_ Hb].
           exists b, k, a. auto.
Qed.

Lemma first_keyword_in table tl tag :
  first_keyword table tl = Some tag -> In tag (map snd table).
Proof.
  induction table as [|[kw tg] rest IH]; simpl; [discriminate|].
  destruct (contains (py_lower (str kw)) tl); [intros [= ->]; auto | auto].
Qed.

(** A text in which [a ++ b] occurs has an occurrence of [b]. *)
Lemma starts_with_app a b h :
  starts_with (a ++ b) h = true -> starts_with b (drop (length a) h) = true.
Proof.
  revert h. induction a as [|x a IH]; intros h; simpl; [now rewrite drop_0|].
  destruct h as [|y h]; [discriminate|]. intros H. apply andb_prop in H as [_ H]. simpl. auto.
Qed.

Lemma contains_drop n b h : contains b (drop n h) = true -> contains b h = true.
Proof.
  revert h. induction n as [|n IH]; intros h; [now rewrite drop_0|].
  destruct h as [|y h]; simpl drop; [auto|]. intros H. simpl.
  rewrite (IH _ H). apply orb_true_r.
Qed.

Lemma contains_starts b h : starts_with b h = true -> contains b h = true.
Proof. intros H. destruct h; simpl in *; rewrite H; reflexivity. Qed.

Lemma contains_app_r a b h : contains (a ++ b) h = true -> contains b h = true.
Proof.
  induction h as [|y h IH]; simpl.
  - rewrite orb_false_r. intros H. apply starts_with_app in H.
    destruct (length a); simpl in H; now rewrite H.
  - intros H. apply orb_prop in H as [H|H].
    + apply starts_with_app in H. apply (contains_drop (length a) b (y :: h)).
      now apply contains_starts.
    + rewrite (IH H). apply orb_true_r.
Qed.

(** ** [parse_command] *)

Lemma shape_tag_of_table tag : In tag (map snd SHAPE_KEYWORDS) -> In tag shape_tags.
Proof.
  assert (H : forallb (fun s => bool_decide (In s shape_tags)) (map snd SHAPE_KEYWORDS) = true)
    by (vm_compute; reflexivity).
  rewrite forallb_forall in H. intros Hin. apply H in Hin. now apply bool_decide_eq_true in Hin.
Qed.

Lemma identify_shape_tag t tag : identify_shape t = Some tag -> In tag shape_tags.
Proof. intros H. apply shape_tag_of_table. eapply first_keyword_in. exact H. Qed.

Lemma shape_parser_good tag t :
  In tag shape_tags ->
  exists f p, getattr ("_parse_" +:+ tag) = Some f /\ f t = Ok p /\ good p.
Proof.
  unfold shape_tags. simpl.
  intros [<-|[<-|[<-|[<-|[<-|[<-|[<-|[<-|[<-|[]]]]]]]]]].
  - destruct (_parse_line_ok t) as (p & ? & ?). exists _parse_line, p. auto.
  - destruct (_parse_circle_ok t) as (p & ? & ?). exists _parse_circle, p. auto.
  - destruct (_parse_arc_ok t) as (p & ? & ?). exists _parse_arc, p. auto.
  - destruct (_parse_ellipse_ok t) as (p & ? & ?). exists _parse_ellipse, p. auto.
  - destruct (_parse_rectangle_ok t) as (p & ? & ?). exists _parse_rectangle, p. auto.
  - destruct (_parse_polyline_ok t) as (p & ? & ?). exists _parse_polyline, p. auto.
  - destruct (_parse_text_ok t) as (p & ? & ?). exists _parse_text, p. auto.
  - destruct (_parse_dimension_ok t) as (p & ? & ?). exists _parse_dimension, p. auto.
  - destruct (_parse_hatch_ok t) as (p & ? & ?). exists _parse_hatch, p. auto.
Qed.

Lemma shape_tag_truthy tag : In tag shape_tags -> truthy tag = true.
Proof.
  unfold shape_tags. simpl.
  intros [<-|[<-|[<-|[<-|[<-|[<-|[<-|[<-|[<-|[]]]]]]]]]]; reflexivity.
Qed.

Lemma with_color_good t p : good p -> good (with_color t p).
Proof.
  unfold with_color. destruct (extract_color t); [|auto].
  now apply good_insert_good.
Qed.

Lemma with_color_other t p key :
  key <> "color" -> with_color t p !! key = p !! key.
Proof.
  intros Hk. unfold with_color. destruct (extract_color t); [|reflexivity].
  now rewrite lookup_insert_ne.
Qed.

Lemma parse_command_no_shape t :
  identify_shape t = None -> parse_command t = Ok (degraded (action_of t) t).
Proof. intros H. unfold parse_command. now rewrite H. Qed.

Lemma parse_command_shape t tag :
  identify_shape t = Some tag ->
  exists f p,
    getattr ("_parse_" +:+ tag) = Some f /\ f t = Ok p /\ good p /\
    parse_command t = Ok (mkParsedCommand (action_of t) (Some tag) (with_color t p) t 0.8).
Proof.
  intros H. pose proof (identify_shape_tag _ _ H) as Htag.
  destruct (shape_parser_good tag t Htag) as (f & p & Hf & Hp & Hg).
  exists f, p. repeat split; try assumption; try apply Hg.
  unfold parse_command. rewrite H, (shape_tag_truthy _ Htag). cbn [negb].
  rewrite Hf, Hp. cbn [bind]. fold (with_color t p). fold (action_of t).
  rewrite bool_decide_eq_false_2; [reflexivity|].
  apply (with_color_good t p Hg).
Qed.

Lemma parse_command_total t : exists pc, parse_command t = Ok pc.
Proof.
  destruct (identify_shape t) as [tag|] eqn:E.
  - destruct (parse_command_shape t tag E) as (f & p & _ & _ & _ & H). eauto.
  - rewrite (parse_command_no_shape t E). eauto.
Qed.

(** ** Actions, shapes and registered parsers *)

Lemma action_tag_truthy t a : identify_action t = Some a -> truthy a = true.
Proof.
  intros H. apply first_keyword_in in H.
  assert (Hall : forallb truthy (map snd ACTION_KEYWORDS) = true) by (vm_compute; reflexivity).
  rewrite forallb_forall in Hall. auto.
Qed.

Lemma action_of_first t tag : first_entry ACTION_KEYWORDS t tag -> action_of t = tag.
Proof.
  intros H. apply first_keyword_some in H. fold (identify_action t) in H.
  unfold action_of. rewrite H. now rewrite (action_tag_truthy _ _ H).
Qed.

Lemma action_of_none t : no_entry ACTION_KEYWORDS t = true -> action_of t = "draw".
Proof.
  intros H. apply first_keyword_none in H. fold (identify_action t) in H.
  unfold action_of. now rewrite H.
Qed.

Lemma identify_shape_none t : identify_shape t = None <-> no_entry SHAPE_KEYWORDS t = true.
Proof. apply first_keyword_none. Qed.

Lemma identify_shape_occurs t :
  no_entry SHAPE_KEYWORDS t = false -> exists tag, identify_shape t = Some tag.
Proof.
  intros H. destruct (identify_shape t) as [tag|] eqn:E; [eauto|].
  apply identify_shape_none in E. congruence.
Qed.

Lemma methods_total name f t : getattr name = Some f -> exists p, f t = Ok p.
Proof.
  unfold getattr, methods. cbn [find fst snd fmap option_fmap option_map].
  repeat match goal with
  | |- context [String.eqb ?a name] => destruct (String.eqb a name)
  end;
  cbn [fmap option_fmap option_map]; intros [= <-];
  first [ apply _parse_generic_ok | apply _parse_save_ok
        | destruct (_parse_line_ok t) as (p & ? & _); eauto; fail
        | destruct (_parse_circle_ok t) as (p & ? & _); eauto; fail
        | destruct (_parse_arc_ok t) as (p & ? & _); eauto; fail
        | destruct (_parse_ellipse_ok t) as (p & ? & _); eauto; fail
        | destruct (_parse_rectangle_ok t) as (p & ? & _); eauto; fail
        | destruct (_parse_polyline_ok t) as (p & ? & _); eauto; fail
        | destruct (_parse_text_ok t) as (p & ? & _); eauto; fail
        | destruct (_parse_dimension_ok t) as (p & ? & _); eauto; fail
        | destruct (_parse_hatch_ok t) as (p & ? & _); eauto; fail ].
Qed.

(** ** The examples of the specification *)

Example extract_coordinates_example :
  extract_coordinates (str "(0,0) (10,20)") = Ok [(Float 0, Float 0); (Float 10, Float 20)].
Proof. vm_compute; reflexivity. Qed.

Example extract_numbers_counts_coordinates :
  extract_numbers (str "circle at (100, 100) radius 50") = Ok [Float 100; Float 100; Float 50].
Proof. vm_compute; reflexivity. Qed.

Example rectangle_defaults :
  reported (str "draw a rectangle") "corner1" = Some (VPoint (Int 0, Int 0)) /\
  reported (str "draw a rectangle") "corner2" = Some (VPoint (Float 100, Float 50)).
Proof. split; vm_compute; reflexivity. Qed.

Example chinese_red_circle :
  identify_shape (str "画一个红色的圆 半径=30") = Some "circle" /\
  reported (str "画一个红色的圆 半径=30") "center" = Some (VPoint (Int 0, Int 0)) /\
  reported (str "画一个红色的圆 半径=30") "radius" = Some (VNum (Float 30)) /\
  reported (str "画一个红色的圆 半径=30") "color" = Some (VNum (Int 1)).
Proof. repeat split; vm_compute; reflexivity. Qed.

(** Floats are rounded as CPython rounds them: [0.1], [0.1 + 0.2] and
    [(0.1 + 0.2) / 2], which is [0.15000000000000002]; a number of 310
    digits is infinite and one below the least positive float is zero. *)
Example float_rounding :
  py_float (str "0.1") = Ok (Fin (3602879701896397 # 36028797018963968)) /\
  fadd (nearest_double 0.1) (nearest_double 0.2) = Fin (1351079888211149 # 4503599627370496) /\
  half (fadd (nearest_double 0.1) (nearest_double 0.2)) =
    Fin (1351079888211149 # 9007199254740992) /\
  py_float (cp "1" :: repeat (cp "0") 309) = Ok (Inf false) /\
  py_float (str "0." ++ repeat (cp "0") 400 ++ str "1") = Ok (Fin 0) /\
  fadd (Inf false) (Inf true) = NaN.
Proof. repeat split; vm_compute; reflexivity. Qed.

(** ** Circle (C1) *)

Lemma _parse_circle_spec t coords numbers :
  extract_coordinates t = Ok coords -> extract_numbers t = Ok numbers ->
  _parse_circle t =
  Ok (<["radius" := VNum (circle_radius t coords numbers)]>
      (<["center" := VPoint (hd origin coords)]> ∅)).
Proof.
  intros Hc Hn. unfold _parse_circle, circle_radius. rewrite Hc, Hn. cbn [bind].
  assert (Hcen : (if nonempty coords then index coords 0 else Ok origin) = Ok (hd origin coords))
    by (destruct coords; reflexivity).
  rewrite Hcen. cbn [bind]. unfold keyword_value.
  destruct (search RADIUS_RE t) as [m|] eqn:E1.
  { destruct (search_keyword_float _ _ _ RADIUS_RE_post E1) as [q ->]. reflexivity. }
  destruct (search RADIUS_CN_RE t) as [m|] eqn:E2.
  { destruct (search_keyword_float _ _ _ RADIUS_CN_RE_post E2) as [q ->]. reflexivity. }
  destruct coords as [|c0 coords].
  - cbn [nonempty andb negb]. destruct numbers; reflexivity.
  - cbn [nonempty andb negb]. replace (length (c0 :: coords) * 2)%nat with (2 * length (c0 :: coords))%nat by lia.
    destruct (2 <? length numbers)%nat eqn:E3.
    + destruct (drop (2 * length (c0 :: coords)) numbers); reflexivity.
    + apply Nat.ltb_ge in E3. rewrite drop_ge by (simpl; lia). reflexivity.
Qed.

(** C1: for every text whose shape is ["circle"], the center is the
    first extracted coordinate pair or (0,0), and the radius follows the
    chain [circle_radius]: the value of the [radius] keyword, else that of
    the [半径] keyword, else the first number left after dropping two
    numbers per coordinate pair when there are coordinates, else the first
    number when there are no coordinates, else 50.  The command of the
    specification's example parses to a circle at (100.0, 100.0) of radius
    50.0. *)
Theorem C1_circle_parameters :
  (forall t, identify_shape t = Some "circle" ->
     exists pc coords numbers,
       parse_command t = Ok pc /\
       extract_coordinates t = Ok coords /\ extract_numbers t = Ok numbers /\
       parameters pc !! "center" = Some (VPoint (hd origin coords)) /\
       parameters pc !! "radius" = Some (VNum (circle_radius t coords numbers))) /\
  parse_command (str "draw a circle at (100, 100) with radius 50") =
  Ok (mkParsedCommand "draw" (Some "circle")
        (<["radius" := VNum (Float 50)]> (<["center" := VPoint (Float 100, Float 100)]> ∅))
        (str "draw a circle at (100, 100) with radius 50") 0.8).
Proof.
  split; [|vm_compute; reflexivity].
  intros t H.
  destruct (parse_command_shape t _ H) as (f & p & Hf & Hp & _ & ->).
  destruct (extract_coordinates_ok t) as [coords Hc].
  destruct (extract_numbers_ok t) as [numbers Hn].
  eexists. exists coords, numbers. split; [reflexivity|]. split; [exact Hc|]. split; [exact Hn|].
  change (getattr ("_parse_" +:+ "circle")) with (Some _parse_circle) in Hf.
  inversion Hf; subst f.
  rewrite (_parse_circle_spec t coords numbers Hc Hn) in Hp. inversion Hp; subst p.
  cbn [parameters]. rewrite !with_color_other by discriminate.
  split; reflexivity.
Qed.

Lemma C1_witness :
  identify_shape (str "circle (1,2) 7") = Some "circle" /\
  exists pc coords numbers,
    parse_command (str "circle (1,2) 7") = Ok pc /\
    extract_coordinates (str "circle (1,2) 7") = Ok coords /\
    extract_numbers (str "circle (1,2) 7") = Ok numbers /\
    parameters pc !! "center" = Some (VPoint (hd origin coords)) /\
    parameters pc !! "radius" = Some (VNum (circle_radius (str "circle (1,2) 7") coords numbers)).
Proof.
  split; [vm_compute; reflexivity|].
  apply (proj1 C1_circle_parameters (str "circle (1,2) 7")). vm_compute; reflexivity.
Defined.

(** ** The degraded result (C2) *)

(** C2: for every text in which no shape surface form occurs,
    [parse_command] returns a command with no shape, an empty parameter
    dictionary, the input as [raw_text] and confidence 0.3; its action is
    the tag of the first action keyword that occurs, or ["draw"] when no
    action keyword occurs. *)
Theorem C2_no_shape_degraded (t : text) :
  no_entry SHAPE_KEYWORDS t = true ->
  exists pc,
    parse_command t = Ok pc /\
    shape pc = None /\ parameters pc = ∅ /\ raw_text pc = t /\ confidence pc = 0.3%Q /\
    (forall tag, first_entry ACTION_KEYWORDS t tag -> action pc = tag) /\
    (no_entry ACTION_KEYWORDS t = true -> action pc = "draw").
Proof.
  intros H. apply identify_shape_none in H.
  exists (degraded (action_of t) t). split; [now apply parse_command_no_shape|].
  repeat split; try reflexivity.
  - intros tag Htag. simpl. now apply action_of_first.
  - intros Hn. simpl. now apply action_of_none.
Qed.

Lemma C2_witness :
  no_entry SHAPE_KEYWORDS (str "please save it") = true /\
  exists pc,
    parse_command (str "please save it") = Ok pc /\
    shape pc = None /\ parameters pc = ∅ /\ raw_text pc = str "please save it" /\
    confidence pc = 0.3%Q /\
    (forall tag, first_entry ACTION_KEYWORDS (str "please save it") tag -> action pc = tag) /\
    (no_entry ACTION_KEYWORDS (str "please save it") = true -> action pc = "draw").
Proof.
  split; [vm_compute; reflexivity|].
  apply (C2_no_shape_degraded (str "please save it")). vm_compute; reflexivity.
Defined.

(** ** Arc (C3) *)

Lemma _parse_arc_spec t coords :
  extract_coordinates t = Ok coords ->
  exists p,
    _parse_arc t = Ok p /\
    p !! "center" = Some (VPoint (hd origin coords)) /\
    p !! "radius" =
      Some (VNum (match keyword_value RADIUS_RE t with Some q => Float q | None => Int 50 end)) /\
    p !! "start_angle" = Some (VNum (arc_angle START_RE START_CN_RE 0 t)) /\
    p !! "end_angle" = Some (VNum (arc_angle END_RE END_CN_RE 90 t)).
Proof.
  intros Hc. unfold _parse_arc, arc_angle. rewrite Hc. cbn [bind].
  destruct (extract_numbers_ok t) as [numbers ->]. cbn [bind].
  assert (Hcen : (if nonempty coords then index coords 0 else Ok origin) = Ok (hd origin coords))
    by (destruct coords; reflexivity).
  rewrite Hcen. cbn [bind].
  rewrite (set_float_spec RADIUS_RE) by auto with kwpat. cbn [bind].
  rewrite (set_float_spec START_RE) by auto with kwpat. cbn [bind].
  rewrite (set_float_spec END_RE) by auto with kwpat. cbn [bind].
  rewrite (set_float_spec START_CN_RE) by auto with kwpat. cbn [bind].
  rewrite (set_float_spec END_CN_RE) by auto with kwpat. cbn [bind].
  eexists; split; [reflexivity|].
  destruct (keyword_value RADIUS_RE t), (keyword_value START_RE t), (keyword_value END_RE t),
    (keyword_value START_CN_RE t), (keyword_value END_CN_RE t);
    repeat split; reflexivity.
Qed.

(** C3, as amended: for every text whose shape is ["arc"], the center
    is the first extracted coordinate pair or (0,0); the radius is the
    value of the English [radius] keyword when that keyword matches, and
    50 when neither the English nor the Chinese radius keyword matches,
    whatever numbers the text holds besides; each angle is the value of its
    Chinese keyword if that matches, else the value of its English keyword,
    else the default 0 (start) or 90 (end). *)
Theorem C3_arc_parameters (t : text) :
  identify_shape t = Some "arc" ->
  exists pc coords,
    parse_command t = Ok pc /\ extract_coordinates t = Ok coords /\
    parameters pc !! "center" = Some (VPoint (hd origin coords)) /\
    (forall q, keyword_value RADIUS_RE t = Some q ->
       parameters pc !! "radius" = Some (VNum (Float q))) /\
    (keyword_value RADIUS_RE t = None -> keyword_value RADIUS_CN_RE t = None ->
       parameters pc !! "radius" = Some (VNum (Int 50))) /\
    parameters pc !! "start_angle" = Some (VNum (arc_angle START_RE START_CN_RE 0 t)) /\
    parameters pc !! "end_angle" = Some (VNum (arc_angle END_RE END_CN_RE 90 t)).
Proof.
  intros H.
  destruct (parse_command_shape t _ H) as (f & p & Hf & Hp & _ & ->).
  destruct (extract_coordinates_ok t) as [coords Hc].
  eexists. exists coords. split; [reflexivity|]. split; [exact Hc|].
  change (getattr ("_parse_" +:+ "arc")) with (Some _parse_arc) in Hf.
  inversion Hf; subst f.
  destruct (_parse_arc_spec t coords Hc) as (p' & Hp' & Hcen & Hrad & Hstart & Hend).
  rewrite Hp' in Hp. inversion Hp; subst p'.
  cbn [parameters]. rewrite !with_color_other by discriminate.
  split; [exact Hcen|]. split; [|split; [|split; [exact Hstart|exact Hend]]].
  - intros q Hq. now rewrite Hrad, Hq.
  - intros Hq _. now rewrite Hrad, Hq.
Qed.

Lemma C3_witness :
  identify_shape (str "arc (5,5) start 10 起始角 30") = Some "arc" /\
  exists pc coords,
    parse_command (str "arc (5,5) start 10 起始角 30") = Ok pc /\
    extract_coordinates (str "arc (5,5) start 10 起始角 30") = Ok coords /\
    parameters pc !! "center" = Some (VPoint (hd origin coords)) /\
    (forall q, keyword_value RADIUS_RE (str "arc (5,5) start 10 起始角 30") = Some q ->
       parameters pc !! "radius" = Some (VNum (Float q))) /\
    (keyword_value RADIUS_RE (str "arc (5,5) start 10 起始角 30") = None ->
     keyword_value RADIUS_CN_RE (str "arc (5,5) start 10 起始角 30") = None ->
       parameters pc !! "radius" = Some (VNum (Int 50))) /\
    parameters pc !! "start_angle" =
      Some (VNum (arc_angle START_RE START_CN_RE 0 (str "arc (5,5) start 10 起始角 30"))) /\
    parameters pc !! "end_angle" =
      Some (VNum (arc_angle END_RE END_CN_RE 90 (str "arc (5,5) start 10 起始角 30"))).
Proof.
  split; [vm_compute; reflexivity|].
  apply (C3_arc_parameters (str "arc (5,5) start 10 起始角 30")). vm_compute; reflexivity.
Defined.

(** C3 as the specification states it fails: the text below has the shape ["arc"], one
    coordinate pair and a third number; the chain of the circle gives the
    radius 30.0, the arc parser returns the default 50. *)
Lemma C3_counterexample :
  identify_shape (str "arc (10,20) 30") = Some "arc" /\
  extract_coordinates (str "arc (10,20) 30") = Ok [(Float 10, Float 20)] /\
  extract_numbers (str "arc (10,20) 30") = Ok [Float 10; Float 20; Float 30] /\
  circle_radius (str "arc (10,20) 30") [(Float 10, Float 20)] [Float 10; Float 20; Float 30]
    = Float 30 /\
  exists pc,
    parse_command (str "arc (10,20) 30") = Ok pc /\
    parameters pc !! "radius" = Some (VNum (Int 50)).
Proof.
  repeat split; try (vm_compute; reflexivity).
  eexists; split; vm_compute; reflexivity.
Qed.

(** The arc parser has no pattern for the Chinese radius keyword that the
    circle parser reads. *)
Example arc_chinese_radius :
  identify_shape (str "画弧 半径=30") = Some "arc" /\
  reported (str "画弧 半径=30") "radius" = Some (VNum (Int 50)) /\
  identify_shape (str "画圆 半径=30") = Some "circle" /\
  reported (str "画圆 半径=30") "radius" = Some (VNum (Float 30)).
Proof. repeat split; vm_compute; reflexivity. Qed.

(** ** Quoted text (C4) *)

(** Greedy repetition: when the class matches all of [pre] and stops at
    the head of [s], and the continuation succeeds at [s], the repetition
    consumes [pre]. *)
Lemma star_greedy p k pre s c res :
  forallb p pre = true ->
  match s with [] => True | x :: _ => p x = false end ->
  k s c = Some res ->
  star p k (pre ++ s) c = Some res.
Proof.
  intros Hpre Hs Hk. induction pre as [|x pre IH]; simpl.
  - destruct s as [|y s]; simpl; [exact Hk|]. now rewrite Hs.
  - simpl in Hpre. apply andb_prop in Hpre as [Hx Hpre]. now rewrite Hx, (IH Hpre).
Qed.

(** One span [o body c] at the head of a text, for the pattern
    [o (body+) c] with the group [n] around the body. *)
Lemma span_at_head (po pb pc : N -> bool) n k o body c rest caps0 res :
  po o = true -> body <> [] -> forallb pb body = true -> pb c = false -> pc c = true ->
  k rest ((n, body) :: caps0) = Some res ->
  run (seqs [Chr po; Grp n (Plus pb); Chr pc]) k (o :: body ++ c :: rest) caps0 = Some res.
Proof.
  intros Ho Hne Hb Hc Hc' Hk.
  destruct body as [|b body]; [congruence|]. simpl in Hb. apply andb_prop in Hb as [Hb0 Hb].
  cbn [seqs foldr run Plus]. rewrite Ho.
  change ((b :: body) ++ c :: rest) with (b :: (body ++ c :: rest)). cbn [run]. rewrite Hb0.
  apply star_greedy; [exact Hb|exact Hc|].
  cbn [run]. rewrite Hc'.
  replace (take _ _) with (b :: body); [exact Hk|].
  cbn [length]. rewrite length_app. cbn [length].
  replace (S (length body + S (length rest)) - S (length rest))%nat with (S (length body)) by lia.
  cbn [take]. now rewrite take_app_length.
Qed.

Lemma quoted_needs_opener k s c :
  match s with [] => True | x :: _ => opener x = false end ->
  run QUOTED_TEXT_PATTERN k s c = None.
Proof.
  destruct s as [|x s]; intros H; [reflexivity|].
  unfold opener, one_of in H. cbn [existsb] in H.
  apply orb_false_elim in H as [H1 H]. apply orb_false_elim in H as [H2 H].
  apply orb_false_elim in H as [H3 _].
  unfold QUOTED_TEXT_PATTERN. cbn [alts seqs foldr run]. unfold one_of, lit. cbn [existsb].
  rewrite H1, H2. cbn [orb].
  rewrite (N.eqb_sym dquote x), H1, (N.eqb_sym (cp "「") x), H3. reflexivity.
Qed.

Lemma search_from_skip pre s i :
  forallb (fun x => negb (opener x)) pre = true ->
  search_from QUOTED_TEXT_PATTERN (pre ++ s) i =
  search_from QUOTED_TEXT_PATTERN s (i + length pre).
Proof.
  revert i. induction pre as [|x pre IH]; intros i H.
  - simpl. now rewrite Nat.add_0_r.
  - simpl in H. apply andb_prop in H as [Hx H]. apply negb_true_iff in Hx.
    cbn [app search_from]. unfold match_here. rewrite quoted_needs_opener by exact Hx.
    rewrite (IH (S i) H). f_equal. cbn [length]. lia.
Qed.

Lemma quoted_no_opener t :
  forallb (fun x => negb (opener x)) t = true -> extract_quoted_text t = None.
Proof.
  intros H. unfold extract_quoted_text, search.
  rewrite <- (app_nil_r t), (search_from_skip t [] 0 H). cbn [search_from].
  unfold match_here. now rewrite quoted_needs_opener.
Qed.

Lemma quoted_leftmost pre o body c rest :
  forallb (fun x => negb (opener x)) pre = true ->
  body <> [] ->
  (straight o = true /\ straight c = true /\ forallb (none_of [dquote; squote]) body = true) \/
  (o = cp "「" /\ c = cp "」" /\ forallb (none_of [cp "」"]) body = true) ->
  extract_quoted_text (pre ++ o :: body ++ c :: rest) = Some body.
Proof.
  intros Hpre Hne Hspan. unfold extract_quoted_text, search.
  rewrite (search_from_skip pre _ 0 Hpre).
  assert (Hrun : exists n,
    run QUOTED_TEXT_PATTERN accept (o :: body ++ c :: rest) [] = Some (rest, [(n, body)]) /\
    (n = 1 \/ n = 3)%nat).
  { unfold QUOTED_TEXT_PATTERN. cbn [alts run].
    destruct Hspan as [(Ho & Hc & Hb) | (-> & -> & Hb)].
    - exists 1%nat. split; [|now left].
      rewrite (span_at_head _ _ _ 1 accept o body c rest [] (rest, [(1%nat, body)]));
        try assumption; try reflexivity.
      unfold none_of. fold (straight c). now rewrite Hc.
    - exists 3%nat. split; [|now right].
      assert (H1 : run (seqs [Chr (one_of [dquote; squote]); Grp 1 (Plus (none_of [dquote; squote]));
                              Chr (one_of [dquote; squote])]) accept
                     (cp "「" :: body ++ cp "」" :: rest) [] = None) by reflexivity.
      assert (H2 : run (seqs [Chr (lit dquote); Grp 2 (Plus (none_of [dquote])); Chr (lit dquote)])
                     accept (cp "「" :: body ++ cp "」" :: rest) [] = None) by reflexivity.
      rewrite H1, H2.
      apply span_at_head; try assumption; reflexivity. }
  destruct Hrun as (n & Hrun & Hn).
  destruct (o :: body ++ c :: rest) as [|y s] eqn:Es; [discriminate|].
  cbn [search_from]. unfold match_here. rewrite Hrun.
  destruct body as [|b body]; [congruence|].
  destruct Hn as [-> | ->]; reflexivity.
Qed.

(** C4, as amended: [extract_quoted_text] returns the span of the
    leftmost match.  When no quote and no opening corner bracket precedes a
    delimiter that opens a span -- a straight quote, one or more code
    points that are not straight quotes, a straight quote; or an opening
    corner bracket, one or more code points other than the closing bracket,
    the closing bracket -- that span is returned, whatever follows it; the
    order double, single, corner decides only between alternatives that
    match at one position.  A text with no straight quote and no opening
    corner bracket has no quoted text. *)
Theorem C4_leftmost_span_wins :
  (forall pre o body c rest,
     forallb (fun x => negb (opener x)) pre = true ->
     body <> [] ->
     (straight o = true /\ straight c = true /\
      forallb (none_of [dquote; squote]) body = true) \/
     (o = cp "「" /\ c = cp "」" /\ forallb (none_of [cp "」"]) body = true) ->
     extract_quoted_text (pre ++ o :: body ++ c :: rest) = Some body) /\
  (forall t, forallb (fun x => negb (opener x)) t = true -> extract_quoted_text t = None).
Proof. split; [exact quoted_leftmost | exact quoted_no_opener]. Qed.

Lemma C4_witness :
  forallb (fun x => negb (opener x)) (str "label ") = true /\
  str "A1" <> [] /\
  ((straight (cp "「") = true /\ straight (cp "」") = true /\
    forallb (none_of [dquote; squote]) (str "A1") = true) \/
   (cp "「" = cp "「" /\ cp "」" = cp "」" /\ forallb (none_of [cp "」"]) (str "A1") = true)) /\
  extract_quoted_text (str "label " ++ cp "「" :: str "A1" ++ cp "」" :: dquote :: str "B2" ++ [dquote])
    = Some (str "A1").
Proof.
  assert (H1 : forallb (fun x => negb (opener x)) (str "label ") = true) by reflexivity.
  assert (H2 : str "A1" <> []) by discriminate.
  assert (H3 : (straight (cp "「") = true /\ straight (cp "」") = true /\
                forallb (none_of [dquote; squote]) (str "A1") = true) \/
               (cp "「" = cp "「" /\ cp "」" = cp "」" /\
                forallb (none_of [cp "」"]) (str "A1") = true))
    by (right; repeat split; reflexivity).
  split; [exact H1|]. split; [exact H2|]. split; [exact H3|].
  exact (proj1 C4_leftmost_span_wins (str "label ") (cp "「") (str "A1") (cp "」")
           (dquote :: str "B2" ++ [dquote]) H1 H2 H3).
Defined.

(** C4 as the specification states it fails: in the text below a span in corner
    brackets precedes a span in double quotes; read by priority the result
    would be the double-quoted [b], the function returns [a]. *)
Lemma C4_counterexample :
  quoted_by_priority (str "「a」 " ++ dquote :: str "b" ++ [dquote]) = Some (str "b") /\
  extract_quoted_text (str "「a」 " ++ dquote :: str "b" ++ [dquote]) = Some (str "a").
Proof. split; vm_compute; reflexivity. Qed.

(** The first alternative of the pattern closes a span at either straight
    quote: inside double quotes an apostrophe ends the span. *)
Example quoted_apostrophe :
  quoted_by_priority (dquote :: str "it's" ++ [dquote]) = Some (str "it's") /\
  extract_quoted_text (dquote :: str "it's" ++ [dquote]) = Some (str "it").
Proof. split; vm_compute; reflexivity. Qed.

(** ** First entry in table order (C5) *)

(** C5: [identify_action] and [identify_shape] search the lower-cased
    text for the lower-cased surface forms and return the tag of the first
    entry, in the order of the table, whose surface form occurs; they
    return [None] exactly when no surface form occurs.  The match is not
    the longest one: every text in which ["polyline"] occurs has shape
    ["line"], the tag of the first entry of the table. *)
Theorem C5_first_entry_in_table_order :
  (forall t tag, identify_shape t = Some tag <-> first_entry SHAPE_KEYWORDS t tag) /\
  (forall t, identify_shape t = None <-> no_entry SHAPE_KEYWORDS t = true) /\
  (forall t tag, identify_action t = Some tag <-> first_entry ACTION_KEYWORDS t tag) /\
  (forall t, identify_action t = None <-> no_entry ACTION_KEYWORDS t = true) /\
  (forall t, occurs "polyline" t = true -> identify_shape t = Some "line") /\
  identify_shape (str "Draw a POLYLINE") = Some "line".
Proof.
  split; [intros; apply first_keyword_some|].
  split; [intros; apply first_keyword_none|].
  split; [intros; apply first_keyword_some|].
  split; [intros; apply first_keyword_none|].
  split; [|vm_compute; reflexivity].
  intros t H. apply first_keyword_some.
  exists [], "line", (tail SHAPE_KEYWORDS). repeat split.
  unfold occurs in *.
  change (py_lower (str "polyline")) with (py_lower (str "poly") ++ py_lower (str "line")) in H.
  now apply contains_app_r in H.
Qed.

Lemma C5_witness :
  occurs "polyline" (str "closed polyline (0,0) (5,5)") = true /\
  identify_shape (str "closed polyline (0,0) (5,5)") = Some "line".
Proof.
  split; [vm_compute; reflexivity|].
  apply (proj1 (proj2 (proj2 (proj2 (proj2 C5_first_entry_in_table_order))))).
  vm_compute; reflexivity.
Defined.

(** ** Colors (C6) *)



Lemma search_from_none r s i :
  (forall j, (j <= length s)%nat -> run r accept (drop j s) [] = None) ->
  search_from r s i = None.
Proof.
  revert i. induction s as [|x s IH]; intros i H.
  - pose proof (H 0%nat (Nat.le_refl _)) as H0. rewrite drop_0 in H0.
    cbn [search_from]. unfold match_here. now rewrite H0.
  - pose proof (H 0%nat (Nat.le_0_l _)) as H0. rewrite drop_0 in H0.
    cbn [search_from]. unfold match_here. rewrite H0. apply IH.
    intros j Hj. apply (H (S j)). simpl. lia.
Qed.



















(** The search is leftmost: a color name that occurs earlier in the text
    is the one reported. *)
Example color_leftmost_first :
  extract_color (str "红紫红") = Some 1%Z /\ extract_color (str "pink or 紫红") = Some 221%Z.
Proof. split; vm_compute; reflexivity. Qed.

(** ** The save parser is never reached (C7) *)

(** C7: no entry of the shape table has the tag ["save"]; so
    [parse_command] never looks up [_parse_save], no result has the shape
    ["save"], and no parameter dictionary has the key ["file_path"].  A
    text in which a save keyword is the first action keyword and no shape
    surface form occurs takes the degraded path. *)
Theorem C7_save_parser_unreachable :
  forallb (fun e => negb (String.eqb e.2 "save")) SHAPE_KEYWORDS = true /\
  (forall t tag, identify_shape t = Some tag ->
     String.eqb ("_parse_" +:+ tag) "_parse_save" = false) /\
  (forall t, exists pc,
     parse_command t = Ok pc /\
     bool_decide (shape pc = Some "save") = false /\
     parameters pc !! "file_path" = None) /\
  (forall t, first_entry ACTION_KEYWORDS t "save" -> no_entry SHAPE_KEYWORDS t = true ->
     parse_command t = Ok (degraded "save" t)).
Proof.
  split; [vm_compute; reflexivity|].
  split.
  { intros t tag H. apply identify_shape_tag in H. unfold shape_tags in H. simpl in H.
    destruct H as [<-|[<-|[<-|[<-|[<-|[<-|[<-|[<-|[<-|[]]]]]]]]]]; reflexivity. }
  split.
  - intros t. destruct (identify_shape t) as [tag|] eqn:E.
    + destruct (parse_command_shape t tag E) as (f & p & _ & _ & [_ Hfp] & ->).
      eexists; split; [reflexivity|]. simpl. split.
      * apply bool_decide_eq_false_2. intros [= ->].
        apply identify_shape_tag in E. unfold shape_tags in E. simpl in E.
        repeat (destruct E as [E|E]; [discriminate|]). exact E.
      * rewrite with_color_other by discriminate. exact Hfp.
    + rewrite (parse_command_no_shape t E). eexists; split; [reflexivity|]. split; reflexivity.
  - intros t Ha Hs. apply identify_shape_none in Hs.
    rewrite (parse_command_no_shape t Hs). now rewrite (action_of_first t "save" Ha).
Qed.

Lemma C7_witness :
  first_entry ACTION_KEYWORDS (str "salva il file plan.dwg") "save" /\
  no_entry SHAPE_KEYWORDS (str "salva il file plan.dwg") = true /\
  parse_command (str "salva il file plan.dwg") = Ok (degraded "save" (str "salva il file plan.dwg")).
Proof.
  assert (Ha : first_entry ACTION_KEYWORDS (str "salva il file plan.dwg") "save")
    by (apply first_keyword_some; vm_compute; reflexivity).
  assert (Hs : no_entry SHAPE_KEYWORDS (str "salva il file plan.dwg") = true)
    by (vm_compute; reflexivity).
  split; [exact Ha|]. split; [exact Hs|].
  exact (proj2 (proj2 (proj2 C7_save_parser_unreachable)) _ Ha Hs).
Defined.

(** ** Re-parsing (C8) *)

Lemma nearest_double_not_nan x : nearest_double x <> NaN.
Proof.
  unfold nearest_double. cbv zeta.
  destruct (Qnum x =? 0)%Z; [discriminate|].
  match goal with |- (if ?c then _ else _) <> _ => destruct c end; [|discriminate].
  match goal with |- (if ?c then _ else _) <> _ => destruct c end; discriminate.
Qed.

Lemma py_float_not_nan v f : py_float v = Ok f -> f <> NaN.
Proof.
  unfold py_float. destruct (split_sign v) as [neg body].
  destruct (span_digits body) as [ip [|d fp]].
  - destruct (nonempty ip); [|discriminate]. intros [= <-]. apply nearest_double_not_nan.
  - destruct (_ && _); [|discriminate]. intros [= <-]. apply nearest_double_not_nan.
Qed.

Lemma float_group_clean m n f : float_group m n = Ok f -> num_clean (Float f) = true.
Proof.
  unfold float_group. destruct (group m n) as [v|]; [|discriminate].
  intros H. apply py_float_not_nan in H. now destruct f.
Qed.

Lemma coords_of_matches_clean ms coords :
  coords_of_matches ms = Ok coords -> forallb point_clean coords = true.
Proof.
  revert coords. induction ms as [|m ms IH]; intros coords; cbn [coords_of_matches].
  - now intros [= <-].
  - destruct (float_group m 1) as [x|] eqn:Ex; [|discriminate]. cbn [bind].
    destruct (float_group m 2) as [y|] eqn:Ey; [|discriminate]. cbn [bind].
    destruct (coords_of_matches ms) as [rest|]; [|discriminate]. cbn [bind].
    intros [= <-]. cbn [forallb]. unfold point_clean at 1. cbn [fst snd].
    now rewrite (float_group_clean _ _ _ Ex), (float_group_clean _ _ _ Ey), (IH rest).
Qed.

Lemma numbers_of_matches_clean ms numbers :
  numbers_of_matches ms = Ok numbers -> forallb num_clean numbers = true.
Proof.
  revert numbers. induction ms as [|m ms IH]; intros numbers; cbn [numbers_of_matches].
  - now intros [= <-].
  - destruct (float_group m 1) as [x|] eqn:Ex; [|discriminate]. cbn [bind].
    destruct (numbers_of_matches ms) as [rest|]; [|discriminate]. cbn [bind].
    intros [= <-]. cbn [forallb].
    now rewrite (float_group_clean _ _ _ Ex), (IH rest).
Qed.

(** *** A dictionary without NaN *)

Lemma params_clean_spec (p : Params) :
  params_clean p = true <-> map_Forall (fun _ v => value_clean v = true) p.
Proof.
  unfold params_clean. rewrite forallb_forall, map_Forall_to_list, List.Forall_forall.
  split; intros H [k v] Hin; apply (H (k, v) Hin).
Qed.

Lemma params_clean_empty : params_clean ∅ = true.
Proof. reflexivity. Qed.

Lemma params_clean_insert key v (p : Params) :
  value_clean v = true -> params_clean p = true -> params_clean (<[key := v]> p) = true.
Proof.
  rewrite !params_clean_spec. intros Hv Hp. now apply map_Forall_insert_2.
Qed.

Lemma params_clean_lookup (p : Params) key v :
  p !! key = Some v -> value_clean v = false -> params_clean p = false.
Proof.
  intros Hl Hv. destruct (params_clean p) eqn:E; [|reflexivity].
  apply params_clean_spec in E. specialize (E key v Hl). congruence.
Qed.

Lemma index_forallb {A : Type} (P : A -> bool) (l : list A) i x :
  forallb P l = true -> index l i = Ok x -> P x = true.
Proof.
  intros H. unfold index. destruct (l !! i) as [y|] eqn:E; [|discriminate].
  intros [= <-]. rewrite forallb_forall in H. apply H.
  apply list_elem_of_In. eapply list_elem_of_lookup_2. exact E.
Qed.

Lemma forallb_drop {A : Type} (P : A -> bool) n (l : list A) :
  forallb P l = true -> forallb P (drop n l) = true.
Proof.
  revert l. induction n as [|n IH]; intros l H; [now rewrite drop_0|].
  destruct l as [|x l]; [reflexivity|]. cbn [drop]. apply IH.
  cbn [forallb] in H. now apply andb_prop in H as [_ H].
Qed.

Lemma set_float_clean p t key (params params' : Params) :
  params_clean params = true -> set_float p t key params = Ok params' ->
  params_clean params' = true.
Proof.
  intros Hc. unfold set_float. destruct (search p t) as [m|]; [|now intros [= <-]].
  destruct (float_group m 1) as [f|] eqn:E; [|discriminate]. cbn [bind]. intros [= <-].
  apply params_clean_insert; [|exact Hc]. exact (float_group_clean _ _ _ E).
Qed.

Lemma get_float_clean p t x y :
  num_clean (Float x) = true -> get_float p t x = Ok y -> num_clean (Float y) = true.
Proof.
  intros Hx. unfold get_float. destruct (search p t) as [m|]; [|now intros [= <-]].
  apply float_group_clean.
Qed.

Lemma center_clean (coords : list point) center :
  forallb point_clean coords = true ->
  (if nonempty coords then index coords 0 else Ok origin) = Ok center ->
  point_clean center = true.
Proof.
  intros H. destruct (nonempty coords); [now apply index_forallb|]. now intros [= <-].
Qed.

(** *** The parsers

    Every parser but that of a dimension stores what [float] returned or
    a constant of the program, and [float] returns no NaN. *)

Ltac clean_value :=
  cbn [value_clean];
  first [ assumption
        | reflexivity
        | unfold point_clean; cbn [fst snd];
          repeat match goal with
                 | H : _ = true |- _ => rewrite H
                 end;
          reflexivity ].

Ltac clean_inserts :=
  repeat (apply params_clean_insert; [clean_value|]); exact params_clean_empty.

Ltac learn E :=
  first
    [ apply coords_of_matches_clean in E
    | apply numbers_of_matches_clean in E
    | apply float_group_clean in E
    | match type of E with
      | index (drop ?n ?l) _ = Ok _ =>
          match goal with
          | H : forallb ?P l = true |- _ =>
              apply (index_forallb P _ _ _ (forallb_drop P n l H)) in E
          end
      | index ?l _ = Ok _ =>
          match goal with
          | H : forallb ?P l = true |- _ => apply (index_forallb P _ _ _ H) in E
          end
      | set_float _ _ _ ?params = Ok _ =>
          let H := fresh "H" in
          assert (H : params_clean params = true) by (first [assumption | clean_inserts]);
          apply (set_float_clean _ _ _ _ _ H) in E
      | get_float _ _ ?x = Ok _ =>
          let H := fresh "H" in
          assert (H : num_clean (Float x) = true) by (first [assumption | reflexivity]);
          apply (get_float_clean _ _ _ _ H) in E
      | (if nonempty _ then index _ 0 else Ok origin) = Ok _ =>
          apply center_clean in E; [|assumption]
      end
    | idtac ].

Ltac crunch :=
  repeat match goal with
         | |- bind ?m _ = Ok _ -> _ =>
             let x := fresh "x" in let E := fresh "E" in
             destruct m as [x|] eqn:E; [|discriminate]; cbn [bind]; learn E
         | |- (let _ := _ in _) = Ok _ -> _ => cbv zeta
         | |- (if ?c then _ else _) = Ok _ -> _ => destruct c
         | |- match ?c with Some _ => _ | None => _ end = Ok _ -> _ =>
             let E := fresh "E" in destruct c eqn:E
         | |- Ok _ = Ok _ -> _ => intros [= <-]
         | |- Raise _ = Ok _ -> _ => discriminate
         end.

Lemma _parse_line_clean t p : _parse_line t = Ok p -> params_clean p = true.
Proof. unfold _parse_line, extract_coordinates. crunch; clean_inserts. Qed.

Lemma _parse_circle_clean t p : _parse_circle t = Ok p -> params_clean p = true.
Proof.
  unfold _parse_circle, extract_coordinates, extract_numbers. crunch; clean_inserts.
Qed.

Lemma _parse_arc_clean t p : _parse_arc t = Ok p -> params_clean p = true.
Proof. unfold _parse_arc, extract_coordinates, extract_numbers. crunch; assumption. Qed.

Lemma _parse_ellipse_clean t p : _parse_ellipse t = Ok p -> params_clean p = true.
Proof. unfold _parse_ellipse, extract_coordinates, extract_numbers. crunch; assumption. Qed.

Lemma _parse_rectangle_clean t p : _parse_rectangle t = Ok p -> params_clean p = true.
Proof.
  unfold _parse_rectangle, extract_coordinates, extract_numbers. crunch; clean_inserts.
Qed.

Lemma _parse_polyline_clean t p : _parse_polyline t = Ok p -> params_clean p = true.
Proof. unfold _parse_polyline, extract_coordinates. crunch; clean_inserts. Qed.

Lemma _parse_text_clean t p : _parse_text t = Ok p -> params_clean p = true.
Proof.
  unfold _parse_text, extract_coordinates. crunch; assumption.
Qed.

Lemma _parse_hatch_clean t p : _parse_hatch t = Ok p -> params_clean p = true.
Proof.
  unfold _parse_hatch, extract_coordinates.
  destruct (coords_of_matches (finditer COORD_PATTERN t)) as [coords|] eqn:Ec; [|discriminate].
  apply coords_of_matches_clean in Ec. cbn [bind].
  assert (Hb : forallb point_clean
                 (if (3 <=? length coords)%nat then coords
                  else [origin; (Int 100, Int 0); (Int 100, Int 100); (Int 0, Int 100)]) = true)
    by (destruct (3 <=? length coords)%nat; [exact Ec|reflexivity]).
  revert Hb. generalize (if (3 <=? length coords)%nat then coords
                  else [origin; (Int 100, Int 0); (Int 100, Int 100); (Int 0, Int 100)]).
  intros boundary Hb.
  destruct (search PATTERN_RE t) as [m|].
  - destruct (group m 1) as [g|]; [|discriminate]. cbn [bind]. crunch. assumption.
  - cbn [bind]. crunch. assumption.
Qed.

(** *** The parser of a dimension

    The text position of a dimension between two points is computed:
    the sum of two infinities of opposite signs is NaN. *)

Lemma num_clean_false n : num_clean n = false <-> n = Float NaN.
Proof. destruct n as [z|[q|s|]]; cbn; split; congruence. Qed.

Lemma as_float_clean n : num_clean n = true -> as_float n <> NaN.
Proof.
  destruct n as [z|f]; cbn [as_float]; [intros _; apply nearest_double_not_nan|].
  destruct f; cbn; congruence.
Qed.

Lemma fadd_nan (a b : num) :
  num_clean a = true -> num_clean b = true ->
  fadd (as_float a) (as_float b) = NaN <-> cancel a b = true.
Proof.
  intros Ha Hb. apply as_float_clean in Ha. apply as_float_clean in Hb. unfold cancel.
  destruct (as_float a) as [x|s|], (as_float b) as [y|s'|]; try congruence; cbn [fadd].
  - split; [intros H; now apply nearest_double_not_nan in H|discriminate].
  - split; discriminate.
  - split; discriminate.
  - destruct s, s'; cbn; split; congruence.
Qed.

Lemma half_nan f : half f = NaN <-> f = NaN.
Proof.
  destruct f; cbn [half]; split; try congruence.
  intros H. now apply nearest_double_not_nan in H.
Qed.

Lemma fadd_ten_nan f : fadd f 10 = NaN <-> f = NaN.
Proof.
  destruct f; cbn [fadd]; split; try congruence.
  intros H. now apply nearest_double_not_nan in H.
Qed.

Lemma midpoint_clean (c0 c1 : point) :
  point_clean c0 = true -> point_clean c1 = true ->
  point_clean (Float (half (fadd (as_float c0.1) (as_float c1.1))),
               Float (fadd (half (fadd (as_float c0.2) (as_float c1.2))) 10)) = false <->
  cancel c0.1 c1.1 || cancel c0.2 c1.2 = true.
Proof.
  unfold point_clean. intros H0 H1.
  apply andb_prop in H0 as [H0x H0y]. apply andb_prop in H1 as [H1x H1y]. cbn [fst snd].
  rewrite andb_false_iff, orb_true_iff, !num_clean_false.
  rewrite <- (fadd_nan _ _ H0x H1x), <- (fadd_nan _ _ H0y H1y).
  rewrite <- (half_nan (fadd (as_float c0.1) (as_float c1.1))).
  rewrite <- (half_nan (fadd (as_float c0.2) (as_float c1.2))).
  rewrite <- (fadd_ten_nan (half (fadd (as_float c0.2) (as_float c1.2)))).
  split; (intros [H|H]; [left|right]; congruence).
Qed.

Lemma _parse_dimension_clean t p :
  _parse_dimension t = Ok p ->
  (params_clean p = false ->
   exists c0 c1, extract_coordinates t = Ok [c0; c1] /\
                 cancel c0.1 c1.1 || cancel c0.2 c1.2 = true) /\
  ((exists c0 c1, extract_coordinates t = Ok [c0; c1] /\
                  cancel c0.1 c1.1 || cancel c0.2 c1.2 = true) ->
   exists v, p !! "text_position" = Some v /\ value_clean v = false).
Proof.
  unfold _parse_dimension. destruct (extract_coordinates t) as [coords|] eqn:Ec; [|discriminate].
  pose proof Ec as Hc. unfold extract_coordinates in Hc. apply coords_of_matches_clean in Hc.
  cbn [bind]. destruct coords as [|c0 [|c1 [|c2 r]]]; pysimpl; intros [= <-].
  - split; [|intros (? & ? & [=] & _)].
    intros H. exfalso. revert H. apply not_false_iff_true. clean_inserts.
  - split; [|intros (? & ? & [=] & _)].
    intros H. exfalso. revert H. apply not_false_iff_true.
    cbn [forallb] in Hc. apply andb_prop in Hc as [H0 _]. clean_inserts.
  - cbn [forallb] in Hc. apply andb_prop in Hc as [H0 Hc]. apply andb_prop in Hc as [H1 _].
    pose proof (midpoint_clean c0 c1 H0 H1) as Hmid.
    split.
    + intros H. exists c0, c1. split; [reflexivity|]. apply Hmid.
      match goal with
      | |- point_clean ?m = false => destruct (point_clean m) eqn:Em; [|reflexivity]
      end.
      exfalso. revert H. apply not_false_iff_true. clean_inserts.
    + intros (d0 & d1 & [= <- <-] & Hcancel). eexists. split; [apply lookup_insert_eq|].
      cbn [value_clean]. now apply Hmid.
  - split; [|intros (? & ? & [=] & _)].
    intros H. exfalso. revert H. apply not_false_iff_true.
    cbn [forallb] in Hc. apply andb_prop in Hc as [H0 Hc]. apply andb_prop in Hc as [H1 Hc].
    apply andb_prop in Hc as [H2 _]. clean_inserts.
Qed.

(** Which parser can store a NaN, and where. *)
Lemma shape_parser_clean tag t :
  In tag shape_tags ->
  exists f, getattr ("_parse_" +:+ tag) = Some f /\
    forall p, f t = Ok p ->
      (params_clean p = false ->
       tag = "dimension" /\
       exists c0 c1, extract_coordinates t = Ok [c0; c1] /\
                     cancel c0.1 c1.1 || cancel c0.2 c1.2 = true) /\
      (tag = "dimension" ->
       (exists c0 c1, extract_coordinates t = Ok [c0; c1] /\
                      cancel c0.1 c1.1 || cancel c0.2 c1.2 = true) ->
       exists v, p !! "text_position" = Some v /\ value_clean v = false).
Proof.
  unfold shape_tags. simpl.
  intros [<-|[<-|[<-|[<-|[<-|[<-|[<-|[<-|[<-|[]]]]]]]]]].
  - exists _parse_line. split; [reflexivity|]. intros p Hp.
    split; [rewrite (_parse_line_clean t p Hp)|]; discriminate.
  - exists _parse_circle. split; [reflexivity|]. intros p Hp.
    split; [rewrite (_parse_circle_clean t p Hp)|]; discriminate.
  - exists _parse_arc. split; [reflexivity|]. intros p Hp.
    split; [rewrite (_parse_arc_clean t p Hp)|]; discriminate.
  - exists _parse_ellipse. split; [reflexivity|]. intros p Hp.
    split; [rewrite (_parse_ellipse_clean t p Hp)|]; discriminate.
  - exists _parse_rectangle. split; [reflexivity|]. intros p Hp.
    split; [rewrite (_parse_rectangle_clean t p Hp)|]; discriminate.
  - exists _parse_polyline. split; [reflexivity|]. intros p Hp.
    split; [rewrite (_parse_polyline_clean t p Hp)|]; discriminate.
  - exists _parse_text. split; [reflexivity|]. intros p Hp.
    split; [rewrite (_parse_text_clean t p Hp)|]; discriminate.
  - exists _parse_dimension. split; [reflexivity|]. intros p Hp.
    destruct (_parse_dimension_clean t p Hp) as [H1 H2]. split; [auto|]. intros _. exact H2.
  - exists _parse_hatch. split; [reflexivity|]. intros p Hp.
    split; [rewrite (_parse_hatch_clean t p Hp)|]; discriminate.
Qed.

(** *** A result compared with itself *)

Lemma forallb_ext_in {A : Type} (f g : A -> bool) (l : list A) :
  (forall x, In x l -> f x = g x) -> forallb f l = forallb g l.
Proof.
  induction l as [|x l IH]; intros H; [reflexivity|]. cbn [forallb].
  rewrite (H x (or_introl eq_refl)), IH; [reflexivity|]. intros y Hy. apply H. now right.
Qed.

Lemma num_eq_refl n : num_eq n n = num_clean n.
Proof.
  destruct n as [z|[q|s|]]; cbn.
  - apply Z.eqb_refl.
  - apply Qeq_bool_iff. reflexivity.
  - now destruct s.
  - reflexivity.
Qed.

Lemma point_eq_refl p : point_eq p p = point_clean p.
Proof. unfold point_eq, point_clean. now rewrite !num_eq_refl. Qed.

Lemma points_eq_refl l : points_eq l l = forallb point_clean l.
Proof.
  induction l as [|p l IH]; [reflexivity|]. cbn [points_eq forallb].
  now rewrite point_eq_refl, IH.
Qed.

Lemma value_eq_refl v : value_eq v v = value_clean v.
Proof.
  destruct v as [n|p|l|s|b]; cbn [value_eq value_clean].
  - apply num_eq_refl.
  - apply point_eq_refl.
  - apply points_eq_refl.
  - now apply bool_decide_eq_true.
  - now destruct b.
Qed.

Lemma params_eq_refl (p : Params) : params_eq p p = params_clean p.
Proof.
  unfold params_eq, params_clean. rewrite Nat.eqb_refl. cbn [andb].
  apply forallb_ext_in. intros [k v] Hin. cbn [fst snd].
  apply list_elem_of_In, elem_of_map_to_list in Hin. rewrite Hin. apply value_eq_refl.
Qed.

Lemma command_eq_refl pc : command_eq pc pc = params_clean (parameters pc).
Proof.
  unfold command_eq. rewrite String.eqb_refl, params_eq_refl.
  rewrite !bool_decide_eq_true_2 by reflexivity.
  rewrite (proj2 (Qeq_bool_iff _ _) (Qeq_refl _)).
  now destruct (params_clean (parameters pc)).
Qed.

Lemma with_color_clean t (p : Params) :
  params_clean p = true -> params_clean (with_color t p) = true.
Proof.
  intros H. unfold with_color. destruct (extract_color t); [|exact H].
  now apply params_clean_insert.
Qed.

(** C8: [parse_command] returns for every text; the [raw_text] of the
    result is the input, and parsing that [raw_text] again computes the
    same result.  The two results compare equal with [==] unless a NaN
    is among the parameters, which is the case exactly when the shape is a
    dimension, just two coordinate pairs are found, and their abscissas or
    their ordinates are infinities of opposite signs, so that the text
    position, computed from their sum, is NaN. *)
Theorem C8_reparse_raw_text (t : text) :
  exists pc,
    parse_command t = Ok pc /\ raw_text pc = t /\ parse_command (raw_text pc) = Ok pc /\
    (command_eq pc pc = false <->
     shape pc = Some "dimension" /\
     exists c0 c1, extract_coordinates t = Ok [c0; c1] /\
                   cancel c0.1 c1.1 || cancel c0.2 c1.2 = true).
Proof.
  destruct (identify_shape t) as [tag|] eqn:E.
  - destruct (parse_command_shape t tag E) as (f & p & Hf & Hp & _ & H).
    destruct (shape_parser_clean tag t (identify_shape_tag _ _ E)) as (f' & Hf' & Hclean).
    rewrite Hf in Hf'. inversion Hf'; subst f'. destruct (Hclean p Hp) as [Hfrom Hto].
    eexists; split; [exact H|]. split; [reflexivity|]. split; [exact H|].
    rewrite command_eq_refl. cbn [parameters shape]. split.
    + intros Hno. destruct (params_clean p) eqn:Ep.
      * rewrite (with_color_clean t p Ep) in Hno. discriminate.
      * destruct (Hfrom eq_refl) as [-> Hex]. auto.
    + intros [[= Htag] Hex]. destruct (Hto Htag Hex) as (v & Hv & Hbad).
      apply (params_clean_lookup _ "text_position" v); [|exact Hbad].
      rewrite with_color_other by discriminate. exact Hv.
  - pose proof (parse_command_no_shape t E) as H.
    eexists; split; [exact H|]. split; [reflexivity|]. split; [exact H|].
    rewrite command_eq_refl. cbn [parameters shape degraded].
    split; [discriminate|]. intros [[=] _].
Qed.

(** C8 as the specification states it fails: in the text below the
    abscissas of the two points are a one followed by 309 zeros and its
    negative, which [float] turns into the two infinities; the text
    position of the dimension is computed from their sum and is
    [(nan, 10.0)]; the result of parsing the [raw_text] again is not equal
    to the first result. *)
Lemma C8_counterexample :
  extract_coordinates overflowing_dimension =
    Ok [(Float (Inf false), Float 0); (Float (Inf true), Float 0)] /\
  (pc <- parse_command overflowing_dimension;;
   pc' <- parse_command (raw_text pc);;
   Ok (shape pc, parameters pc !! "text_position", command_eq pc' pc)) =
  Ok (Some "dimension", Some (VPoint (Float NaN, Float 10)), false).
Proof. split; vm_compute; reflexivity. Qed.
(** ** Totality (C9) *)

Lemma number_patterns_post p : In p number_patterns -> post p one_number.
Proof.
  unfold number_patterns. simpl.
  intros H. repeat (destruct H as [<-|H]; [auto with kwpat|]). destruct H.
Qed.

(** C9: [parse_command] returns a command for every text and raises
    nothing; a text without a recognised shape gets the defaults (no
    shape, no parameters) and the lowest confidence; every parser that
    [getattr] can find returns; and every string that the parser hands to
    [float] -- the groups of each match of [COORD_PATTERN],
    [NUMBER_PATTERN] and the keyword patterns -- converts. *)
Theorem C9_parse_command_total :
  (forall t, exists pc,
     parse_command t = Ok pc /\
     (confidence pc = 0.3%Q \/ confidence pc = 0.8%Q) /\
     (identify_shape t = None ->
      shape pc = None /\ parameters pc = ∅ /\ confidence pc = 0.3%Q)) /\
  (forall name f t, getattr name = Some f -> exists p, f t = Ok p) /\
  (forall t, Forall (fun m => exists x y, float_group m 1 = Ok x /\ float_group m 2 = Ok y)
               (finditer COORD_PATTERN t)) /\
  (forall t, Forall (fun m => exists x, float_group m 1 = Ok x) (finditer NUMBER_PATTERN t)) /\
  (forall p t m, In p number_patterns -> search p t = Some m ->
     exists x, float_group m 1 = Ok x).
Proof.
  split.
  { intros t. destruct (identify_shape t) as [tag|] eqn:E.
    - destruct (parse_command_shape t tag E) as (f & p & _ & _ & _ & ->).
      eexists; split; [reflexivity|]. split; [now right|discriminate].
    - rewrite (parse_command_no_shape t E).
      eexists; split; [reflexivity|]. split; [now left|]. intros _. repeat split. }
  split; [exact methods_total|].
  split.
  { intros t. eapply Forall_impl; [apply (finditer_post _ _ t coord_post)|].
    intros m (v1 & v2 & [q1 H1] & [q2 H2] & Hc). exists q1, q2.
    unfold float_group, group. rewrite Hc. simpl. auto. }
  split.
  { intros t. eapply Forall_impl; [apply (finditer_post _ _ t number_post)|].
    intros m (v & Hv & Hc). eapply float_group_one; eauto. }
  intros p t m Hp Hs. eapply search_keyword_float; [|exact Hs].
  now apply number_patterns_post.
Qed.

Lemma C9_witness :
  In RADIUS_RE number_patterns /\
  search RADIUS_RE (str "r radius: 7.5") = Some (mkMatch 2 (str "radius: 7.5") [(1%nat, str "7.5")]) /\
  exists x, float_group (mkMatch 2 (str "radius: 7.5") [(1%nat, str "7.5")]) 1 = Ok x.
Proof.
  assert (Hin : In RADIUS_RE number_patterns) by (left; reflexivity).
  assert (Hs : search RADIUS_RE (str "r radius: 7.5")
               = Some (mkMatch 2 (str "radius: 7.5") [(1%nat, str "7.5")]))
    by (vm_compute; reflexivity).
  split; [exact Hin|]. split; [exact Hs|].
  exact (proj2 (proj2 (proj2 (proj2 C9_parse_command_total))) _ _ _ Hin Hs).
Defined.

(** ** Confidence of a recognised shape (C10) *)

(** C10: for every text in which a shape surface form occurs the
    confidence is 0.8 and the parameter dictionary is not empty; every tag
    of the shape table has a parser of its own, and that parser returns a
    non-empty dictionary for every text. *)
Theorem C10_shape_confidence :
  (forall t, no_entry SHAPE_KEYWORDS t = false ->
     exists pc tag,
       parse_command t = Ok pc /\ shape pc = Some tag /\
       confidence pc = 0.8%Q /\ parameters pc <> ∅) /\
  (forall tag, In tag (map snd SHAPE_KEYWORDS) ->
     exists f, getattr ("_parse_" +:+ tag) = Some f /\
       forall t, exists p, f t = Ok p /\ p <> ∅).
Proof.
  split.
  - intros t H. destruct (identify_shape_occurs t H) as [tag E].
    destruct (parse_command_shape t tag E) as (f & p & _ & _ & Hg & ->).
    eexists _, tag. split; [reflexivity|]. repeat split.
    apply (with_color_good t p Hg).
  - intros tag Hin. apply shape_tag_of_table in Hin.
    destruct (shape_parser_good tag [] Hin) as (f & _ & Hf & _).
    exists f. split; [exact Hf|]. intros t.
    destruct (shape_parser_good tag t Hin) as (f' & p & Hf' & Hp & Hg & _).
    rewrite Hf in Hf'. inversion Hf'; subst f'. eauto.
Qed.

Lemma C10_witness :
  no_entry SHAPE_KEYWORDS (str "disegna un rettangolo") = false /\
  exists pc tag,
    parse_command (str "disegna un rettangolo") = Ok pc /\ shape pc = Some tag /\
    confidence pc = 0.8%Q /\ parameters pc <> ∅.
Proof.
  split; [vm_compute; reflexivity|].
  apply (proj1 C10_shape_confidence (str "disegna un rettangolo")). vm_compute; reflexivity.
Defined.

(** ** Keywords that can win the lookup *)

Lemma starts_with_prefix a h : starts_with a h = true <-> exists rest, h = a ++ rest.
Proof.
  revert h. induction a as [|x a IH]; intros h; simpl.
  - split; eauto.
  - destruct h as [|y h].
    + split; [discriminate|]. intros [rest H]. discriminate.
    + rewrite andb_true_iff, N.eqb_eq, IH. split.
      * intros [-> [rest ->]]. eauto.
      * intros [rest H]. inversion H; subst. eauto.
Qed.

Lemma contains_spec a h :
  contains a h = true <-> exists pre rest, h = pre ++ a ++ rest.
Proof.
  induction h as [|y h IH]; simpl.
  - rewrite orb_false_r, starts_with_prefix. split.
    + intros [rest H]. exists [], rest. exact H.
    + intros (pre & rest & H). destruct pre; [eauto|discriminate].
  - rewrite orb_true_iff, starts_with_prefix, IH. split.
    + intros [[rest H] | (pre & rest & ->)].
      * exists [], rest. exact H.
      * exists (y :: pre), rest. reflexivity.
    + intros (pre & rest & H). destruct pre as [|z pre].
      * left. eauto.
      * right. inversion H; subst. eauto.
Qed.

Lemma contains_trans a b h :
  contains a b = true -> contains b h = true -> contains a h = true.
Proof.
  rewrite !contains_spec. intros (p1 & r1 & ->) (p2 & r2 & ->).
  exists (p2 ++ p1), (r1 ++ r2). now rewrite <- !app_assoc.
Qed.

Lemma no_entry_app table1 table2 t :
  no_entry (table1 ++ table2) t = no_entry table1 t && no_entry table2 t.
Proof. unfold no_entry. apply forallb_app. Qed.

Lemma shadowed_occurs earlier keyword t :
  shadowed earlier keyword = true -> occurs keyword t = true -> no_entry earlier t = false.
Proof.
  unfold shadowed, no_entry. rewrite existsb_exists. intros (e & Hin & He) Hk.
  apply not_true_is_false. rewrite forallb_forall. intros Hall.
  specialize (Hall e Hin). apply negb_true_iff in Hall.
  unfold occurs in *. now rewrite (contains_trans _ _ _ He Hk) in Hall.
Qed.

Lemma live_from_spec earlier table t tag :
  first_entry table t tag -> no_entry earlier t = true ->
  exists keyword, In (keyword, tag) (live_from earlier table) /\ occurs keyword t = true.
Proof.
  intros (before & keyword & after & -> & Hocc & Hbefore).
  revert earlier. induction before as [|e before IH]; intros earlier Hearlier; simpl.
  - exists keyword. split; [|exact Hocc].
    destruct (shadowed earlier keyword) eqn:E.
    + rewrite (shadowed_occurs _ _ _ E Hocc) in Hearlier. discriminate.
    + now left.
  - cbn [no_entry forallb] in Hbefore. apply andb_prop in Hbefore as [He Hbefore].
    destruct (IH Hbefore (earlier ++ [e])) as (kw & Hin & Hkw).
    + rewrite no_entry_app, Hearlier. cbn [no_entry forallb]. now rewrite He.
    + exists kw. split; [|exact Hkw]. apply in_or_app. now right.
Qed.

Lemma live_incl earlier table e : In e (live_from earlier table) -> In e table.
Proof.
  revert earlier. induction table as [|x table IH]; intros earlier; simpl; [auto|].
  intros H. apply in_app_or in H as [H|H].
  - destruct (shadowed earlier x.1); [destruct H|]. destruct H as [->|[]]. now left.
  - right. eapply IH. exact H.
Qed.

(** X1: the shape that [identify_shape] returns is the tag of a keyword
    that occurs in the text and that no earlier keyword of the table is a
    substring of.  Fourteen of the 46 shape keywords can therefore never
    decide the shape; among them are every Chinese word for an ellipse
    (shadowed by [圆], circle) and the words ["polyline"], ["polilinea"],
    [多段线] and [折线] (shadowed by a word for a line). *)
Theorem X1_shape_from_live_keyword :
  (forall t tag, identify_shape t = Some tag ->
     exists keyword,
       In (keyword, tag) (live SHAPE_KEYWORDS) /\ occurs keyword t = true) /\
  map fst (live SHAPE_KEYWORDS) =
    ["line"; "circle"; "arc"; "ellipse"; "rectangle"; "rect"; "square"; "polygon"; "text";
     "dimension"; "hatch"; "fill"; "cerchio"; "ellisse"; "rettangolo"; "quadrato"; "poligono";
     "testo"; "quota"; "riempimento"; "tratteggio"; "线"; "圆"; "弧"; "矩形"; "方形";
     "多边形"; "文字"; "文本"; "标注"; "尺寸"; "填充"] /\
  (forall t, identify_shape t = Some "ellipse" ->
     occurs "ellipse" t = true \/ occurs "ellisse" t = true) /\
  (forall t, identify_shape t = Some "polyline" ->
     occurs "polygon" t = true \/ occurs "poligono" t = true \/ occurs "多边形" t = true).
Proof.
  assert (Hlive : forall t tag, identify_shape t = Some tag ->
            exists keyword, In (keyword, tag) (live SHAPE_KEYWORDS) /\ occurs keyword t = true).
  { intros t tag H. apply first_keyword_some in H.
    now apply (live_from_spec [] SHAPE_KEYWORDS t tag H). }
  assert (Hlist : live SHAPE_KEYWORDS =
    [("line", "line"); ("circle", "circle"); ("arc", "arc"); ("ellipse", "ellipse");
     ("rectangle", "rectangle"); ("rect", "rectangle"); ("square", "rectangle");
     ("polygon", "polyline"); ("text", "text"); ("dimension", "dimension"); ("hatch", "hatch");
     ("fill", "hatch"); ("cerchio", "circle"); ("ellisse", "ellipse");
     ("rettangolo", "rectangle"); ("quadrato", "rectangle"); ("poligono", "polyline");
     ("testo", "text"); ("quota", "dimension"); ("riempimento", "hatch");
     ("tratteggio", "hatch"); ("线", "line"); ("圆", "circle"); ("弧", "arc");
     ("矩形", "rectangle"); ("方形", "rectangle"); ("多边形", "polyline"); ("文字", "text");
     ("文本", "text"); ("标注", "dimension"); ("尺寸", "dimension"); ("填充", "hatch")])
    by (vm_compute; reflexivity).
  split; [exact Hlive|]. split; [now rewrite Hlist|]. split.
  - intros t H. destruct (Hlive t _ H) as (kw & Hin & Hocc). rewrite Hlist in Hin.
    simpl in Hin.
    repeat (destruct Hin as [Hin|Hin]; [inversion Hin; subst; auto; fail|]). destruct Hin.
  - intros t H. destruct (Hlive t _ H) as (kw & Hin & Hocc). rewrite Hlist in Hin.
    simpl in Hin.
    repeat (destruct Hin as [Hin|Hin]; [inversion Hin; subst; auto; fail|]). destruct Hin.
Qed.

Lemma X1_witness :
  identify_shape (str "draw an ELLIPSE at (0,0)") = Some "ellipse" /\
  (occurs "ellipse" (str "draw an ELLIPSE at (0,0)") = true \/
   occurs "ellisse" (str "draw an ELLIPSE at (0,0)") = true).
Proof.
  assert (H : identify_shape (str "draw an ELLIPSE at (0,0)") = Some "ellipse")
    by (vm_compute; reflexivity).
  split; [exact H|].
  exact (proj1 (proj2 (proj2 X1_shape_from_live_keyword)) _ H).
Defined.

(** X2: the action that [identify_action] returns is the tag of a
    keyword that occurs in the text and that no earlier keyword of the
    table is a substring of.  ["remove"] is the one action keyword that is
    shadowed (by ["move"]): a text in which ["remove"] occurs is given the
    action ["draw"], ["modify"] or ["move"], never ["erase"]. *)
Theorem X2_action_from_live_keyword :
  (forall t tag, identify_action t = Some tag ->
     exists keyword,
       In (keyword, tag) (live ACTION_KEYWORDS) /\ occurs keyword t = true) /\
  live ACTION_KEYWORDS = filter (fun e => negb (String.eqb e.1 "remove")) ACTION_KEYWORDS /\
  (forall t, occurs "remove" t = true ->
     identify_action t = Some "draw" \/ identify_action t = Some "modify" \/
     identify_action t = Some "move").
Proof.
  split.
  { intros t tag H. apply first_keyword_some in H.
    now apply (live_from_spec [] ACTION_KEYWORDS t tag H). }
  split; [vm_compute; reflexivity|].
  intros t H.
  assert (Hmove : occurs "move" t = true).
  { unfold occurs in *.
    change (py_lower (str "remove")) with (py_lower (str "re") ++ py_lower (str "move")) in H.
    now apply contains_app_r in H. }
  destruct (identify_action t) as [tag|] eqn:E.
  - apply first_keyword_some in E. destruct E as (before & kw & after & Htab & Hocc & Hbefore).
    assert (Hlen : (length before <= 9)%nat).
    { destruct (Nat.le_gt_cases (length before) 9) as [Hle|Hgt]; [exact Hle|exfalso].
      assert (Hin : In ("move", "move") before).
      { assert (Hnth : nth_error (before ++ (kw, tag) :: after) 9 = Some ("move", "move"))
          by (rewrite <- Htab; reflexivity).
        rewrite nth_error_app1 in Hnth by lia. eapply nth_error_In. exact Hnth. }
      unfold no_entry in Hbefore. rewrite forallb_forall in Hbefore.
      specialize (Hbefore _ Hin). simpl in Hbefore. now rewrite Hmove in Hbefore. }
    assert (Htag : nth_error ACTION_KEYWORDS (length before) = Some (kw, tag)).
    { rewrite Htab, nth_error_app2 by lia. now rewrite Nat.sub_diag. }
    destruct (length before) as [|[|[|[|[|[|[|[|[|[|n]]]]]]]]]]; try lia;
      vm_compute in Htag; inversion Htag; subst; auto.
  - apply first_keyword_none in E. unfold no_entry in E. rewrite forallb_forall in E.
    assert (Hin : In ("move", "move") ACTION_KEYWORDS)
      by (apply (nth_error_In _ 9); reflexivity).
    specialize (E _ Hin). simpl in E. now rewrite Hmove in E.
Qed.

Lemma X2_witness :
  occurs "remove" (str "Remove the circle") = true /\
  (identify_action (str "Remove the circle") = Some "draw" \/
   identify_action (str "Remove the circle") = Some "modify" \/
   identify_action (str "Remove the circle") = Some "move").
Proof.
  assert (H : occurs "remove" (str "Remove the circle") = true) by (vm_compute; reflexivity).
  split; [exact H|].
  exact (proj2 (proj2 X2_action_from_live_keyword) _ H).
Defined.

(** ** The keys of the parameter dictionaries *)

Lemma set_float_dom p t key (params : Params) :
  post p one_number -> key ∈ dom params ->
  exists params', set_float p t key params = Ok params' /\ dom params' = dom params.
Proof.
  intros Hp Hk. rewrite set_float_spec by assumption.
  eexists; split; [reflexivity|]. destruct (keyword_value p t); [|reflexivity].
  rewrite dom_insert_L. set_solver.
Qed.

Ltac step_set_float_dom :=
  match goal with
  | |- context [set_float ?p ?t ?key ?params] =>
      let H := fresh "H" in let D := fresh "D" in let p' := fresh "params" in
      destruct (set_float_dom p t key params ltac:(auto with kwpat)
                  ltac:(first [ match goal with E : dom params = _ |- _ => rewrite E end
                              | rewrite !dom_insert_L, dom_empty_L ]; set_solver))
        as (p' & H & D);
      rewrite H; cbn [bind];
      try match goal with E : dom params = _ |- _ => rewrite E in D; clear E end
  end.

Ltac finish_dom :=
  eexists; split; [reflexivity|];
  first [ match goal with E : dom ?p = _ |- dom ?p = _ => rewrite E end
        | idtac ];
  rewrite ?dom_insert_L, ?dom_empty_L; set_solver.

Lemma _parse_line_dom t : exists p, _parse_line t = Ok p /\ dom p = shape_keys "line".
Proof.
  unfold _parse_line. use_coords t.
  destruct coords as [|c0 [|c1 r]]; pysimpl; finish_dom.
Qed.

Lemma _parse_circle_dom t : exists p, _parse_circle t = Ok p /\ dom p = shape_keys "circle".
Proof.
  unfold _parse_circle. use_coords t. use_numbers t.
  assert (Hc : exists center, (if nonempty coords then index coords 0 else Ok origin) = Ok center)
    by (destruct coords; pysimpl; eauto).
  destruct Hc as [center ->]. cbn [bind].
  destruct (search RADIUS_RE t) as [m|] eqn:E1.
  { destruct (search_keyword_float _ _ _ RADIUS_RE_post E1) as [q ->]. cbn [bind]. finish_dom. }
  destruct (search RADIUS_CN_RE t) as [m|] eqn:E2.
  { destruct (search_keyword_float _ _ _ RADIUS_CN_RE_post E2) as [q ->]. cbn [bind]. finish_dom. }
  destruct (nonempty coords && (2 <? length numbers)%nat).
  - destruct (drop (length coords * 2) numbers) as [|r0 rest]; pysimpl; finish_dom.
  - destruct (negb (nonempty coords) && nonempty numbers) eqn:E3.
    + destruct numbers as [|n0 ns]; [now rewrite andb_false_r in E3|]. pysimpl. finish_dom.
    + finish_dom.
Qed.

Lemma _parse_arc_dom t : exists p, _parse_arc t = Ok p /\ dom p = shape_keys "arc".
Proof.
  unfold _parse_arc. use_coords t. use_numbers t.
  assert (Hc : exists center, (if nonempty coords then index coords 0 else Ok origin) = Ok center)
    by (destruct coords; pysimpl; eauto).
  destruct Hc as [center ->]. cbn [bind].
  repeat step_set_float_dom. finish_dom.
Qed.

Lemma _parse_ellipse_dom t : exists p, _parse_ellipse t = Ok p /\ dom p = shape_keys "ellipse".
Proof.
  unfold _parse_ellipse. use_coords t. use_numbers t.
  assert (Hc : exists center, (if nonempty coords then index coords 0 else Ok origin) = Ok center)
    by (destruct coords; pysimpl; eauto).
  destruct Hc as [center ->]. cbn [bind].
  repeat step_set_float_dom. finish_dom.
Qed.

Lemma _parse_rectangle_dom t :
  exists p, _parse_rectangle t = Ok p /\ dom p = shape_keys "rectangle".
Proof.
  unfold _parse_rectangle. use_coords t. use_numbers t.
  destruct coords as [|c0 [|c1 r]]; pysimpl;
    rewrite ?get_float_spec by auto with kwpat; cbn [bind];
    rewrite ?get_float_spec by auto with kwpat; cbn [bind];
    rewrite ?get_float_spec by auto with kwpat; cbn [bind];
    rewrite ?get_float_spec by auto with kwpat; cbn [bind];
    finish_dom.
Qed.

Lemma _parse_polyline_dom t :
  exists p, _parse_polyline t = Ok p /\ dom p = shape_keys "polyline".
Proof.
  unfold _parse_polyline. use_coords t.
  destruct (2 <=? length coords)%nat; finish_dom.
Qed.

Lemma _parse_text_dom t : exists p, _parse_text t = Ok p /\ dom p = shape_keys "text".
Proof.
  unfold _parse_text. use_coords t.
  assert (Hc : exists pos, (if nonempty coords then index coords 0 else Ok origin) = Ok pos)
    by (destruct coords; pysimpl; eauto).
  destruct Hc as [pos ->]. cbn [bind].
  repeat step_set_float_dom. finish_dom.
Qed.

Lemma _parse_dimension_dom t :
  exists p, _parse_dimension t = Ok p /\ dom p = shape_keys "dimension".
Proof.
  unfold _parse_dimension. use_coords t.
  destruct coords as [|c0 [|c1 [|c2 r]]]; pysimpl; finish_dom.
Qed.

Lemma PATTERN_RE_post : post PATTERN_RE (fun c c' => exists v, v <> [] /\ c' = (1%nat, v) :: c).
Proof.
  unfold PATTERN_RE, seqs. simpl foldr.
  eapply post_weaken;
    [| exact (seq_post _ _ _ _ (groupless_post (ilits (str "pattern")) eq_refl)
               (seq_post _ _ _ _ (groupless_post (Star ws) eq_refl)
                 (seq_post _ _ _ _ (groupless_post (Opt (Chr (one_of [cp "="; cp ":"]))) eq_refl)
                   (seq_post _ _ _ _ (groupless_post (Star ws) eq_refl)
                     (seq_post _ _ _ _
                        (grp_post 1 _ _
                           (seq_consumes _ _ _ _ (chr_consumes Unicode.is_word)
                              (star_consumes Unicode.is_word)))
                        (groupless_post Eps eq_refl))))))].
  intros c c' (c1 & <- & c2 & <- & c3 & <- & c4 & <- & c5 & (v & Hv & ->) & <-).
  exists v. split; [|reflexivity].
  destruct Hv as (u & w & -> & (x & -> & _) & _). discriminate.
Qed.

Lemma _parse_hatch_dom t : exists p, _parse_hatch t = Ok p /\ dom p = shape_keys "hatch".
Proof.
  unfold _parse_hatch. use_coords t.
  set (boundary := if (3 <=? length coords)%nat then _ else _).
  destruct (search PATTERN_RE t) as [m|] eqn:E.
  - destruct (search_post _ _ _ _ PATTERN_RE_post E) as (v & _ & Hv).
    unfold group. rewrite Hv. cbn [find fst snd Nat.eqb fmap option_fmap option_map bind].
    repeat step_set_float_dom. finish_dom.
  - cbn [bind]. repeat step_set_float_dom. finish_dom.
Qed.

Lemma shape_parser_dom tag t :
  In tag shape_tags ->
  exists f p, getattr ("_parse_" +:+ tag) = Some f /\ f t = Ok p /\ dom p = shape_keys tag.
Proof.
  unfold shape_tags. simpl.
  intros [<-|[<-|[<-|[<-|[<-|[<-|[<-|[<-|[<-|[]]]]]]]]]].
  - destruct (_parse_line_dom t) as (p & ? & ?). exists _parse_line, p. auto.
  - destruct (_parse_circle_dom t) as (p & ? & ?). exists _parse_circle, p. auto.
  - destruct (_parse_arc_dom t) as (p & ? & ?). exists _parse_arc, p. auto.
  - destruct (_parse_ellipse_dom t) as (p & ? & ?). exists _parse_ellipse, p. auto.
  - destruct (_parse_rectangle_dom t) as (p & ? & ?). exists _parse_rectangle, p. auto.
  - destruct (_parse_polyline_dom t) as (p & ? & ?). exists _parse_polyline, p. auto.
  - destruct (_parse_text_dom t) as (p & ? & ?). exists _parse_text, p. auto.
  - destruct (_parse_dimension_dom t) as (p & ? & ?). exists _parse_dimension, p. auto.
  - destruct (_parse_hatch_dom t) as (p & ? & ?). exists _parse_hatch, p. auto.
Qed.

(** What [parse_command] returns for a text with a shape: the dictionary
    of the shape's own parser with the color merged in. *)
Lemma parse_command_parts t pc tag :
  parse_command t = Ok pc -> shape pc = Some tag ->
  exists f p,
    identify_shape t = Some tag /\ In tag shape_tags /\
    getattr ("_parse_" +:+ tag) = Some f /\ f t = Ok p /\
    pc = mkParsedCommand (action_of t) (Some tag) (with_color t p) t 0.8.
Proof.
  intros Hpc Hshape. destruct (identify_shape t) as [tag'|] eqn:E.
  - destruct (parse_command_shape t tag' E) as (f & p & Hf & Hp & _ & Hparse).
    rewrite Hparse in Hpc. inversion Hpc; subst pc. simpl in Hshape. inversion Hshape; subst tag'.
    exists f, p. repeat split; try assumption. now apply identify_shape_tag in E.
  - rewrite (parse_command_no_shape t E) in Hpc. inversion Hpc; subst pc. discriminate.
Qed.

(** X3: the parameter dictionary of a parsed command has exactly the
    keys of its shape -- the keys that the handler of the shape reads --
    and the key ["color"] when, and only when, a color name is found. *)
Theorem X3_parameter_keys (t : text) (pc : ParsedCommand) (tag : string) :
  parse_command t = Ok pc -> shape pc = Some tag ->
  dom (parameters pc) =
  shape_keys tag ∪ (match extract_color t with Some _ => {["color"]} | None => ∅ end).
Proof.
  intros Hpc Hshape.
  destruct (parse_command_parts t pc tag Hpc Hshape) as (f & p & _ & Htag & Hf & Hp & ->).
  destruct (shape_parser_dom tag t Htag) as (f' & p' & Hf' & Hp' & Hdom).
  rewrite Hf in Hf'. inversion Hf'; subst f'. rewrite Hp in Hp'. inversion Hp'; subst p'.
  cbn [parameters]. unfold with_color. destruct (extract_color t).
  - rewrite dom_insert_L, Hdom. set_solver.
  - rewrite Hdom. set_solver.
Qed.

Lemma X3_witness :
  parse_command (str "blue arc at (1,2) radius 3") =
    Ok (mkParsedCommand "draw" (Some "arc")
          (<["color" := VNum (Int 5)]> (<["end_angle" := VNum (Int 90)]>
           (<["start_angle" := VNum (Int 0)]> (<["radius" := VNum (Float 3)]>
            (<["center" := VPoint (Float 1, Float 2)]> ∅)))))
          (str "blue arc at (1,2) radius 3") 0.8) /\
  dom (<["color" := VNum (Int 5)]> (<["end_angle" := VNum (Int 90)]>
       (<["start_angle" := VNum (Int 0)]> (<["radius" := VNum (Float 3)]>
        (<["center" := VPoint (Float 1, Float 2)]> (∅ : Params)))))) =
  shape_keys "arc" ∪
  (match extract_color (str "blue arc at (1,2) radius 3") with
   | Some _ => {["color"]}
   | None => ∅
   end).
Proof.
  assert (H : parse_command (str "blue arc at (1,2) radius 3") =
    Ok (mkParsedCommand "draw" (Some "arc")
          (<["color" := VNum (Int 5)]> (<["end_angle" := VNum (Int 90)]>
           (<["start_angle" := VNum (Int 0)]> (<["radius" := VNum (Float 3)]>
            (<["center" := VPoint (Float 1, Float 2)]> ∅)))))
          (str "blue arc at (1,2) radius 3") 0.8)) by (vm_compute; reflexivity).
  split; [exact H|].
  exact (X3_parameter_keys _ _ "arc" H eq_refl).
Defined.
(** ** What a match consumes and captures *)

Lemma full_weaken r (R R' : text -> caps -> caps -> Prop) :
  (forall pre c c', R pre c c' -> R' pre c c') -> full r R -> full r R'.
Proof.
  intros HR Hr k s c res H.
  destruct (Hr _ _ _ _ H) as (pre & s' & c' & ? & ? & ?). eauto 10.
Qed.

Lemma full_eps : full Eps (fun pre c c' => pre = [] /\ c' = c).
Proof. intros k s c res H. exists [], s, c. auto. Qed.

Lemma full_chr p : full (Chr p) (fun pre c c' => (exists x, pre = [x] /\ p x = true) /\ c' = c).
Proof.
  intros k [|x s] c res H; simpl in H; [discriminate|].
  destruct (p x) eqn:Hp; [|discriminate].
  exists [x], s, c. eauto 10.
Qed.

Lemma full_star p : full (Star p) (fun pre c c' => forallb p pre = true /\ c' = c).
Proof.
  intros k s c res H.
  destruct (star_consumes p _ _ _ _ H) as (pre & s' & ? & ? & ?). exists pre, s', c. auto.
Qed.

Lemma full_seq a b Ra Rb :
  full a Ra -> full b Rb ->
  full (Seq a b) (fun pre c c'' =>
    exists u v c', pre = u ++ v /\ Ra u c c' /\ Rb v c' c'').
Proof.
  intros Ha Hb k s c res H. simpl in H.
  destruct (Ha _ _ _ _ H) as (u & s1 & c1 & -> & Hu & H1).
  destruct (Hb _ _ _ _ H1) as (v & s2 & c2 & -> & Hv & H2).
  exists (u ++ v), s2, c2. rewrite <- app_assoc. eauto 12.
Qed.

Lemma full_alt a b Ra Rb :
  full a Ra -> full b Rb -> full (Alt a b) (fun pre c c' => Ra pre c c' \/ Rb pre c c').
Proof.
  intros Ha Hb k s c res H. simpl in H.
  destruct (run a k s c) eqn:E.
  - inversion H; subst. destruct (Ha _ _ _ _ E) as (pre & s' & c' & ? & ? & ?). eauto 10.
  - destruct (Hb _ _ _ _ H) as (pre & s' & c' & ? & ? & ?). eauto 10.
Qed.

Lemma full_opt a Ra :
  full a Ra -> full (Opt a) (fun pre c c' => (pre = [] /\ c' = c) \/ Ra pre c c').
Proof.
  intros Ha k s c res H. simpl in H.
  destruct (run a k s c) eqn:E.
  - inversion H; subst. destruct (Ha _ _ _ _ E) as (pre & s' & c' & ? & ? & ?). eauto 10.
  - exists [], s, c. auto.
Qed.

Lemma full_grp n a Ra :
  full a Ra ->
  full (Grp n a) (fun pre c c'' => exists c', Ra pre c c' /\ c'' = (n, pre) :: c').
Proof.
  intros Ha k s c res H. simpl in H.
  destruct (Ha _ _ _ _ H) as (pre & s' & c' & -> & Hpre & Hk).
  rewrite length_app in Hk.
  replace (length pre + length s' - length s')%nat with (length pre) in Hk by lia.
  rewrite take_app_length in Hk. exists pre, s', ((n, pre) :: c'). eauto 10.
Qed.

Lemma full_any r : full r (fun _ _ _ => True).
Proof.
  induction r as [|p|a IHa b IHb|a IHa b IHb|a IHa|p|n a IHa].
  - eapply full_weaken; [|apply full_eps]. auto.
  - eapply full_weaken; [|apply full_chr]. auto.
  - eapply full_weaken; [|apply (full_seq _ _ _ _ IHa IHb)]. auto.
  - eapply full_weaken; [|apply (full_alt _ _ _ _ IHa IHb)]. auto.
  - eapply full_weaken; [|apply (full_opt _ _ IHa)]. auto.
  - eapply full_weaken; [|apply full_star]. auto.
  - eapply full_weaken; [|apply (full_grp _ _ _ IHa)]. auto.
Qed.

(** A match found by [search] lies in the text. *)
Lemma match_here_full r R s i m :
  full r R -> match_here r s i = Some m ->
  exists rest, s = m_whole m ++ rest /\ R (m_whole m) [] (m_caps m).
Proof.
  intros Hr. unfold match_here. destruct (run r accept s []) as [[rest c]|] eqn:E; [|discriminate].
  intros [= <-]. cbn [m_whole m_caps].
  destruct (Hr _ _ _ _ E) as (pre & s' & c' & -> & HR & Hk). unfold accept in Hk.
  inversion Hk; subst. exists rest. rewrite length_app.
  replace (length pre + length rest - length rest)%nat with (length pre) by lia.
  rewrite take_app_length. auto.
Qed.

Lemma search_from_full r R s i m :
  full r R -> search_from r s i = Some m ->
  exists before rest, s = before ++ m_whole m ++ rest /\ R (m_whole m) [] (m_caps m).
Proof.
  intros Hr. revert i. induction s as [|x s IH]; intros i; cbn [search_from].
  - destruct (match_here r [] i) eqn:E; [|discriminate]. intros [= <-].
    destruct (match_here_full _ _ _ _ _ Hr E) as (rest & ? & ?). exists [], rest. auto.
  - destruct (match_here r (x :: s) i) eqn:E.
    + intros [= <-]. destruct (match_here_full _ _ _ _ _ Hr E) as (rest & ? & ?).
      exists [], rest. auto.
    + intros H. destruct (IH _ H) as (before & rest & -> & HR).
      exists (x :: before), rest. auto.
Qed.

Lemma search_full r R s m :
  full r R -> search r s = Some m ->
  exists before rest, s = before ++ m_whole m ++ rest /\ R (m_whole m) [] (m_caps m).
Proof. apply search_from_full. Qed.

(** ** Quoted text lies in the text *)

Lemma span_full (po pb pc : N -> bool) n :
  full (seqs [Chr po; Grp n (Plus pb); Chr pc])
    (fun pre c c' => exists o body cl,
       pre = o :: body ++ [cl] /\ po o = true /\ body <> [] /\
       forallb pb body = true /\ pc cl = true /\ c' = (n, body) :: c).
Proof.
  unfold seqs, Plus. cbn [foldr].
  eapply full_weaken;
    [| exact (full_seq _ _ _ _ (full_chr po)
               (full_seq _ _ _ _
                  (full_grp n _ _ (full_seq _ _ _ _ (full_chr pb) (full_star pb)))
                  (full_seq _ _ _ _ (full_chr pc) full_eps)))].
  intros pre c c' (u & v & c1 & -> & ((o & -> & Ho) & ->) &
                   (w & z & c2 & -> & (c3 & (b1 & b2 & c4 & -> & ((b & -> & Hb) & ->) & (Hbs & ->)) & ->) &
                    (y & e & c5 & -> & ((cl & -> & Hcl) & ->) & (-> & ->)))).
  exists o, ([b] ++ b2), cl. cbn [app]. rewrite ?app_nil_r.
  split; [reflexivity|]. split; [exact Ho|]. split; [discriminate|].
  split; [cbn [forallb]; now rewrite Hb, Hbs|]. split; [exact Hcl|reflexivity].
Qed.

Lemma QUOTED_TEXT_PATTERN_full :
  full QUOTED_TEXT_PATTERN
    (fun pre c c' => exists o body cl n,
       pre = o :: body ++ [cl] /\ body <> [] /\ c' = (n, body) :: c /\
       ((n = 1%nat /\ straight o = true /\ straight cl = true /\
         forallb (none_of [dquote; squote]) body = true) \/
        (n = 2%nat /\ o = dquote /\ cl = dquote /\ forallb (none_of [dquote]) body = true) \/
        (n = 3%nat /\ o = cp "「" /\ cl = cp "」" /\ forallb (none_of [cp "」"]) body = true))).
Proof.
  unfold QUOTED_TEXT_PATTERN. cbn [alts].
  eapply full_weaken;
    [| exact (full_alt _ _ _ _ (span_full _ _ _ 1)
               (full_alt _ _ _ _ (span_full _ _ _ 2) (span_full _ _ _ 3)))].
  intros pre c c' [H | [H | H]];
    destruct H as (o & body & cl & -> & Ho & Hne & Hb & Hc & ->);
    exists o, body, cl.
  - exists 1%nat. split; [reflexivity|]. split; [exact Hne|]. split; [reflexivity|].
    left. auto.
  - exists 2%nat. split; [reflexivity|]. split; [exact Hne|]. split; [reflexivity|].
    right; left.
    unfold lit in Ho, Hc. apply N.eqb_eq in Ho. apply N.eqb_eq in Hc. subst. auto.
  - exists 3%nat. split; [reflexivity|]. split; [exact Hne|]. split; [reflexivity|].
    right; right.
    unfold lit in Ho, Hc. apply N.eqb_eq in Ho. apply N.eqb_eq in Hc. subst. auto.
Qed.

(** X4: the text that [extract_quoted_text] returns is never empty and
    stands in the input between two delimiters: straight quotes of either
    kind with no straight quote between them, or two double quotes with no
    double quote between them, or the corner brackets with no closing
    bracket between them. *)
Theorem X4_quoted_text_enclosed (t s : text) :
  extract_quoted_text t = Some s ->
  s <> [] /\
  exists before o cl rest,
    t = before ++ o :: s ++ cl :: rest /\
    ((straight o = true /\ straight cl = true /\
      forallb (none_of [dquote; squote]) s = true) \/
     (o = dquote /\ cl = dquote /\ forallb (none_of [dquote]) s = true) \/
     (o = cp "「" /\ cl = cp "」" /\ forallb (none_of [cp "」"]) s = true)).
Proof.
  unfold extract_quoted_text. destruct (search QUOTED_TEXT_PATTERN t) as [m|] eqn:E; [|discriminate].
  destruct (search_full _ _ _ _ QUOTED_TEXT_PATTERN_full E)
    as (before & rest & -> & o & body & cl & n & Hw & Hne & Hc & Hn).
  rewrite Hw. unfold group. rewrite Hc.
  destruct body as [|b body]; [congruence|].
  assert (Hfirst : first_nonempty
            [snd <$> find (fun e : nat * text => Nat.eqb e.1 1) [(n, b :: body)];
             snd <$> find (fun e : nat * text => Nat.eqb e.1 2) [(n, b :: body)];
             snd <$> find (fun e : nat * text => Nat.eqb e.1 3) [(n, b :: body)]]
           = Some (b :: body)).
  { destruct Hn as [(-> & _) | [(-> & _) | (-> & _)]]; reflexivity. }
  rewrite Hfirst. intros [= <-]. split; [discriminate|].
  exists before, o, cl, rest. split.
  - cbn [app]. rewrite <- !app_assoc. reflexivity.
  - destruct Hn as [(_ & H) | [(_ & H) | (_ & H)]]; auto.
Qed.

Lemma X4_witness :
  extract_quoted_text (str "text 'hello' at (1,2)") = Some (str "hello") /\
  str "hello" <> [] /\
  exists before o cl rest,
    str "text 'hello' at (1,2)" = before ++ o :: str "hello" ++ cl :: rest /\
    ((straight o = true /\ straight cl = true /\
      forallb (none_of [dquote; squote]) (str "hello") = true) \/
     (o = dquote /\ cl = dquote /\ forallb (none_of [dquote]) (str "hello") = true) \/
     (o = cp "「" /\ cl = cp "」" /\ forallb (none_of [cp "」"]) (str "hello") = true)).
Proof.
  assert (H : extract_quoted_text (str "text 'hello' at (1,2)") = Some (str "hello"))
    by (vm_compute; reflexivity).
  split; [exact H|].
  exact (X4_quoted_text_enclosed _ _ H).
Defined.

(** ** Texts without digits *)

Lemma has_digit_app_l u v : has_digit u -> has_digit (u ++ v).
Proof. unfold has_digit. rewrite existsb_app. intros ->. reflexivity. Qed.

Lemma has_digit_app_r u v : has_digit v -> has_digit (u ++ v).
Proof. unfold has_digit. rewrite existsb_app. intros ->. apply orb_true_r. Qed.

Lemma consumes_full r P : consumes r P -> full r (fun pre c c' => P pre /\ c' = c).
Proof.
  intros Hr k s c res H. destruct (Hr _ _ _ _ H) as (pre & s' & ? & ? & ?).
  exists pre, s', c. auto.
Qed.

Lemma unsigned_has_digit : full unsigned_number (fun pre _ _ => has_digit pre).
Proof.
  eapply full_weaken; [|exact (consumes_full _ _ unsigned_shape)].
  intros pre c c' ((d & ds & dot & fs & -> & Hd & _) & _).
  unfold has_digit. cbn [app existsb]. now rewrite Hd.
Qed.

Lemma signed_has_digit : full signed_number (fun pre _ _ => has_digit pre).
Proof.
  change signed_number with (Seq (Opt (Chr (lit (cp "-")))) unsigned_number).
  eapply full_weaken; [|exact (full_seq _ _ _ _ (full_any _) unsigned_has_digit)].
  intros pre c c' (u & v & c1 & -> & _ & Hv). now apply has_digit_app_r.
Qed.

Lemma grp_has_digit n a :
  full a (fun pre _ _ => has_digit pre) -> full (Grp n a) (fun pre _ _ => has_digit pre).
Proof.
  intros Ha. eapply full_weaken; [|exact (full_grp n _ _ Ha)].
  intros pre c c' (c1 & H & _). exact H.
Qed.

Lemma seqs_has_digit l r :
  In r l -> full r (fun pre _ _ => has_digit pre) -> full (seqs l) (fun pre _ _ => has_digit pre).
Proof.
  intros Hin Hr. induction l as [|a l IH]; [destruct Hin|].
  change (seqs (a :: l)) with (Seq a (seqs l)). destruct Hin as [->|Hin].
  - eapply full_weaken; [|exact (full_seq _ _ _ _ Hr (full_any _))].
    intros pre c c' (u & v & c1 & -> & Hu & _). now apply has_digit_app_l.
  - eapply full_weaken; [|exact (full_seq _ _ _ _ (full_any _) (IH Hin))].
    intros pre c c' (u & v & c1 & -> & _ & Hv). now apply has_digit_app_r.
Qed.

Lemma keyword_has_digit pre :
  full (seqs (pre ++ value_tail)) (fun pre _ _ => has_digit pre).
Proof.
  apply (seqs_has_digit _ (Grp 1 unsigned_number)).
  - apply in_or_app. right. unfold value_tail. simpl. auto.
  - apply grp_has_digit, unsigned_has_digit.
Qed.

Lemma number_patterns_has_digit p :
  In p number_patterns -> full p (fun pre _ _ => has_digit pre).
Proof.
  unfold number_patterns. simpl. intros H.
  repeat (destruct H as [<-|H];
    [ first [ exact (keyword_has_digit [_]) | exact (keyword_has_digit [_; _; _]) ] |]).
  destruct H.
Qed.

Lemma COORD_PATTERN_has_digit : full COORD_PATTERN (fun pre _ _ => has_digit pre).
Proof.
  apply (seqs_has_digit _ (Grp 1 signed_number)).
  - simpl. auto.
  - apply grp_has_digit, signed_has_digit.
Qed.

Lemma NUMBER_PATTERN_has_digit : full NUMBER_PATTERN (fun pre _ _ => has_digit pre).
Proof. apply grp_has_digit, signed_has_digit. Qed.

Lemma digit_free_no_match r s :
  full r (fun pre _ _ => has_digit pre) -> digit_free s = true -> run r accept s [] = None.
Proof.
  intros Hr Hs. destruct (run r accept s []) as [res|] eqn:E; [|reflexivity].
  destruct (Hr _ _ _ _ E) as (pre & s' & c' & -> & Hpre & _).
  unfold digit_free in Hs. rewrite forallb_app in Hs. apply andb_prop in Hs as [Hs _].
  unfold has_digit in Hpre. apply existsb_exists in Hpre as (x & Hin & Hx).
  rewrite forallb_forall in Hs. specialize (Hs x Hin). now rewrite Hx in Hs.
Qed.

Lemma digit_free_drop j s : digit_free s = true -> digit_free (drop j s) = true.
Proof.
  revert s. induction j as [|j IH]; intros s H; [now rewrite drop_0|].
  destruct s as [|x s]; [reflexivity|]. cbn [drop]. apply IH.
  unfold digit_free in *. cbn [forallb] in H. now apply andb_prop in H as [_ H].
Qed.

Lemma digit_free_search r s :
  full r (fun pre _ _ => has_digit pre) -> digit_free s = true -> search r s = None.
Proof.
  intros Hr Hs. apply search_from_none. intros j _.
  apply digit_free_no_match; [exact Hr|]. now apply digit_free_drop.
Qed.

Lemma digit_free_finditer_from r s skip i :
  full r (fun pre _ _ => has_digit pre) -> digit_free s = true ->
  finditer_from r s skip i = [].
Proof.
  intros Hr. revert skip i. induction s as [|x s IH]; intros skip i Hs.
  - destruct skip; cbn [finditer_from]; [|reflexivity].
    unfold match_here. now rewrite (digit_free_no_match r [] Hr Hs).
  - assert (Hs' : digit_free s = true).
    { unfold digit_free in *. cbn [forallb] in Hs. now apply andb_prop in Hs as [_ Hs]. }
    destruct skip; cbn [finditer_from]; [|now apply IH].
    unfold match_here. rewrite (digit_free_no_match r (x :: s) Hr Hs). now apply IH.
Qed.

Lemma digit_free_coordinates t : digit_free t = true -> extract_coordinates t = Ok [].
Proof.
  intros H. unfold extract_coordinates, finditer.
  now rewrite (digit_free_finditer_from _ _ 0 0 COORD_PATTERN_has_digit H).
Qed.

Lemma digit_free_numbers t : digit_free t = true -> extract_numbers t = Ok [].
Proof.
  intros H. unfold extract_numbers, finditer.
  now rewrite (digit_free_finditer_from _ _ 0 0 NUMBER_PATTERN_has_digit H).
Qed.

Lemma digit_free_keyword p t :
  In p number_patterns -> digit_free t = true -> keyword_value p t = None.
Proof.
  intros Hp H. unfold keyword_value.
  now rewrite (digit_free_search p t (number_patterns_has_digit p Hp) H).
Qed.

Lemma digit_free_set_float p t key (params : Params) :
  In p number_patterns -> digit_free t = true -> set_float p t key params = Ok params.
Proof.
  intros Hp H. unfold set_float.
  now rewrite (digit_free_search p t (number_patterns_has_digit p Hp) H).
Qed.

Lemma digit_free_get_float p t x :
  In p number_patterns -> digit_free t = true -> get_float p t x = Ok x.
Proof.
  intros Hp H. unfold get_float.
  now rewrite (digit_free_search p t (number_patterns_has_digit p Hp) H).
Qed.

Ltac in_patterns := unfold number_patterns; repeat (first [left; reflexivity | right]).

Ltac skip_floats H :=
  cbn [bind];
  repeat (first [ rewrite digit_free_set_float by (first [exact H | in_patterns])
                | rewrite digit_free_get_float by (first [exact H | in_patterns]) ];
          cbn [bind]).

Lemma digit_free_defaults tag t :
  In tag shape_tags -> digit_free t = true ->
  exists f p,
    getattr ("_parse_" +:+ tag) = Some f /\ f t = Ok p /\
    forall key v, In (key, v) (default_geometry tag) -> p !! key = Some v.
Proof.
  intros Htag H.
  pose proof (digit_free_coordinates t H) as Hc.
  pose proof (digit_free_numbers t H) as Hn.
  assert (Hsearch : forall p, In p number_patterns -> search p t = None)
    by (intros p Hp; exact (digit_free_search p t (number_patterns_has_digit p Hp) H)).
  unfold shape_tags in Htag. simpl in Htag.
  destruct Htag as [<-|[<-|[<-|[<-|[<-|[<-|[<-|[<-|[<-|[]]]]]]]]]].
  - exists _parse_line. eexists. split; [reflexivity|]. split.
    + unfold _parse_line. rewrite Hc. reflexivity.
    + intros key v Hin. simpl in Hin.
      repeat (destruct Hin as [Hin|Hin]; [inversion Hin; subst; reflexivity|]). destruct Hin.
  - exists _parse_circle. eexists. split; [reflexivity|]. split.
    + unfold _parse_circle. rewrite Hc, Hn. cbn [bind nonempty].
      rewrite (Hsearch RADIUS_RE) by in_patterns. rewrite (Hsearch RADIUS_CN_RE) by in_patterns.
      reflexivity.
    + intros key v Hin. simpl in Hin.
      repeat (destruct Hin as [Hin|Hin]; [inversion Hin; subst; reflexivity|]). destruct Hin.
  - exists _parse_arc. eexists. split; [reflexivity|]. split.
    + unfold _parse_arc. rewrite Hc, Hn. cbn [bind nonempty].
      skip_floats H. reflexivity.
    + intros key v Hin. simpl in Hin.
      repeat (destruct Hin as [Hin|Hin]; [inversion Hin; subst; reflexivity|]). destruct Hin.
  - exists _parse_ellipse. eexists. split; [reflexivity|]. split.
    + unfold _parse_ellipse. rewrite Hc, Hn. cbn [bind nonempty].
      skip_floats H. reflexivity.
    + intros key v Hin. simpl in Hin.
      repeat (destruct Hin as [Hin|Hin]; [inversion Hin; subst; reflexivity|]). destruct Hin.
  - exists _parse_rectangle. eexists. split; [reflexivity|]. split.
    + unfold _parse_rectangle. rewrite Hc, Hn. cbn [bind length Nat.leb].
      skip_floats H. reflexivity.
    + intros key v Hin. simpl in Hin.
      repeat (destruct Hin as [Hin|Hin]; [inversion Hin; subst; reflexivity|]). destruct Hin.
  - exists _parse_polyline. eexists. split; [reflexivity|]. split.
    + unfold _parse_polyline. rewrite Hc. reflexivity.
    + intros key v Hin. simpl in Hin.
      repeat (destruct Hin as [Hin|Hin]; [inversion Hin; subst; reflexivity|]). destruct Hin.
  - exists _parse_text. eexists. split; [reflexivity|]. split.
    + unfold _parse_text. rewrite Hc. cbn [bind nonempty].
      skip_floats H. reflexivity.
    + intros key v Hin. simpl in Hin.
      repeat (destruct Hin as [Hin|Hin]; [inversion Hin; subst; reflexivity|]). destruct Hin.
  - exists _parse_dimension. eexists. split; [reflexivity|]. split.
    + unfold _parse_dimension. rewrite Hc. reflexivity.
    + intros key v Hin. simpl in Hin.
      repeat (destruct Hin as [Hin|Hin]; [inversion Hin; subst; reflexivity|]). destruct Hin.
  - destruct (_parse_hatch_ok t) as (p0 & Hp0 & _).
    exists _parse_hatch, p0. split; [reflexivity|]. split; [exact Hp0|].
    revert Hp0. unfold _parse_hatch. rewrite Hc. cbn [bind length Nat.leb].
    destruct (search PATTERN_RE t) as [m|].
    + destruct (group m 1); [|discriminate]. cbn [bind].
      skip_floats H.
      intros [= <-] key v Hin. simpl in Hin.
      repeat (destruct Hin as [Hin|Hin]; [inversion Hin; subst; reflexivity|]). destruct Hin.
    + skip_floats H.
      intros [= <-] key v Hin. simpl in Hin.
      repeat (destruct Hin as [Hin|Hin]; [inversion Hin; subst; reflexivity|]). destruct Hin.
Qed.

Lemma default_geometry_no_color tag key v : In (key, v) (default_geometry tag) -> key <> "color".
Proof.
  unfold default_geometry.
  repeat (match goal with |- context [String.eqb ?a ?b] => destruct (String.eqb a b) end);
    simpl; intros Hin;
    repeat (destruct Hin as [Hin|Hin]; [inversion Hin; subst; discriminate|]); destruct Hin.
Qed.

(** X5: a command that holds no decimal digit yields no coordinate and
    no number, and its shape gets the default geometry of its parser:
    for instance a circle of radius 50 at the origin, or a rectangle from
    the origin to (100.0, 50.0). *)
Theorem X5_digit_free_defaults (t : text) (pc : ParsedCommand) (tag : string) :
  digit_free t = true -> parse_command t = Ok pc -> shape pc = Some tag ->
  extract_coordinates t = Ok [] /\ extract_numbers t = Ok [] /\
  forall key v, In (key, v) (default_geometry tag) -> parameters pc !! key = Some v.
Proof.
  intros H Hpc Hshape.
  split; [now apply digit_free_coordinates|]. split; [now apply digit_free_numbers|].
  destruct (parse_command_parts t pc tag Hpc Hshape) as (f & p & _ & Htag & Hf & Hp & ->).
  destruct (digit_free_defaults tag t Htag H) as (f' & p' & Hf' & Hp' & Hdef).
  rewrite Hf in Hf'. inversion Hf'; subst f'. rewrite Hp in Hp'. inversion Hp'; subst p'.
  intros key v Hin. cbn [parameters]. unfold with_color. destruct (extract_color t).
  - rewrite lookup_insert_ne; [now apply Hdef|].
    intros E. symmetry in E. revert E. now apply (default_geometry_no_color tag key v).
  - now apply Hdef.
Qed.

Lemma X5_witness :
  digit_free (str "draw a red rectangle please") = true /\
  parse_command (str "draw a red rectangle please") =
    Ok (mkParsedCommand "draw" (Some "rectangle")
          (<["color" := VNum (Int 1)]> (<["corner2" := VPoint (Float 100, Float 50)]>
           (<["corner1" := VPoint origin]> ∅)))
          (str "draw a red rectangle please") 0.8) /\
  extract_coordinates (str "draw a red rectangle please") = Ok [] /\
  extract_numbers (str "draw a red rectangle please") = Ok [] /\
  forall key v, In (key, v) (default_geometry "rectangle") ->
    (<["color" := VNum (Int 1)]> (<["corner2" := VPoint (Float 100, Float 50)]>
      (<["corner1" := VPoint origin]> (∅ : Params)))) !! key = Some v.
Proof.
  assert (H : parse_command (str "draw a red rectangle please") =
    Ok (mkParsedCommand "draw" (Some "rectangle")
          (<["color" := VNum (Int 1)]> (<["corner2" := VPoint (Float 100, Float 50)]>
           (<["corner1" := VPoint origin]> ∅)))
          (str "draw a red rectangle please") 0.8)) by (vm_compute; reflexivity).
  assert (Hd : digit_free (str "draw a red rectangle please") = true) by reflexivity.
  split; [exact Hd|]. split; [exact H|].
  exact (X5_digit_free_defaults _ _ "rectangle" Hd H eq_refl).
Defined.

(** ** The parsed parameters fit the drawing methods *)

Lemma digits_value_nonneg s acc : (0 <= acc)%Z -> (0 <= digits_value s acc)%Z.
Proof.
  revert acc. induction s as [|c s IH]; intros acc Hacc; [exact Hacc|].
  cbn [digits_value]. apply IH.
  assert (0 <= Unicode.decimal_value c)%Z; [|lia].
  unfold Unicode.decimal_value. destruct (find _ _); lia.
Qed.

Lemma decimal_Q_nonneg ip fp : (0 <= decimal_Q false ip fp)%Q.
Proof.
  unfold decimal_Q. rewrite Qred_correct. unfold Qle. cbn [Qnum Qden].
  pose proof (digits_value_nonneg (ip ++ fp) 0 ltac:(lia)). lia.
Qed.

Lemma round_half_even_nonneg num den :
  (0 <= num)%Z -> (0 < den)%Z -> (0 <= round_half_even num den)%Z.
Proof.
  intros Hn Hd. unfold round_half_even.
  pose proof (Z.div_pos num den Hn Hd) as Hq.
  destruct (2 * (num mod den) ?= den)%Z; [destruct (Z.even _)| |]; lia.
Qed.

Lemma ge0_fin (q : Q) : (0 <= q)%Q -> ge0 (Float q) = true.
Proof.
  intros H. unfold ge0, sign. destruct (q ?= 0)%Q eqn:E; try reflexivity.
  apply Qlt_alt in E. exfalso. exact (Qlt_not_le _ _ E H).
Qed.

(** Rounding keeps a number that is not negative on that side of zero. *)
Lemma nearest_double_nonneg x : (0 <= x)%Q -> ge0 (Float (nearest_double x)) = true.
Proof.
  destruct x as [n d]. unfold Qle. cbn [Qnum Qden]. intros Hn.
  assert (Hn' : (0 <= n)%Z) by lia. clear Hn.
  unfold nearest_double. cbn [Qnum Qden].
  destruct (n =? 0)%Z; [reflexivity|].
  replace (n <? 0)%Z with false by (symmetry; apply Z.ltb_ge; exact Hn').
  rewrite (Z.abs_eq n Hn').
  match goal with
  | |- context [Z.max (?e - 52) (-1074)] => generalize (Z.max (e - 52) (-1074))
  end.
  intros p. destruct (0 <=? p)%Z eqn:Hp.
  - apply Z.leb_le in Hp.
    assert (Hm : (0 <= round_half_even n (Z.pos d * 2 ^ p))%Z).
    { apply round_half_even_nonneg; [exact Hn'|]. apply Z.mul_pos_pos; [lia|].
      now apply Z.pow_pos_nonneg. }
    destruct (2 ^ 1024 <=? _)%Z; [reflexivity|].
    apply ge0_fin. rewrite Qred_correct. unfold Qle. cbn [Qnum Qden inject_Z].
    assert (0 <= 2 ^ p)%Z by (apply Z.pow_nonneg; lia). nia.
  - assert (Hm : (0 <= round_half_even (n * 2 ^ (- p)) (Z.pos d))%Z).
    { apply round_half_even_nonneg; [|lia].
      apply Z.mul_nonneg_nonneg; [exact Hn'|]. apply Z.pow_nonneg. lia. }
    apply ge0_fin. rewrite Qred_correct. unfold Qle. cbn [Qnum Qden]. lia.
Qed.

Lemma py_float_unsigned v q :
  (split_sign v).1 = false -> py_float v = Ok q -> ge0 (Float q) = true.
Proof.
  unfold py_float. destruct (split_sign v) as [neg body]. cbn [fst]. intros ->.
  destruct (span_digits body) as [ip [|d fp]].
  - destruct (nonempty ip); [|discriminate]. intros [= <-].
    apply nearest_double_nonneg, decimal_Q_nonneg.
  - destruct (_ && _); [|discriminate]. intros [= <-].
    apply nearest_double_nonneg, decimal_Q_nonneg.
Qed.

Lemma unsigned_nonneg : consumes unsigned_number nonneg_numeric.
Proof.
  eapply consumes_weaken; [|exact unsigned_shape].
  intros pre (d & ds & dot & fs & -> & Hd & Hds & Hdot & Hfs).
  destruct (numeric_unsigned d ds dot fs Hd Hds Hdot Hfs) as [q Hq].
  exists q. split; [exact Hq|]. apply (py_float_unsigned ((d :: ds) ++ dot ++ fs)); [|exact Hq].
  change ((d :: ds) ++ dot ++ fs) with (d :: (ds ++ dot ++ fs)).
  now rewrite (split_sign_digit _ _ Hd).
Qed.

Lemma value_tail_nonneg : post (seqs value_tail) one_nonneg.
Proof.
  unfold value_tail, seqs. simpl foldr.
  eapply post_weaken;
    [| exact (seq_post _ _ _ _ (groupless_post (Star ws) eq_refl)
               (seq_post _ _ _ _ (groupless_post (Opt (Chr (one_of [cp "="; cp ":"]))) eq_refl)
                  (seq_post _ _ _ _ (groupless_post (Star ws) eq_refl)
                     (seq_post _ _ _ _ (grp_post 1 _ _ unsigned_nonneg)
                        (groupless_post Eps eq_refl)))))].
  intros c c' (c1 & <- & c2 & <- & c3 & <- & c4 & (v & Hv & ->) & <-).
  exists v. auto.
Qed.

Lemma keyword_nonneg pre :
  forallb groupless pre = true -> post (seqs (pre ++ value_tail)) one_nonneg.
Proof.
  induction pre as [|a pre IH]; simpl; intros Hg.
  - exact value_tail_nonneg.
  - apply andb_prop in Hg as [Ha Hpre].
    eapply post_weaken; [|exact (seq_post _ _ _ _ (groupless_post a Ha) (IH Hpre))].
    intros c c' (c1 & <- & H). exact H.
Qed.

Lemma number_patterns_nonneg p : In p number_patterns -> post p one_nonneg.
Proof.
  unfold number_patterns. simpl. intros H.
  repeat (destruct H as [<-|H];
    [ first [ apply (keyword_nonneg [_]) | apply (keyword_nonneg [_; _; _]) ]; reflexivity |]).
  destruct H.
Qed.

(** A number that follows a keyword is never negative: the keyword
    patterns have no sign in front of the digits. *)
Lemma keyword_value_nonneg p t q :
  In p number_patterns -> keyword_value p t = Some q -> ge0 (Float q) = true.
Proof.
  intros Hp. unfold keyword_value. destruct (search p t) as [m|] eqn:E; [|discriminate].
  destruct (search_post _ _ _ _ (number_patterns_nonneg p Hp) E) as (v & (q' & Hq' & Hnn) & Hc).
  unfold float_group, group. rewrite Hc. cbn [find fst snd Nat.eqb fmap option_fmap option_map].
  rewrite Hq'. now intros [= <-].
Qed.

Lemma well_formed_insert_float tag key q (params : Params) :
  float_slot tag key = true -> ge0 (Float q) = true -> well_formed tag params = true ->
  well_formed tag (<[key := VNum (Float q)]> params) = true.
Proof.
  unfold float_slot, well_formed. rewrite !forallb_forall. intros Hs Hq Hw e He.
  specialize (Hs e He). specialize (Hw e He). unfold meets in *.
  destruct (String.eqb_spec e.1 key) as [->|Hne].
  - rewrite lookup_insert_eq. cbn [negb orb] in Hs.
    destruct e.2 as [| |b| |]; try discriminate. cbn [has_kind].
    destruct b; [exact Hq|reflexivity].
  - rewrite lookup_insert_ne by congruence. exact Hw.
Qed.

Lemma set_float_wf tag p t key (params : Params) :
  In p number_patterns -> float_slot tag key = true -> well_formed tag params = true ->
  exists params', set_float p t key params = Ok params' /\ well_formed tag params' = true.
Proof.
  intros Hp Hs Hw. rewrite set_float_spec by now apply number_patterns_post.
  eexists; split; [reflexivity|]. destruct (keyword_value p t) as [q|] eqn:E; [|exact Hw].
  apply well_formed_insert_float; [exact Hs| |exact Hw]. eapply keyword_value_nonneg; eauto.
Qed.

Ltac step_set_float_wf tag :=
  match goal with
  | HW : well_formed tag ?params = true |- context [set_float ?p ?t ?key ?params] =>
      let H := fresh "H" in let HW' := fresh "HW" in let p' := fresh "params" in
      destruct (set_float_wf tag p t key params ltac:(in_patterns) eq_refl HW) as (p' & H & HW');
      rewrite H; cbn [bind]; clear H HW
  end.

Ltac start_wf tag :=
  match goal with
  | |- context [set_float _ _ _ ?params] =>
      assert (HW : well_formed tag params = true) by (vm_compute; reflexivity)
  end.

Lemma _parse_line_wf t : exists p, _parse_line t = Ok p /\ well_formed "line" p = true.
Proof.
  unfold _parse_line. use_coords t.
  destruct coords as [|c0 [|c1 r]]; pysimpl; eexists; split; reflexivity.
Qed.

Lemma _parse_circle_wf t : exists p, _parse_circle t = Ok p /\ well_formed "circle" p = true.
Proof.
  unfold _parse_circle. use_coords t. use_numbers t.
  assert (Hc : exists center, (if nonempty coords then index coords 0 else Ok origin) = Ok center)
    by (destruct coords; pysimpl; eauto).
  destruct Hc as [center ->]. cbn [bind].
  destruct (search RADIUS_RE t) as [m|] eqn:E1.
  { destruct (search_keyword_float _ _ _ RADIUS_RE_post E1) as [q ->]. cbn [bind].
    eexists; split; reflexivity. }
  destruct (search RADIUS_CN_RE t) as [m|] eqn:E2.
  { destruct (search_keyword_float _ _ _ RADIUS_CN_RE_post E2) as [q ->]. cbn [bind].
    eexists; split; reflexivity. }
  destruct (nonempty coords && (2 <? length numbers)%nat).
  - destruct (drop (length coords * 2) numbers) as [|r0 rest]; pysimpl; eexists; split; reflexivity.
  - destruct (negb (nonempty coords) && nonempty numbers) eqn:E3.
    + destruct numbers as [|n0 ns]; [now rewrite andb_false_r in E3|]. pysimpl.
      eexists; split; reflexivity.
    + eexists; split; reflexivity.
Qed.

Lemma _parse_arc_wf t : exists p, _parse_arc t = Ok p /\ well_formed "arc" p = true.
Proof.
  unfold _parse_arc. use_coords t. use_numbers t.
  assert (Hc : exists center, (if nonempty coords then index coords 0 else Ok origin) = Ok center)
    by (destruct coords; pysimpl; eauto).
  destruct Hc as [center ->]. cbn [bind].
  start_wf "arc". repeat step_set_float_wf "arc". eauto.
Qed.

Lemma _parse_ellipse_wf t : exists p, _parse_ellipse t = Ok p /\ well_formed "ellipse" p = true.
Proof.
  unfold _parse_ellipse. use_coords t. use_numbers t.
  assert (Hc : exists center, (if nonempty coords then index coords 0 else Ok origin) = Ok center)
    by (destruct coords; pysimpl; eauto).
  destruct Hc as [center ->]. cbn [bind].
  start_wf "ellipse". repeat step_set_float_wf "ellipse". eauto.
Qed.

Lemma _parse_rectangle_wf t :
  exists p, _parse_rectangle t = Ok p /\ well_formed "rectangle" p = true.
Proof.
  unfold _parse_rectangle. use_coords t. use_numbers t.
  destruct coords as [|c0 [|c1 r]]; pysimpl;
    rewrite ?get_float_spec by auto with kwpat; cbn [bind];
    rewrite ?get_float_spec by auto with kwpat; cbn [bind];
    rewrite ?get_float_spec by auto with kwpat; cbn [bind];
    rewrite ?get_float_spec by auto with kwpat; cbn [bind];
    eexists; split; reflexivity.
Qed.

Lemma _parse_polyline_wf t :
  exists p, _parse_polyline t = Ok p /\ well_formed "polyline" p = true.
Proof.
  unfold _parse_polyline. use_coords t.
  destruct coords as [|c0 [|c1 r]]; cbn [length Nat.leb]; eexists; split; reflexivity.
Qed.

Lemma _parse_text_wf t : exists p, _parse_text t = Ok p /\ well_formed "text" p = true.
Proof.
  unfold _parse_text. use_coords t.
  assert (Hc : exists pos, (if nonempty coords then index coords 0 else Ok origin) = Ok pos)
    by (destruct coords; pysimpl; eauto).
  destruct Hc as [pos ->]. cbn [bind].
  destruct (extract_quoted_text t) as [[|c s]|];
    start_wf "text"; repeat step_set_float_wf "text"; eauto.
Qed.

Lemma _parse_dimension_wf t :
  exists p, _parse_dimension t = Ok p /\ well_formed "dimension" p = true.
Proof.
  unfold _parse_dimension. use_coords t.
  destruct coords as [|c0 [|c1 [|c2 r]]]; pysimpl; eexists; split; reflexivity.
Qed.

Lemma upper_cp_nonempty c : Unicode.upper_cp c <> [].
Proof.
  assert (H : forallb (fun e => nonempty e.2) Unicode.upper_special = true)
    by (vm_compute; reflexivity).
  unfold Unicode.upper_cp. destruct (find _ Unicode.upper_special) as [e|] eqn:E; [|discriminate].
  apply find_some in E as [Hin _]. rewrite forallb_forall in H. specialize (H e Hin).
  destruct e.2; [discriminate|discriminate].
Qed.

Lemma py_upper_nonempty g : g <> [] -> nonempty (py_upper g) = true.
Proof.
  destruct g as [|x g]; [congruence|]. intros _. unfold py_upper. cbn [flat_map].
  pose proof (upper_cp_nonempty x). destruct (Unicode.upper_cp x); [congruence|reflexivity].
Qed.

Lemma _parse_hatch_wf t : exists p, _parse_hatch t = Ok p /\ well_formed "hatch" p = true.
Proof.
  unfold _parse_hatch. use_coords t.
  assert (Hb : exists b, (if (3 <=? length coords)%nat then coords
                          else [origin; (Int 100, Int 0); (Int 100, Int 100); (Int 0, Int 100)]) = b /\
                         (3 <=? length b)%nat = true).
  { destruct (3 <=? length coords)%nat eqn:E; eauto. }
  destruct Hb as (b & -> & Hb). destruct b as [|b0 [|b1 [|b2 b]]]; try discriminate.
  destruct (search PATTERN_RE t) as [m|] eqn:E.
  - destruct (search_post _ _ _ _ PATTERN_RE_post E) as (v & Hne & Hv).
    unfold group. rewrite Hv. cbn [find fst snd Nat.eqb fmap option_fmap option_map bind].
    pose proof (py_upper_nonempty v Hne) as Hu. destruct (py_upper v) as [|u us]; [discriminate|].
    start_wf "hatch". repeat step_set_float_wf "hatch". eauto.
  - cbn [bind]. start_wf "hatch". repeat step_set_float_wf "hatch". eauto.
Qed.

Lemma shape_parser_wf tag t :
  In tag shape_tags ->
  exists f p, getattr ("_parse_" +:+ tag) = Some f /\ f t = Ok p /\ well_formed tag p = true.
Proof.
  unfold shape_tags. simpl.
  intros [<-|[<-|[<-|[<-|[<-|[<-|[<-|[<-|[<-|[]]]]]]]]]].
  - destruct (_parse_line_wf t) as (p & ? & ?). exists _parse_line, p. auto.
  - destruct (_parse_circle_wf t) as (p & ? & ?). exists _parse_circle, p. auto.
  - destruct (_parse_arc_wf t) as (p & ? & ?). exists _parse_arc, p. auto.
  - destruct (_parse_ellipse_wf t) as (p & ? & ?). exists _parse_ellipse, p. auto.
  - destruct (_parse_rectangle_wf t) as (p & ? & ?). exists _parse_rectangle, p. auto.
  - destruct (_parse_polyline_wf t) as (p & ? & ?). exists _parse_polyline, p. auto.
  - destruct (_parse_text_wf t) as (p & ? & ?). exists _parse_text, p. auto.
  - destruct (_parse_dimension_wf t) as (p & ? & ?). exists _parse_dimension, p. auto.
  - destruct (_parse_hatch_wf t) as (p & ? & ?). exists _parse_hatch, p. auto.
Qed.

Lemma signature_no_color tag e : In e (signature tag) -> e.1 <> "color".
Proof.
  unfold signature.
  repeat (match goal with |- context [String.eqb ?a ?b] => destruct (String.eqb a b) end);
    simpl; intros Hin;
    repeat (destruct Hin as [<-|Hin]; [discriminate|]); destruct Hin.
Qed.

Lemma well_formed_with_color tag t (p : Params) :
  well_formed tag p = true -> well_formed tag (with_color t p) = true.
Proof.
  unfold with_color. destruct (extract_color t) as [c|]; [|auto].
  unfold well_formed. rewrite !forallb_forall. intros H e He. specialize (H e He).
  unfold meets in *. rewrite lookup_insert_ne; [exact H|].
  intros Heq. symmetry in Heq. revert Heq. now apply (signature_no_color tag).
Qed.

Lemma extract_color_in_table t c :
  extract_color t = Some c -> existsb (fun e => (e.2 =? c)%Z) COLOR_MAP = true.
Proof.
  unfold extract_color. destruct (search _color_pattern t) as [m|]; [|discriminate].
  unfold COLOR_MAP_get. destruct (find _ COLOR_MAP) as [e|] eqn:E; [|discriminate].
  cbn [fmap option_fmap option_map]. intros [= <-].
  apply find_some in E as [Hin _]. apply existsb_exists. exists e. split; [exact Hin|].
  apply Z.eqb_refl.
Qed.

Lemma color_in_table_with_color t (p : Params) :
  p !! "color" = None -> color_in_table (with_color t p) = true.
Proof.
  intros Hp. unfold color_in_table, with_color. destruct (extract_color t) as [c|] eqn:E.
  - rewrite lookup_insert_eq. now apply extract_color_in_table in E.
  - now rewrite Hp.
Qed.

Lemma shape_keys_no_color tag : "color" ∉ shape_keys tag.
Proof.
  unfold shape_keys.
  repeat (match goal with |- context [String.eqb ?a ?b] => destruct (String.eqb a b) end);
    set_solver.
Qed.

(** X6: the parameters of a parsed command fit the drawing method of
    its shape: every key that the method reads is present with a value of
    the expected kind, a polyline has at least two points and a hatch at
    least three, the text and the pattern name are not empty, and every
    number except the radius of a circle is at least zero.  The color,
    when there is one, is an index of the color table, hence between 1 and
    250. *)
Theorem X6_parameters_well_formed (t : text) (pc : ParsedCommand) (tag : string) :
  parse_command t = Ok pc -> shape pc = Some tag ->
  well_formed tag (parameters pc) = true /\ color_in_table (parameters pc) = true /\
  forallb (fun e => (1 <=? e.2)%Z && (e.2 <=? 250)%Z) COLOR_MAP = true.
Proof.
  intros Hpc Hshape.
  destruct (parse_command_parts t pc tag Hpc Hshape) as (f & p & _ & Htag & Hf & Hp & ->).
  destruct (shape_parser_wf tag t Htag) as (f' & p' & Hf' & Hp' & Hwf).
  rewrite Hf in Hf'. inversion Hf'; subst f'. rewrite Hp in Hp'. inversion Hp'; subst p'.
  destruct (shape_parser_dom tag t Htag) as (f' & p' & Hf'' & Hp'' & Hdom).
  rewrite Hf in Hf''. inversion Hf''; subst f'. rewrite Hp in Hp''. inversion Hp''; subst p'.
  cbn [parameters]. split; [now apply well_formed_with_color|]. split; [|reflexivity].
  apply color_in_table_with_color. apply not_elem_of_dom. rewrite Hdom.
  apply shape_keys_no_color.
Qed.

Lemma X6_witness :
  parse_command (str "green ellipse at (5,5) major 40 minor 0") =
    Ok (mkParsedCommand "draw" (Some "ellipse")
          (<["color" := VNum (Int 3)]> (<["rotation" := VNum (Int 0)]>
           (<["minor_axis" := VNum (Float 0)]> (<["major_axis" := VNum (Float 40)]>
            (<["center" := VPoint (Float 5, Float 5)]> ∅)))))
          (str "green ellipse at (5,5) major 40 minor 0") 0.8) /\
  well_formed "ellipse"
    (<["color" := VNum (Int 3)]> (<["rotation" := VNum (Int 0)]>
     (<["minor_axis" := VNum (Float 0)]> (<["major_axis" := VNum (Float 40)]>
      (<["center" := VPoint (Float 5, Float 5)]> (∅ : Params)))))) = true /\
  color_in_table
    (<["color" := VNum (Int 3)]> (<["rotation" := VNum (Int 0)]>
     (<["minor_axis" := VNum (Float 0)]> (<["major_axis" := VNum (Float 40)]>
      (<["center" := VPoint (Float 5, Float 5)]> (∅ : Params)))))) = true /\
  forallb (fun e => (1 <=? e.2)%Z && (e.2 <=? 250)%Z) COLOR_MAP = true.
Proof.
  assert (H : parse_command (str "green ellipse at (5,5) major 40 minor 0") =
    Ok (mkParsedCommand "draw" (Some "ellipse")
          (<["color" := VNum (Int 3)]> (<["rotation" := VNum (Int 0)]>
           (<["minor_axis" := VNum (Float 0)]> (<["major_axis" := VNum (Float 40)]>
            (<["center" := VPoint (Float 5, Float 5)]> ∅)))))
          (str "green ellipse at (5,5) major 40 minor 0") 0.8)) by (vm_compute; reflexivity).
  split; [exact H|].
  exact (X6_parameters_well_formed _ _ "ellipse" H eq_refl).
Defined.

(** ** The service layer *)

Section ServiceFacts.

Context {World : Type} (ctl : CADController World) (repr : num -> text).

Lemma ensure_initialized_spec (s : CADService World) :
  state (ensure_initialized World ctl s).2 = state s /\
  ((ensure_initialized World ctl s).1 = true ->
   _initialized (ensure_initialized World ctl s).2 = true) /\
  (_initialized s = true -> _initialized (ensure_initialized World ctl s).2 = true).
Proof.
  unfold ensure_initialized, with_cad. destruct s as [st ini w]. destruct ini; simpl.
  - destruct (is_running ctl w) as [[|] w1]; simpl; [auto|].
    destruct (start ctl w1) as [[|] w2]; simpl; auto.
  - destruct (start ctl w) as [[|] w2]; simpl; auto.
Qed.

Lemma record_spec keep req command (s : CADService World) :
  perform ctl req (cad s) =
    ((record World ctl keep req command s).1, cad (record World ctl keep req command s).2) /\
  _initialized (record World ctl keep req command s).2 = _initialized s /\
  state (record World ctl keep req command s).2 =
    if success (record World ctl keep req command s).1 then
      mkDrawingState
        (if keep then entities (state s) ++ [(record World ctl keep req command s).1]
         else entities (state s))
        (current_layer (state s)) command (str "success")
    else state s.
Proof.
  unfold record. destruct (perform ctl req (cad s)) as [result w].
  destruct (success result) eqn:E; cbn [fst snd cad _initialized state with_cad]; rewrite E; auto.
Qed.

Lemma connect_and_draw_spec color req command (s : CADService World) :
  bad_color color = false ->
  not_connected World ctl s (connect_and_draw World ctl color req command s) \/
  answered World ctl req command s (connect_and_draw World ctl color req command s).
Proof.
  intros Hc. unfold not_connected, answered, connect_and_draw.
  destruct (ensure_initialized_spec s) as (Hst & Hflag & _).
  destruct (ensure_initialized World ctl s) as [[|] s1]; cbn [fst snd negb] in *.
  - rewrite Hc. right. destruct (record_spec true req command s1) as (Hp & Hi & Hs).
    rewrite Hp. cbn [fst snd]. split; [reflexivity|]. split; [reflexivity|].
    split; [reflexivity|]. split; [rewrite Hi; auto|]. rewrite Hs, Hst. reflexivity.
  - left. split; reflexivity.
Qed.

Lemma failure_effect keep r (s : CADService World) : success r = false -> effect keep s (r, s).
Proof.
  intros H. unfold effect. cbn [fst snd]. rewrite H, andb_false_r, app_nil_r. auto.
Qed.

Lemma refusal_effect keep message (s : CADService World) : effect keep s (refusal message, s).
Proof. now apply failure_effect. Qed.

Lemma effect_trans keep (s s1 : CADService World) out :
  state s1 = state s -> (_initialized s = true -> _initialized s1 = true) ->
  effect keep s1 out -> effect keep s out.
Proof.
  unfold effect. intros Hst Hi (H1 & H2 & H3 & H4). rewrite Hst in *. repeat split; auto.
Qed.

Lemma record_effect keep req command (s : CADService World) :
  effect keep s (record World ctl keep req command s).
Proof.
  destruct (record_spec keep req command s) as (_ & Hi & Hs). unfold effect. rewrite Hs, Hi.
  destruct (success _); cbn [entities current_layer last_result].
  - rewrite andb_true_r. destruct keep; [auto|]. rewrite app_nil_r. auto.
  - rewrite andb_false_r, app_nil_r. auto.
Qed.

Lemma connect_and_draw_effect color req command (s : CADService World) :
  effect true s (connect_and_draw World ctl color req command s).
Proof.
  unfold connect_and_draw. destruct (ensure_initialized_spec s) as (Hst & _ & Hmono).
  destruct (ensure_initialized World ctl s) as [ready s1]; cbn [fst snd] in *.
  apply (effect_trans true s s1); [exact Hst|exact Hmono|].
  destruct ready; cbn [negb]; [|apply refusal_effect].
  destruct (bad_color color); [apply refusal_effect|apply record_effect].
Qed.

Ltac guards :=
  repeat match goal with
  | |- effect _ _ (if ?c then _ else _) => destruct c
  | |- effect _ _ (match ?c with Some _ => _ | None => _ end) => destruct c
  end;
  first [apply refusal_effect | apply connect_and_draw_effect].

Lemma draw_line_effect a b l c lw (s : CADService World) :
  effect true s (draw_line World ctl repr a b l c lw s).
Proof. unfold draw_line. guards. Qed.

Lemma draw_circle_effect a r l c lw (s : CADService World) :
  effect true s (draw_circle World ctl repr a r l c lw s).
Proof. unfold draw_circle. guards. Qed.

Lemma draw_arc_effect a r sa ea l c lw (s : CADService World) :
  effect true s (draw_arc World ctl repr a r sa ea l c lw s).
Proof. unfold draw_arc. guards. Qed.

Lemma draw_ellipse_effect a ma mi ro l c lw (s : CADService World) :
  effect true s (draw_ellipse World ctl repr a ma mi ro l c lw s).
Proof. unfold draw_ellipse. guards. Qed.

Lemma draw_polyline_effect pts cl l c lw (s : CADService World) :
  effect true s (draw_polyline World ctl repr pts cl l c lw s).
Proof. unfold draw_polyline. guards. Qed.

Lemma draw_rectangle_effect a b l c lw (s : CADService World) :
  effect true s (draw_rectangle World ctl repr a b l c lw s).
Proof. unfold draw_rectangle. guards. Qed.

Lemma draw_text_effect a tx h ro l c (s : CADService World) :
  effect true s (draw_text World ctl a tx h ro l c s).
Proof. unfold draw_text. guards. Qed.

Lemma draw_hatch_effect pts pn ps l c (s : CADService World) :
  effect true s (draw_hatch World ctl repr pts pn ps l c s).
Proof. unfold draw_hatch. guards. Qed.

Lemma add_dimension_effect a b tp l c (s : CADService World) :
  effect true s (add_dimension World ctl repr a b tp l c s).
Proof. unfold add_dimension. guards. Qed.

Lemma save_drawing_effect path (s : CADService World) :
  effect false s (save_drawing World ctl path s).
Proof.
  unfold save_drawing. destruct (negb (nonempty path)); [apply refusal_effect|].
  destruct (negb (nonempty (py_strip path))); [apply refusal_effect|].
  destruct (ensure_initialized_spec s) as (Hst & _ & Hmono).
  destruct (ensure_initialized World ctl s) as [ready s1]; cbn [fst snd] in *.
  apply (effect_trans false s s1); [exact Hst|exact Hmono|].
  destruct ready; cbn [negb]; [apply record_effect|apply refusal_effect].
Qed.

End ServiceFacts.
(** ** Commands in natural language *)

Lemma well_formed_lookup tag (p : Params) key k :
  well_formed tag p = true -> In (key, k) (signature tag) ->
  exists v, p !! key = Some v /\ has_kind k v = true.
Proof.
  unfold well_formed. rewrite forallb_forall. intros H Hin. specialize (H _ Hin).
  unfold meets in H. cbn [fst snd] in H. destruct (p !! key) as [v|]; [eauto|discriminate].
Qed.

Lemma color_table_range c :
  existsb (fun e => (e.2 =? c)%Z) COLOR_MAP = true -> (1 <= c <= 250)%Z.
Proof.
  assert (H : forallb (fun e => (1 <=? e.2)%Z && (e.2 <=? 250)%Z) COLOR_MAP = true)
    by (vm_compute; reflexivity).
  rewrite forallb_forall in H. intros He. apply existsb_exists in He as (e & Hin & Heq).
  specialize (H e Hin). apply Z.eqb_eq in Heq. subst c. lia.
Qed.

Lemma extract_color_good t : bad_color (extract_color t) = false.
Proof.
  destruct (extract_color t) as [c|] eqn:E; [|reflexivity].
  apply extract_color_in_table, color_table_range in E. unfold bad_color. lia.
Qed.

Lemma get_color_with_color t (p : Params) :
  p !! "color" = None -> get_color (with_color t p) = Ok (extract_color t).
Proof.
  intros Hp. unfold get_color, with_color. destruct (extract_color t) as [c|].
  - now rewrite lookup_insert_eq.
  - now rewrite Hp.
Qed.

(** A command with a shape parses to parameters that the handler of the
    shape can take as they are. *)
Lemma parsed_ready t tag :
  identify_shape t = Some tag ->
  exists p,
    parse_command t = Ok (mkParsedCommand (action_of t) (Some tag) p t 0.8) /\
    well_formed tag p = true /\ get_color p = Ok (extract_color t).
Proof.
  intros H. destruct (parse_command_shape t tag H) as (f & p & Hf & Hp & _ & Hparse).
  pose proof (identify_shape_tag _ _ H) as Htag.
  destruct (shape_parser_wf tag t Htag) as (f' & p' & Hf' & Hp' & Hwf).
  rewrite Hf in Hf'. inversion Hf'; subst f'. rewrite Hp in Hp'. inversion Hp'; subst p'.
  destruct (shape_parser_dom tag t Htag) as (f' & p' & Hf'' & Hp'' & Hdom).
  rewrite Hf in Hf''. inversion Hf''; subst f'. rewrite Hp in Hp''. inversion Hp''; subst p'.
  exists (with_color t p). split; [exact Hparse|]. split; [now apply well_formed_with_color|].
  apply get_color_with_color. apply not_elem_of_dom. rewrite Hdom. apply shape_keys_no_color.
Qed.

Lemma short_point_pairs (l : list point) i :
  short_point (map (fun p : point => [p.1; p.2]) l) i = None.
Proof. revert i. induction l as [|p l IH]; intros i; [reflexivity|]. cbn. apply IH. Qed.

Lemma two_coordinates_pairs (l : list point) :
  forallb two_coordinates (map (fun p : point => [p.1; p.2]) l) = true.
Proof. induction l as [|p l IH]; [reflexivity|]. cbn. exact IH. Qed.

Lemma ltb_of_leb n m : (n <=? m)%nat = true -> (m <? n)%nat = false.
Proof. intros H. apply Nat.leb_le in H. apply Nat.ltb_ge. exact H. Qed.

Lemma lt0_of_nonneg n : ge0 n = true -> lt0 n = false.
Proof. unfold ge0, lt0. now destruct (sign n) as [[| |]|]. Qed.

Section Commands.

Context {World : Type} (ctl : CADController World) (repr : num -> text).

Ltac lookup_kind Hwf tag key k E K :=
  let v := fresh "v" in
  destruct (well_formed_lookup tag _ key k Hwf ltac:(cbn; auto 10)) as (v & E & K);
  destruct v; try discriminate K.

Ltac turn_down message :=
  left; exists message; split; [cbn; auto 10 | reflexivity].

Ltac reach Hbad :=
  match goal with
  | |- nl_outcome _ _ _ _ ?s (connect_and_draw _ _ ?color ?req ?cmd _) =>
      let H := fresh "H" in
      destruct (connect_and_draw_spec ctl color req cmd s Hbad) as [H|H];
      [ right; left; exact H
      | right; right; exists req, cmd;
        split; [reflexivity|]; split; [reflexivity|]; split; [reflexivity|];
        split; [|exact H] ]
  end.

Lemma _execute_line_spec (p : Params) color (s : CADService World) :
  well_formed "line" p = true -> get_color p = Ok color -> bad_color color = false ->
  exists out, _execute_line World ctl repr p s = Ok out /\
              nl_outcome World ctl "line" color s out.
Proof.
  intros Hwf Hcol Hbad.
  lookup_kind Hwf "line" "start" KPoint E1 K1. lookup_kind Hwf "line" "end" KPoint E2 K2.
  unfold _execute_line, get_point. rewrite E1, E2, Hcol. cbn [bind].
  eexists; split; [reflexivity|]. unfold draw_line. cbn [length Nat.ltb Nat.leb orb].
  reach Hbad. cbn. now rewrite Hbad.
Qed.

Lemma _execute_circle_spec (p : Params) color (s : CADService World) :
  well_formed "circle" p = true -> get_color p = Ok color -> bad_color color = false ->
  exists out, _execute_circle World ctl repr p s = Ok out /\
              nl_outcome World ctl "circle" color s out.
Proof.
  intros Hwf Hcol Hbad.
  lookup_kind Hwf "circle" "center" KPoint E1 K1.
  lookup_kind Hwf "circle" "radius" (KNum false) E2 K2.
  unfold _execute_circle, get_point, get_num. rewrite E1, E2, Hcol. cbn [bind].
  eexists; split; [reflexivity|]. unfold draw_circle. cbn [length Nat.ltb Nat.leb orb].
  destruct (le0 n) eqn:Er; [turn_down "Radius must be positive"|].
  reach Hbad. cbn. now rewrite Er, Hbad.
Qed.

Lemma _execute_arc_spec (p : Params) color (s : CADService World) :
  well_formed "arc" p = true -> get_color p = Ok color -> bad_color color = false ->
  exists out, _execute_arc World ctl repr p s = Ok out /\
              nl_outcome World ctl "arc" color s out.
Proof.
  intros Hwf Hcol Hbad.
  lookup_kind Hwf "arc" "center" KPoint E1 K1.
  lookup_kind Hwf "arc" "radius" (KNum true) E2 K2.
  lookup_kind Hwf "arc" "start_angle" (KNum true) E3 K3.
  lookup_kind Hwf "arc" "end_angle" (KNum true) E4 K4.
  unfold _execute_arc, get_point, get_num. rewrite E1, E2, E3, E4, Hcol. cbn [bind].
  eexists; split; [reflexivity|]. unfold draw_arc. cbn [length Nat.ltb Nat.leb orb].
  destruct (le0 n) eqn:Er; [turn_down "Radius must be positive"|].
  reach Hbad. cbn. now rewrite Er, Hbad.
Qed.

Lemma _execute_ellipse_spec (p : Params) color (s : CADService World) :
  well_formed "ellipse" p = true -> get_color p = Ok color -> bad_color color = false ->
  exists out, _execute_ellipse World ctl repr p s = Ok out /\
              nl_outcome World ctl "ellipse" color s out.
Proof.
  intros Hwf Hcol Hbad.
  lookup_kind Hwf "ellipse" "center" KPoint E1 K1.
  lookup_kind Hwf "ellipse" "major_axis" (KNum true) E2 K2.
  lookup_kind Hwf "ellipse" "minor_axis" (KNum true) E3 K3.
  lookup_kind Hwf "ellipse" "rotation" (KNum true) E4 K4.
  unfold _execute_ellipse, get_point, get_num. rewrite E1, E2, E3, E4, Hcol. cbn [bind].
  eexists; split; [reflexivity|]. unfold draw_ellipse. cbn [length Nat.ltb Nat.leb orb].
  destruct (le0 n) eqn:Er; [turn_down "Major axis must be positive"|].
  cbn [has_kind] in K3. rewrite (lt0_of_nonneg _ K3).
  reach Hbad. cbn. now rewrite Er, (lt0_of_nonneg _ K3), Hbad.
Qed.

Lemma _execute_rectangle_spec (p : Params) color (s : CADService World) :
  well_formed "rectangle" p = true -> get_color p = Ok color -> bad_color color = false ->
  exists out, _execute_rectangle World ctl repr p s = Ok out /\
              nl_outcome World ctl "rectangle" color s out.
Proof.
  intros Hwf Hcol Hbad.
  lookup_kind Hwf "rectangle" "corner1" KPoint E1 K1.
  lookup_kind Hwf "rectangle" "corner2" KPoint E2 K2.
  unfold _execute_rectangle, get_point. rewrite E1, E2, Hcol. cbn [bind].
  eexists; split; [reflexivity|]. unfold draw_rectangle. cbn [length Nat.ltb Nat.leb orb].
  reach Hbad. cbn. now rewrite Hbad.
Qed.

Lemma _execute_polyline_spec (p : Params) color (s : CADService World) :
  well_formed "polyline" p = true -> get_color p = Ok color -> bad_color color = false ->
  exists out, _execute_polyline World ctl repr p s = Ok out /\
              nl_outcome World ctl "polyline" color s out.
Proof.
  intros Hwf Hcol Hbad.
  lookup_kind Hwf "polyline" "points" (KPoints 2) E1 K1.
  lookup_kind Hwf "polyline" "closed" KBool E2 K2.
  unfold _execute_polyline, get_points, get_bool. rewrite E1, E2, Hcol. cbn [bind].
  eexists; split; [reflexivity|]. unfold draw_polyline. cbn [has_kind] in K1.
  rewrite length_map, (ltb_of_leb _ _ K1), short_point_pairs.
  reach Hbad. cbn [well_posed]. now rewrite length_map, K1, two_coordinates_pairs, Hbad.
Qed.

Lemma _execute_text_spec (p : Params) color (s : CADService World) :
  well_formed "text" p = true -> get_color p = Ok color -> bad_color color = false ->
  exists out, _execute_text World ctl p s = Ok out /\
              nl_outcome World ctl "text" color s out.
Proof.
  intros Hwf Hcol Hbad.
  lookup_kind Hwf "text" "position" KPoint E1 K1.
  lookup_kind Hwf "text" "text" KStr E2 K2.
  lookup_kind Hwf "text" "height" (KNum true) E3 K3.
  lookup_kind Hwf "text" "rotation" (KNum true) E4 K4.
  unfold _execute_text, get_point, get_str, get_num. rewrite E1, E2, E3, E4, Hcol. cbn [bind].
  eexists; split; [reflexivity|]. unfold draw_text. cbn [length Nat.ltb Nat.leb orb].
  cbn [has_kind] in K2. rewrite K2. cbn [negb].
  destruct (le0 n) eqn:Er; [turn_down "Height must be positive"|].
  reach Hbad. cbn. now rewrite K2, Er, Hbad.
Qed.

Lemma _execute_hatch_spec (p : Params) color (s : CADService World) :
  well_formed "hatch" p = true -> get_color p = Ok color -> bad_color color = false ->
  exists out, _execute_hatch World ctl repr p s = Ok out /\
              nl_outcome World ctl "hatch" color s out.
Proof.
  intros Hwf Hcol Hbad.
  lookup_kind Hwf "hatch" "boundary_points" (KPoints 3) E1 K1.
  lookup_kind Hwf "hatch" "pattern_name" KStr E2 K2.
  lookup_kind Hwf "hatch" "pattern_scale" (KNum true) E3 K3.
  unfold _execute_hatch, get_points, get_str, get_num. rewrite E1, E2, E3, Hcol. cbn [bind].
  eexists; split; [reflexivity|]. unfold draw_hatch. cbn [has_kind] in K1, K2.
  rewrite length_map, (ltb_of_leb _ _ K1), short_point_pairs, K2. cbn [negb].
  destruct (le0 n) eqn:Er; [turn_down "Pattern scale must be positive"|].
  reach Hbad. cbn [well_posed]. now rewrite length_map, K1, two_coordinates_pairs, K2, Er, Hbad.
Qed.

Lemma _execute_dimension_spec (p : Params) color (s : CADService World) :
  well_formed "dimension" p = true -> get_color p = Ok color -> bad_color color = false ->
  exists out, _execute_dimension World ctl repr p s = Ok out /\
              nl_outcome World ctl "dimension" color s out.
Proof.
  intros Hwf Hcol Hbad.
  lookup_kind Hwf "dimension" "start" KPoint E1 K1.
  lookup_kind Hwf "dimension" "end" KPoint E2 K2.
  lookup_kind Hwf "dimension" "text_position" KPoint E3 K3.
  unfold _execute_dimension, get_point. rewrite E1, E2, E3, Hcol. cbn [bind].
  eexists; split; [reflexivity|]. unfold add_dimension. cbn [length Nat.ltb Nat.leb orb].
  reach Hbad. cbn. now rewrite Hbad.
Qed.

(** Every shape has its handler, and the handler takes the parameters
    that the parser of the shape wrote. *)
Lemma handler_spec tag (p : Params) color (s : CADService World) :
  In tag shape_tags ->
  well_formed tag p = true -> get_color p = Ok color -> bad_color color = false ->
  exists handler out,
    snd <$> find (fun e => String.eqb e.1 tag) (method_map World ctl repr) = Some handler /\
    handler p s = Ok out /\ nl_outcome World ctl tag color s out.
Proof.
  unfold shape_tags. simpl.
  intros [<-|[<-|[<-|[<-|[<-|[<-|[<-|[<-|[<-|[]]]]]]]]]] Hwf Hcol Hbad.
  - destruct (_execute_line_spec p color s Hwf Hcol Hbad) as (out & ? & ?).
    exists (_execute_line World ctl repr), out. auto.
  - destruct (_execute_circle_spec p color s Hwf Hcol Hbad) as (out & ? & ?).
    exists (_execute_circle World ctl repr), out. auto.
  - destruct (_execute_arc_spec p color s Hwf Hcol Hbad) as (out & ? & ?).
    exists (_execute_arc World ctl repr), out. auto.
  - destruct (_execute_ellipse_spec p color s Hwf Hcol Hbad) as (out & ? & ?).
    exists (_execute_ellipse World ctl repr), out. auto.
  - destruct (_execute_rectangle_spec p color s Hwf Hcol Hbad) as (out & ? & ?).
    exists (_execute_rectangle World ctl repr), out. auto.
  - destruct (_execute_polyline_spec p color s Hwf Hcol Hbad) as (out & ? & ?).
    exists (_execute_polyline World ctl repr), out. auto.
  - destruct (_execute_text_spec p color s Hwf Hcol Hbad) as (out & ? & ?).
    exists (_execute_text World ctl), out. auto.
  - destruct (_execute_dimension_spec p color s Hwf Hcol Hbad) as (out & ? & ?).
    exists (_execute_dimension World ctl repr), out. auto.
  - destruct (_execute_hatch_spec p color s Hwf Hcol Hbad) as (out & ? & ?).
    exists (_execute_hatch World ctl repr), out. auto.
Qed.

Lemma process_natural_language_shape command tag (s : CADService World) :
  identify_shape command = Some tag ->
  exists out,
    process_natural_language World ctl repr command s = Ok out /\
    nl_outcome World ctl tag (extract_color command) (set_last_command World s command) out.
Proof.
  intros H. destruct (parsed_ready command tag H) as (p & Hparse & Hwf & Hcol).
  pose proof (identify_shape_tag _ _ H) as Htag.
  destruct (handler_spec tag p (extract_color command) (set_last_command World s command)
              Htag Hwf Hcol (extract_color_good command)) as (handler & out & Hh & Hout & Hn).
  exists out. split; [|exact Hn].
  unfold process_natural_language. rewrite Hparse. cbn [bind shape parameters].
  rewrite (shape_tag_truthy tag Htag). cbn [negb]. rewrite Hh. exact Hout.
Qed.

(** X7: what [process_natural_language] does with a command, as long
    as the calls to the controller return (an exception of
    [CADController.start] would pass through).  When no shape is
    recognised the answer is the error "Could not understand command"
    with the action and the confidence 0.3, the command is noted as the
    last command and the CAD application is not contacted.  When a shape
    is recognised the answer is never "Unsupported shape" and one of three
    things happens.  The size check of the shape (the radius of a circle
    or an arc, the major axis of an ellipse, the height of a text, the
    scale of a hatch) turns the command down, and apart from the last
    command the service object is untouched.  Or [ensure_initialized]
    fails and the answer is "CAD not initialized".  Or, after
    [ensure_initialized], the controller performs exactly one request:
    one for that shape, in good order, with the color found in the command
    and no layer; its answer is returned and, if successful, recorded. *)
Theorem X7_command_outcome (command : text) (s : CADService World) :
  match identify_shape command with
  | None =>
      process_natural_language World ctl repr command s =
      Ok (not_understood command (degraded (action_of command) command),
          set_last_command World s command)
  | Some tag =>
      exists out,
        process_natural_language World ctl repr command s = Ok out /\
        nl_outcome World ctl tag (extract_color command)
          (set_last_command World s command) out
  end.
Proof.
  destruct (identify_shape command) as [tag|] eqn:E.
  - now apply process_natural_language_shape.
  - unfold process_natural_language. rewrite (parse_command_no_shape command E).
    reflexivity.
Qed.

End Commands.
(** ** Sessions *)

Lemma bind_congr {A B : Type} (m m' : res A) (f g : A -> res B) :
  m = m' -> (forall a, f a = g a) -> bind m f = bind m' g.
Proof. intros -> H. destruct m'; [apply H|reflexivity]. Qed.

Section Sessions.

Context {World : Type} (ctl : CADController World) (repr : num -> text).

Lemma effect_set_last_command keep (s : CADService World) command out :
  effect keep (set_last_command World s command) out -> effect keep s out.
Proof. unfold effect, set_last_command. cbn [state entities current_layer last_result _initialized]. auto. Qed.

Ltac handler_effect :=
  let H := fresh "H" in
  intros ? ? ? H;
  repeat match type of H with
         | context [bind ?m _] => destruct m; cbn [bind] in H; try discriminate H
         end;
  inversion H; subst.

Lemma method_map_effect :
  Forall (fun e : string * (Params -> CADService World -> res (Reply * CADService World)) =>
            forall p s out, e.2 p s = Ok out -> effect true s out)
    (method_map World ctl repr).
Proof.
  apply List.Forall_forall. unfold method_map. intros e Hin. cbn [In] in Hin.
  destruct Hin as [<-|[<-|[<-|[<-|[<-|[<-|[<-|[<-|[<-|[]]]]]]]]]]; cbn [snd].
  - unfold _execute_line. handler_effect. apply draw_line_effect.
  - unfold _execute_circle. handler_effect. apply draw_circle_effect.
  - unfold _execute_arc. handler_effect. apply draw_arc_effect.
  - unfold _execute_ellipse. handler_effect. apply draw_ellipse_effect.
  - unfold _execute_rectangle. handler_effect. apply draw_rectangle_effect.
  - unfold _execute_polyline. handler_effect. apply draw_polyline_effect.
  - unfold _execute_text. handler_effect. apply draw_text_effect.
  - unfold _execute_hatch. handler_effect. apply draw_hatch_effect.
  - unfold _execute_dimension. handler_effect. apply add_dimension_effect.
Qed.

Lemma process_natural_language_effect command (s : CADService World) :
  exists out, process_natural_language World ctl repr command s = Ok out /\ effect true s out.
Proof.
  destruct (identify_shape command) as [tag|] eqn:E.
  - destruct (process_natural_language_shape ctl repr command tag s E) as (out & Hout & _).
    exists out. split; [exact Hout|]. apply (effect_set_last_command true s command).
    revert Hout. unfold process_natural_language.
    destruct (parse_command command) as [parsed|]; [|discriminate]. cbn [bind].
    destruct (shape parsed) as [tag'|]; [|intros [= <-]; now apply failure_effect].
    destruct (negb (truthy tag')); [intros [= <-]; now apply failure_effect|].
    destruct (find _ _) as [e|] eqn:F; cbn [fmap option_fmap option_map];
      [|intros [= <-]; apply refusal_effect].
    apply find_some in F as [Hin _].
    exact (proj1 (List.Forall_forall _ _) method_map_effect e Hin _ _ _).
  - exists (not_understood command (degraded (action_of command) command),
            set_last_command World s command).
    split.
    + unfold process_natural_language. now rewrite (parse_command_no_shape command E).
    + apply (effect_set_last_command true s command). now apply failure_effect.
Qed.

Lemma call_tool_effect c (s : CADService World) :
  exists out, call_tool World ctl repr c s = Ok out /\ effect (draws c) s out.
Proof.
  destruct c; cbn [call_tool draws];
    try (eexists; split; [reflexivity|]).
  - apply draw_line_effect.
  - apply draw_circle_effect.
  - apply draw_arc_effect.
  - apply draw_ellipse_effect.
  - apply draw_polyline_effect.
  - apply draw_rectangle_effect.
  - apply draw_text_effect.
  - apply draw_hatch_effect.
  - apply add_dimension_effect.
  - apply save_drawing_effect.
  - apply process_natural_language_effect.
  - apply refusal_effect.
Qed.

Lemma serve_spec calls (s : CADService World) :
  exists replies s',
    serve World ctl repr calls s = Ok (replies, s') /\
    length replies = length calls /\
    entities (state s') = entities (state s) ++ drawn calls replies /\
    current_layer (state s') = current_layer (state s) /\
    last_result (state s') =
      (if existsb success replies then str "success" else last_result (state s)) /\
    (_initialized s = true -> _initialized s' = true).
Proof.
  revert s. induction calls as [|c calls IH]; intros s.
  - exists [], s. cbn [serve length drawn existsb]. rewrite app_nil_r. repeat split; auto.
  - destruct (call_tool_effect c s) as ([r s1] & Hc & He & Hl & Hr & Hi).
    destruct (IH s1) as (replies & s' & Hs & Hlen & He' & Hl' & Hr' & Hi').
    exists (r :: replies), s'. cbn [serve]. rewrite Hc. cbn [bind snd fst]. rewrite Hs.
    cbn [bind snd fst length drawn existsb] in *.
    split; [reflexivity|]. split; [now rewrite Hlen|].
    split; [rewrite He', He; now rewrite <- app_assoc|].
    split; [now rewrite Hl', Hl|]. split; [|auto].
    rewrite Hr', Hr. destruct (success r), (existsb success replies); reflexivity.
Qed.

Lemma drawn_success calls replies : Forall (fun e => success e = true) (drawn calls replies).
Proof.
  revert replies. induction calls as [|c calls IH]; intros [|r replies]; cbn [drawn];
    try constructor.
  apply Forall_app. split; [|apply IH].
  destruct (draws c); cbn [andb]; [|constructor].
  destruct (success r) eqn:E; repeat constructor. exact E.
Qed.

(** X8: a session of tool calls on a new service object.  Every call is
    answered (none raises); the entities of the drawing state are exactly
    the successful answers to the drawing calls, in the order of the calls,
    so that a call that fails or is turned down, a saved drawing and a
    command that is not understood add nothing; the current layer stays "0"
    whatever layers the calls name; and [last_result] is "success" from
    the first successful call on, also after later failures. *)
Theorem X8_session_state (calls : list tool) (w : World) :
  exists replies s,
    serve World ctl repr calls (fresh w) = Ok (replies, s) /\
    length replies = length calls /\
    entities (state s) = drawn calls replies /\
    Forall (fun e => success e = true) (entities (state s)) /\
    current_layer (state s) = str "0" /\
    last_result (state s) = (if existsb success replies then str "success" else []).
Proof.
  destruct (serve_spec calls (fresh w)) as (replies & s & Hs & Hlen & He & Hl & Hr & _).
  exists replies, s. cbn [fresh state entities current_layer last_result app] in *.
  repeat split; try assumption. rewrite He. apply drawn_success.
Qed.

End Sessions.

(** ** Requests in good order *)

Section Agreement.

Context {World : Type} (ctl ctl' : CADController World) (repr : num -> text).

Hypothesis same_is_running : forall w, is_running ctl w = is_running ctl' w.
Hypothesis same_start : forall w, start ctl w = start ctl' w.
Hypothesis same_perform :
  forall req w, well_posed req = true -> perform ctl req w = perform ctl' req w.

Lemma ensure_initialized_agree (s : CADService World) :
  ensure_initialized World ctl s = ensure_initialized World ctl' s.
Proof.
  unfold ensure_initialized. rewrite same_is_running.
  destruct (_initialized s).
  - destruct (is_running ctl' (cad s)) as [[|] w1]; [reflexivity|].
    cbn [cad with_cad]. now rewrite same_start.
  - now rewrite same_start.
Qed.

Lemma record_agree keep req command (s : CADService World) :
  well_posed req = true ->
  record World ctl keep req command s = record World ctl' keep req command s.
Proof. intros H. unfold record. now rewrite (same_perform req (cad s) H). Qed.

Lemma connect_and_draw_agree color req command (s : CADService World) :
  (bad_color color = false -> well_posed req = true) ->
  connect_and_draw World ctl color req command s =
  connect_and_draw World ctl' color req command s.
Proof.
  intros H. unfold connect_and_draw. rewrite ensure_initialized_agree.
  destruct (ensure_initialized World ctl' s) as [[|] s1]; cbn [negb]; [|reflexivity].
  destruct (bad_color color) eqn:E; [reflexivity|]. apply record_agree. auto.
Qed.

Ltac agree :=
  repeat match goal with
  | |- (if ?c then _ else _) = (if ?c then _ else _) =>
      let E := fresh "E" in destruct c eqn:E; [reflexivity|]
  | |- match ?c with Some _ => _ | None => _ end = match ?c with Some _ => _ | None => _ end =>
      let E := fresh "E" in destruct c eqn:E; [reflexivity|]
  end;
  apply connect_and_draw_agree; intros Hcolor; cbn [well_posed two_coordinates];
  repeat match goal with
  | E : (_ || _) = false |- _ => apply orb_false_elim in E as [? ?]
  | E : negb _ = false |- _ => apply negb_false_iff in E
  | E : (_ <? _)%nat = false |- _ => apply Nat.ltb_ge in E
  end;
  repeat (apply andb_true_intro; split);
  first [ apply Nat.leb_le; assumption
        | assumption
        | now apply negb_true_iff
        | idtac ].

Lemma draw_line_agree a b l c lw (s : CADService World) :
  draw_line World ctl repr a b l c lw s = draw_line World ctl' repr a b l c lw s.
Proof. unfold draw_line. agree. Qed.

Lemma draw_circle_agree a r l c lw (s : CADService World) :
  draw_circle World ctl repr a r l c lw s = draw_circle World ctl' repr a r l c lw s.
Proof. unfold draw_circle. agree. Qed.

Lemma draw_arc_agree a r sa ea l c lw (s : CADService World) :
  draw_arc World ctl repr a r sa ea l c lw s = draw_arc World ctl' repr a r sa ea l c lw s.
Proof. unfold draw_arc. agree. Qed.

Lemma draw_ellipse_agree a ma mi ro l c lw (s : CADService World) :
  draw_ellipse World ctl repr a ma mi ro l c lw s =
  draw_ellipse World ctl' repr a ma mi ro l c lw s.
Proof. unfold draw_ellipse. agree. Qed.

Lemma draw_rectangle_agree a b l c lw (s : CADService World) :
  draw_rectangle World ctl repr a b l c lw s = draw_rectangle World ctl' repr a b l c lw s.
Proof. unfold draw_rectangle. agree. Qed.

Lemma draw_text_agree a tx h ro l c (s : CADService World) :
  draw_text World ctl a tx h ro l c s = draw_text World ctl' a tx h ro l c s.
Proof. unfold draw_text. agree. Qed.

Lemma add_dimension_agree a b tp l c (s : CADService World) :
  add_dimension World ctl repr a b tp l c s = add_dimension World ctl' repr a b tp l c s.
Proof. unfold add_dimension. agree. Qed.

Lemma short_point_none points i :
  short_point points i = None -> forallb two_coordinates points = true.
Proof.
  revert i. induction points as [|pt points IH]; intros i; [reflexivity|].
  cbn [short_point forallb]. unfold two_coordinates at 1.
  destruct (length pt <? 2)%nat eqn:E; [discriminate|]. intros H.
  apply Nat.ltb_ge in E. apply Nat.leb_le in E. rewrite E. exact (IH _ H).
Qed.

Lemma draw_polyline_agree pts cl l c lw (s : CADService World) :
  draw_polyline World ctl repr pts cl l c lw s = draw_polyline World ctl' repr pts cl l c lw s.
Proof.
  unfold draw_polyline. destruct (length pts <? 2)%nat eqn:E1; [reflexivity|].
  destruct (short_point pts 0) eqn:E2; [reflexivity|].
  apply connect_and_draw_agree. intros Hc. cbn [well_posed].
  apply Nat.ltb_ge in E1. apply Nat.leb_le in E1.
  now rewrite E1, (short_point_none _ _ E2), Hc.
Qed.

Lemma draw_hatch_agree pts pn ps l c (s : CADService World) :
  draw_hatch World ctl repr pts pn ps l c s = draw_hatch World ctl' repr pts pn ps l c s.
Proof.
  unfold draw_hatch. destruct (length pts <? 3)%nat eqn:E1; [reflexivity|].
  destruct (short_point pts 0) eqn:E2; [reflexivity|].
  destruct (nonempty pn) eqn:E3; cbn [negb]; [|reflexivity].
  destruct (le0 ps) eqn:E4; [reflexivity|].
  apply connect_and_draw_agree. intros Hc. cbn [well_posed].
  apply Nat.ltb_ge in E1. apply Nat.leb_le in E1.
  now rewrite E1, (short_point_none _ _ E2), E3, E4, Hc.
Qed.

Lemma save_drawing_agree path (s : CADService World) :
  save_drawing World ctl path s = save_drawing World ctl' path s.
Proof.
  unfold save_drawing. destruct (negb (nonempty path)); [reflexivity|].
  destruct (nonempty (py_strip path)) eqn:E; cbn [negb]; [|reflexivity].
  rewrite ensure_initialized_agree.
  destruct (ensure_initialized World ctl' s) as [[|] s1]; cbn [negb]; [|reflexivity].
  now apply record_agree.
Qed.

Ltac same_arguments :=
  repeat (match goal with
          | |- bind ?m _ = bind ?m _ => destruct m; cbn [bind]; [|reflexivity]
          end);
  apply (f_equal Ok).

Lemma _execute_line_agree (p : Params) (s : CADService World) :
  _execute_line World ctl repr p s = _execute_line World ctl' repr p s.
Proof. unfold _execute_line. same_arguments. apply draw_line_agree. Qed.

Lemma _execute_circle_agree (p : Params) (s : CADService World) :
  _execute_circle World ctl repr p s = _execute_circle World ctl' repr p s.
Proof. unfold _execute_circle. same_arguments. apply draw_circle_agree. Qed.

Lemma _execute_arc_agree (p : Params) (s : CADService World) :
  _execute_arc World ctl repr p s = _execute_arc World ctl' repr p s.
Proof. unfold _execute_arc. same_arguments. apply draw_arc_agree. Qed.

Lemma _execute_ellipse_agree (p : Params) (s : CADService World) :
  _execute_ellipse World ctl repr p s = _execute_ellipse World ctl' repr p s.
Proof. unfold _execute_ellipse. same_arguments. apply draw_ellipse_agree. Qed.

Lemma _execute_rectangle_agree (p : Params) (s : CADService World) :
  _execute_rectangle World ctl repr p s = _execute_rectangle World ctl' repr p s.
Proof. unfold _execute_rectangle. same_arguments. apply draw_rectangle_agree. Qed.

Lemma _execute_polyline_agree (p : Params) (s : CADService World) :
  _execute_polyline World ctl repr p s = _execute_polyline World ctl' repr p s.
Proof. unfold _execute_polyline. same_arguments. apply draw_polyline_agree. Qed.

Lemma _execute_text_agree (p : Params) (s : CADService World) :
  _execute_text World ctl p s = _execute_text World ctl' p s.
Proof. unfold _execute_text. same_arguments. apply draw_text_agree. Qed.

Lemma _execute_hatch_agree (p : Params) (s : CADService World) :
  _execute_hatch World ctl repr p s = _execute_hatch World ctl' repr p s.
Proof. unfold _execute_hatch. same_arguments. apply draw_hatch_agree. Qed.

Lemma _execute_dimension_agree (p : Params) (s : CADService World) :
  _execute_dimension World ctl repr p s = _execute_dimension World ctl' repr p s.
Proof. unfold _execute_dimension. same_arguments. apply add_dimension_agree. Qed.

Lemma method_map_agree tag (p : Params) (s : CADService World) :
  match snd <$> find (fun e => String.eqb e.1 tag) (method_map World ctl repr) with
  | Some handler => handler p s
  | None => Ok (refusal (str "Unsupported shape: " ++ str tag), s)
  end =
  match snd <$> find (fun e => String.eqb e.1 tag) (method_map World ctl' repr) with
  | Some handler => handler p s
  | None => Ok (refusal (str "Unsupported shape: " ++ str tag), s)
  end.
Proof.
  unfold method_map. cbn [find fst].
  destruct (String.eqb "line" tag); [apply _execute_line_agree|].
  destruct (String.eqb "circle" tag); [apply _execute_circle_agree|].
  destruct (String.eqb "arc" tag); [apply _execute_arc_agree|].
  destruct (String.eqb "ellipse" tag); [apply _execute_ellipse_agree|].
  destruct (String.eqb "rectangle" tag); [apply _execute_rectangle_agree|].
  destruct (String.eqb "polyline" tag); [apply _execute_polyline_agree|].
  destruct (String.eqb "text" tag); [apply _execute_text_agree|].
  destruct (String.eqb "hatch" tag); [apply _execute_hatch_agree|].
  destruct (String.eqb "dimension" tag); [apply _execute_dimension_agree|].
  reflexivity.
Qed.

Lemma process_natural_language_agree command (s : CADService World) :
  process_natural_language World ctl repr command s =
  process_natural_language World ctl' repr command s.
Proof.
  unfold process_natural_language. apply bind_congr; [reflexivity|]. intros parsed.
  destruct (shape parsed) as [tag|]; [|reflexivity].
  destruct (negb (truthy tag)); [reflexivity|]. apply method_map_agree.
Qed.

Lemma call_tool_agree c (s : CADService World) :
  call_tool World ctl repr c s = call_tool World ctl' repr c s.
Proof.
  destruct c; cbn [call_tool].
  - apply (f_equal Ok), draw_line_agree.
  - apply (f_equal Ok), draw_circle_agree.
  - apply (f_equal Ok), draw_arc_agree.
  - apply (f_equal Ok), draw_ellipse_agree.
  - apply (f_equal Ok), draw_polyline_agree.
  - apply (f_equal Ok), draw_rectangle_agree.
  - apply (f_equal Ok), draw_text_agree.
  - apply (f_equal Ok), draw_hatch_agree.
  - apply (f_equal Ok), add_dimension_agree.
  - apply (f_equal Ok), save_drawing_agree.
  - apply process_natural_language_agree.
  - reflexivity.
Qed.

Lemma serve_agree calls (s : CADService World) :
  serve World ctl repr calls s = serve World ctl' repr calls s.
Proof.
  revert s. induction calls as [|c calls IH]; intros s; [reflexivity|].
  cbn [serve]. apply bind_congr; [apply call_tool_agree|]. intros out.
  apply bind_congr; [apply IH|reflexivity].
Qed.

End Agreement.

Lemma converts_two_coordinates pt : two_coordinates pt = true -> converts pt = true.
Proof.
  unfold two_coordinates, converts, _ensure_3d_point.
  destruct pt as [|x [|y [|z r]]]; cbn; congruence.
Qed.

Lemma forallb_converts points :
  forallb two_coordinates points = true -> forallb converts points = true.
Proof.
  induction points as [|pt points IH]; [reflexivity|]. cbn [forallb].
  intros H. apply andb_prop in H as [H1 H2].
  now rewrite (converts_two_coordinates _ H1), (IH H2).
Qed.

Lemma rectangle_accepted c1 c2 : polyline_accepted (rectangle_corners c1 c2) = true.
Proof. destruct c1 as [[x1 y1] z1], c2 as [[x2 y2] z2]. reflexivity. Qed.

Lemma polyline_accepted_spec n points :
  (2 <= n)%nat -> (n <=? length points)%nat = true ->
  forallb two_coordinates points = true -> polyline_accepted points = true.
Proof.
  intros Hn Hlen Hall. unfold polyline_accepted. rewrite (forallb_converts _ Hall).
  apply Nat.leb_le in Hlen. rewrite (proj2 (Nat.ltb_ge (length points) 2)); [reflexivity|lia].
Qed.

Lemma well_posed_accepted req : well_posed req = true -> controller_accepts req = true.
Proof.
  destruct req; cbn [well_posed controller_accepts]; intros H;
    repeat match goal with
           | H : (_ && _) = true |- _ => apply andb_prop in H as [? ?]
           end.
  - now rewrite !converts_two_coordinates.
  - now rewrite !converts_two_coordinates.
  - now rewrite !converts_two_coordinates.
  - rewrite converts_two_coordinates by assumption. now rewrite H2, H1.
  - now apply (polyline_accepted_spec 2).
  - pose proof (converts_two_coordinates _ H) as C1.
    pose proof (converts_two_coordinates _ H1) as C2. unfold converts in C1, C2.
    destruct (_ensure_3d_point corner1); [|discriminate].
    destruct (_ensure_3d_point corner2); [|discriminate].
    apply rectangle_accepted.
  - now rewrite !converts_two_coordinates.
  - rewrite (polyline_accepted_spec 3) by (assumption || lia).
    apply Nat.leb_le in H. now rewrite (proj2 (Nat.ltb_ge (length boundary_points) 3) H).
  - now rewrite !converts_two_coordinates.
  - reflexivity.
Qed.

(** X9: only requests in good order reach the controller.  Two
    controllers that answer alike whenever the request has passed every
    check of the service -- points with two coordinates or more, a
    positive radius, major axis, text height and pattern scale, a minor
    axis that is not negative, a text and a pattern name that are not
    empty, two points or more for a polyline and three or more for a
    hatch, a color between 0 and 255, a file path that is not blank --
    cannot be told apart through the service, whatever tools are called:
    what a controller would do with any other request never matters.
    Such a request also passes the checks that the controller repeats on
    its side, so that [_ensure_3d_point] never raises and the controller
    never turns down an argument of a call made by the service. *)
Theorem X9_requests_in_good_order {World : Type} (ctl ctl' : CADController World)
    (repr : num -> text) (calls : list tool) (s : CADService World) :
  (forall w, is_running ctl w = is_running ctl' w) ->
  (forall w, start ctl w = start ctl' w) ->
  (forall req w, well_posed req = true -> perform ctl req w = perform ctl' req w) ->
  serve World ctl repr calls s = serve World ctl' repr calls s /\
  forall req, well_posed req = true -> controller_accepts req = true.
Proof.
  intros H1 H2 H3. split; [now apply serve_agree|]. exact well_posed_accepted.
Qed.

Lemma X9_witness :
  serve nat obliging plain_repr
    [ToolCircle [Int 0; Int 0] (Int 0) None None None;
     ToolLine [Int 0; Int 0] [Int 1] None None None;
     ToolCommand (str "red circle at (1,2) radius 3")] (fresh O) =
  serve nat fragile plain_repr
    [ToolCircle [Int 0; Int 0] (Int 0) None None None;
     ToolLine [Int 0; Int 0] [Int 1] None None None;
     ToolCommand (str "red circle at (1,2) radius 3")] (fresh O) /\
  forall req, well_posed req = true -> controller_accepts req = true.
Proof.
  apply (X9_requests_in_good_order obliging fragile plain_repr).
  - intros w. reflexivity.
  - intros w. reflexivity.
  - intros req w H. cbn [perform obliging fragile]. rewrite H. reflexivity.
Defined.
